(** * Smart email search workflow: query parser, fusion and post-filter

    A shallow embedding of [backend/workflows/search_workflow.py]
    ([SmartSearchWorkflow]), of the methods of [EmbeddingService] and
    [QdrantService] that it calls, and of the parts of the Python runtime it
    relies on ([str] methods, the [re] module, [datetime] arithmetic),
    followed by the properties of the specification that concern it and by
    further properties read off the code.

    Modelling conventions.
    - Text is 7-bit ASCII held in [string]; characters above 127 are neither
      word characters nor white space and are left alone by [lower].
    - Relevance scores are exact rationals ([Q]); the code computes them in
      binary64, so equalities proved here are the exact counterparts of the
      code's rounded results.
    - A [datetime] is time-zone aware and normalised to UTC, as the
      [TIMESTAMPTZ NOT NULL] column and [datetime.now(timezone.utc)] give.
    - An exception is a value [Raise msg] of type [exn]; every [try/except]
      of the source is a [match] on it. *)

From Stdlib Require Import ZArith QArith Qabs Bool List Ascii String Lia.
From Stdlib Require Import Permutation Sorted Lqa.
Import ListNotations.

(* ================================================================== *)
(** * Python [str] primitives *)
(* ================================================================== *)

Module Py.

Local Open Scope string_scope.

(** [str.isspace] on the ASCII range: TAB..CR, FS..US and SPACE. *)
Definition is_space (c : ascii) : bool :=
  let n := nat_of_ascii c in
  ((9 <=? n) && (n <=? 13) || (28 <=? n) && (n <=? 32))%nat.

Definition is_digit (c : ascii) : bool :=
  let n := nat_of_ascii c in ((48 <=? n) && (n <=? 57))%nat.

Definition is_upper (c : ascii) : bool :=
  let n := nat_of_ascii c in ((65 <=? n) && (n <=? 90))%nat.

Definition is_lower (c : ascii) : bool :=
  let n := nat_of_ascii c in ((97 <=? n) && (n <=? 122))%nat.

(** [\w] of the [re] module: letters, digits and the underscore. *)
Definition is_word (c : ascii) : bool :=
  is_upper c || is_lower c || is_digit c || (nat_of_ascii c =? 95)%nat.

Definition lower_char (c : ascii) : ascii :=
  if is_upper c then ascii_of_nat (nat_of_ascii c + 32) else c.

(** [s.lower()] *)
Fixpoint lower (s : string) : string :=
  match s with
  | EmptyString => EmptyString
  | String c s' => String (lower_char c) (lower s')
  end.

Fixpoint lstrip (s : string) : string :=
  match s with
  | EmptyString => EmptyString
  | String c s' => if is_space c then lstrip s' else s
  end.

(** [rstrip] keeps a character when it is not white space or when something
    that is kept follows it. *)
Fixpoint rstrip (s : string) : string :=
  match s with
  | EmptyString => EmptyString
  | String c s' =>
      match rstrip s' with
      | EmptyString => if is_space c then EmptyString else String c EmptyString
      | r => String c r
      end
  end.

(** [s.strip()] *)
Definition strip (s : string) : string := rstrip (lstrip s).

(** [s.split()]: maximal runs of non-space characters. [cur] is the word
    being read, most recent character first. *)
Fixpoint rev_string (acc s : string) : string :=
  match s with
  | EmptyString => acc
  | String c s' => rev_string (String c acc) s'
  end.

Fixpoint split_go (cur : string) (s : string) : list string :=
  match s with
  | EmptyString =>
      match cur with EmptyString => [] | _ => [rev_string EmptyString cur] end
  | String c s' =>
      if is_space c then
        match cur with
        | EmptyString => split_go EmptyString s'
        | _ => rev_string EmptyString cur :: split_go EmptyString s'
        end
      else split_go (String c cur) s'
  end.

Definition split (s : string) : list string := split_go EmptyString s.

(** [sub in s] for strings. *)
Fixpoint contains (sub s : string) : bool :=
  if String.prefix sub s then true
  else match s with
       | EmptyString => false
       | String _ s' => contains sub s'
       end.

(** [s.replace(old, new)] for a non-empty [old]: leftmost, non-overlapping
    occurrences.  [skip] counts the characters of an occurrence still to be
    dropped. *)
Fixpoint replace_go (old new : string) (skip : nat) (s : string) : string :=
  match s with
  | EmptyString => EmptyString
  | String c s' =>
      match skip with
      | S k => replace_go old new k s'
      | O =>
          if String.prefix old s
          then new ++ replace_go old new (String.length old - 1) s'
          else String c (replace_go old new O s')
      end
  end.

Definition replace (old new s : string) : string := replace_go old new O s.

(** [sep.join(l)] *)
Definition join (sep : string) (l : list string) : string := String.concat sep l.

(** [int(s)] on a string of ASCII digits. *)
Fixpoint int_go (acc : Z) (s : string) : Z :=
  match s with
  | EmptyString => acc
  | String c s' => int_go (10 * acc + Z.of_nat (nat_of_ascii c - 48)) s'
  end.

Definition int (s : string) : Z := int_go 0 s.

(** [str(n)] for an [int]: decimal digits, least significant first into
    [acc]; the binary length of [n] bounds their number. *)
Fixpoint str_digits (fuel : nat) (n : Z) (acc : string) : string :=
  match fuel with
  | O => acc
  | S fuel' =>
      let acc' := String (ascii_of_nat (48 + Z.to_nat (n mod 10))) acc in
      if (n / 10 =? 0)%Z then acc' else str_digits fuel' (n / 10) acc'
  end.

Definition str_int (n : Z) : string :=
  if (n <? 0)%Z
  then "-" ++ str_digits (S (Z.to_nat (Z.log2 (- n)))) (- n) ""
  else str_digits (S (Z.to_nat (Z.log2 n))) n "".

(** Truthiness of a [str] and of a [list]. *)
Definition truthy (s : string) : bool :=
  match s with EmptyString => false | _ => true end.

Definition nonempty {A} (l : list A) : bool :=
  match l with [] => false | _ => true end.

(** [l[:n]] for a Python [int] [n]: a negative [n] counts from the end. *)
Definition slice_to {A} (n : Z) (l : list A) : list A :=
  if (0 <=? n)%Z then firstn (Z.to_nat n) l
  else firstn (List.length l - Z.to_nat (- n)) l.

End Py.

(* ================================================================== *)
(** * The [re] module: a backtracking matcher *)
(* ================================================================== *)

Module Re.

Local Open Scope string_scope.

(** Members of a bracket expression, and the escapes [\s], [\w], [\d]. *)
Inductive cclass : Type :=
| CRange (lo hi : ascii)
| CChar (c : ascii)
| CSpace
| CWord
| CDigit.

Inductive regex : Type :=
| Eps
| Lit (c : ascii)
| Cls (cs : list cclass)
| WordB                                         (* \b *)
| Cat (r1 r2 : regex)
| Alt (r1 r2 : regex)                           (* r1|r2, r1 tried first *)
| Rep (lo : nat) (hi : option nat) (r : regex)  (* greedy r{lo,hi} *)
| Grp (i : nat) (r : regex).                    (* capturing group i *)

Definition in_cclass (c : ascii) (k : cclass) : bool :=
  match k with
  | CRange lo hi =>
      ((nat_of_ascii lo <=? nat_of_ascii c) &&
       (nat_of_ascii c <=? nat_of_ascii hi))%nat
  | CChar d => Ascii.eqb c d
  | CSpace => Py.is_space c
  | CWord => Py.is_word c
  | CDigit => Py.is_digit c
  end.

(** Matcher state: [pos] characters consumed, the character just before
    [pos], the text still to read and the spans captured so far. *)
Record mstate : Type := MState {
  pos : nat;
  prev : option ascii;
  rest : string;
  caps : list (nat * (nat * nat))
}.

Definition word_before (st : mstate) : bool :=
  match prev st with Some c => Py.is_word c | None => false end.

Definition word_after (st : mstate) : bool :=
  match rest st with String c _ => Py.is_word c | EmptyString => false end.

Definition advance (st : mstate) : option (ascii * mstate) :=
  match rest st with
  | EmptyString => None
  | String c s' => Some (c, MState (S (pos st)) (Some c) s' (caps st))
  end.

Definition opt_pred (hi : option nat) : option nat :=
  match hi with Some n => Some (Nat.pred n) | None => None end.

Definition exhausted (hi : option nat) : bool :=
  match hi with Some O => true | _ => false end.

(** [m r st k]: the first way, in backtracking order, of matching [r] at
    [st] such that the continuation [k] succeeds on what follows.  A greedy
    repetition tries one more iteration before it tries to stop; an iteration
    has to consume at least one character, which bounds the loop by the
    length of the remaining text. *)
Fixpoint m (r : regex) (st : mstate) (k : mstate -> option mstate)
  {struct r} : option mstate :=
  match r with
  | Eps => k st
  | Lit c =>
      match advance st with
      | Some (d, st') => if Ascii.eqb c d then k st' else None
      | None => None
      end
  | Cls cs =>
      match advance st with
      | Some (d, st') => if existsb (in_cclass d) cs then k st' else None
      | None => None
      end
  | WordB => if xorb (word_before st) (word_after st) then k st else None
  | Cat r1 r2 => m r1 st (fun st' => m r2 st' k)
  | Alt r1 r2 =>
      match m r1 st k with
      | Some res => Some res
      | None => m r2 st k
      end
  | Rep lo hi r1 =>
      (fix loop (fuel lo : nat) (hi : option nat) (st : mstate)
           {struct fuel} : option mstate :=
         let stop := match lo with O => k st | S _ => None end in
         match fuel with
         | O => stop
         | S fuel' =>
             if exhausted hi then stop
             else
               match m r1 st (fun st' =>
                        if (pos st <? pos st')%nat
                        then loop fuel' (Nat.pred lo) (opt_pred hi) st'
                        else None) with
               | Some res => Some res
               | None => stop
               end
         end) (String.length (rest st)) lo hi st
  | Grp i r1 =>
      m r1 st (fun st' =>
        k (MState (pos st') (prev st') (rest st')
                  ((i, (pos st, pos st')) :: caps st')))
  end.

(** A match: where it starts and the state at its end. *)
Definition found : Type := (nat * mstate)%type.

Definition span (f : found) : nat * nat := (fst f, pos (snd f)).

(** The scan of [re.search]: try every start from [p] on, leftmost first.
    With [must_advance], a match that ends at [origin] is refused (this is
    how [findall] and [sub] step over an empty match). *)
Fixpoint search_at (r : regex) (origin : nat) (must_advance : bool)
    (p : nat) (pv : option ascii) (s : string) : option found :=
  match m r (MState p pv s [])
          (fun st' => if must_advance && (pos st' =? origin)%nat
                      then None else Some st') with
  | Some st' => Some (p, st')
  | None =>
      match s with
      | EmptyString => None
      | String c s' => search_at r origin must_advance (S p) (Some c) s'
      end
  end.

(** [re.search(r, s)] *)
Definition search (r : regex) (s : string) : option found :=
  search_at r O false O None s.

(** All non-overlapping matches, left to right ([re.finditer]). *)
Fixpoint finditer_go (fuel : nat) (r : regex) (must_advance : bool)
    (p : nat) (pv : option ascii) (s : string) : list found :=
  match fuel with
  | O => []
  | S fuel' =>
      match search_at r p must_advance p pv s with
      | None => []
      | Some (start, st') =>
          (start, st') ::
          finditer_go fuel' r (pos st' =? start)%nat
                      (pos st') (prev st') (rest st')
      end
  end.

Definition finditer (r : regex) (s : string) : list found :=
  finditer_go (2 * String.length s + 2) r false O None s.

(** Text of group [i] of a match ([i = 0]: the whole match); an unset group
    reads as the empty string, as in [findall]. *)
Definition lookup_cap (i : nat) (cs : list (nat * (nat * nat)))
  : option (nat * nat) :=
  match find (fun c => (fst c =? i)%nat) cs with
  | Some c => Some (snd c)
  | None => None
  end.

Definition group (s : string) (f : found) (i : nat) : string :=
  match i with
  | O => String.substring (fst f) (pos (snd f) - fst f) s
  | _ =>
      match lookup_cap i (caps (snd f)) with
      | Some (a, b) => String.substring a (b - a) s
      | None => EmptyString
      end
  end.

(** [re.findall(r, s)] for a pattern with exactly one group. *)
Definition findall1 (r : regex) (s : string) : list string :=
  map (fun f => group s f 1) (finditer r s).

(** [re.sub(r, repl, s)] with a replacement free of back-references. *)
Fixpoint sub_build (repl s : string) (from : nat) (ms : list found) : string :=
  match ms with
  | [] => String.substring from (String.length s - from) s
  | f :: ms' =>
      String.substring from (fst f - from) s ++ repl ++
      sub_build repl s (pos (snd f)) ms'
  end.

Definition sub (r : regex) (repl s : string) : string :=
  sub_build repl s O (finditer r s).

(** Pattern builders. *)
Fixpoint lit (s : string) : regex :=
  match s with
  | EmptyString => Eps
  | String c s' => Cat (Lit c) (lit s')
  end.

Fixpoint cat (rs : list regex) : regex :=
  match rs with
  | [] => Eps
  | [r] => r
  | r :: rs' => Cat r (cat rs')
  end.

Fixpoint alt (rs : list regex) : regex :=
  match rs with
  | [] => Eps
  | [r] => r
  | r :: rs' => Alt r (alt rs')
  end.

Definition plus (r : regex) : regex := Rep 1 None r.
Definition star (r : regex) : regex := Rep 0 None r.
Definition opt (r : regex) : regex := Rep 0 (Some 1%nat) r.
Definition at_least (n : nat) (r : regex) : regex := Rep n None r.
Definition exactly (n : nat) (r : regex) : regex := Rep n (Some n) r.

Definition ws : regex := Cls [CSpace].       (* \s *)
Definition wd : regex := Cls [CWord].        (* \w *)
Definition dg : regex := Cls [CDigit].       (* \d *)

End Re.

(* ================================================================== *)
(** * Exceptions *)
(* ================================================================== *)

(** The outcome of a computation that may raise; [Raise] carries [str(e)]. *)
Inductive exn (A : Type) : Type :=
| Ok (a : A)
| Raise (msg : string).

Arguments Ok {A} a.
Arguments Raise {A} msg.

Definition bind {A B} (c : exn A) (f : A -> exn B) : exn B :=
  match c with
  | Ok a => f a
  | Raise msg => Raise msg
  end.

Notation "x <- c ;; k" := (bind c (fun x => k))
  (at level 61, c at next level, right associativity).

(* ================================================================== *)
(** * [datetime]: proleptic Gregorian dates in UTC *)
(* ================================================================== *)

Module DT.

Local Open Scope Z_scope.

Record datetime : Type := DateTime {
  year : Z;
  month : Z;
  day : Z;
  hour : Z;
  minute : Z;
  second : Z;
  microsecond : Z
}.

Definition MINYEAR : Z := 1.
Definition MAXYEAR : Z := 9999.
Definition MAXORDINAL : Z := 3652059.

Definition is_leap (y : Z) : bool :=
  (y mod 4 =? 0) && (negb (y mod 100 =? 0) || (y mod 400 =? 0)).

(** [_DAYS_IN_MONTH] and [_DAYS_BEFORE_MONTH], indexed by month. *)
Definition DAYS_IN_MONTH (mo : Z) : Z :=
  nth (Z.to_nat mo) [-1; 31; 28; 31; 30; 31; 30; 31; 31; 30; 31; 30; 31] 0.

Definition DAYS_BEFORE_MONTH (mo : Z) : Z :=
  nth (Z.to_nat mo)
      [-1; 0; 31; 59; 90; 120; 151; 181; 212; 243; 273; 304; 334] 0.

Definition days_before_year (y : Z) : Z :=
  let y1 := y - 1 in y1 * 365 + y1 / 4 - y1 / 100 + y1 / 400.

Definition days_in_month (y mo : Z) : Z :=
  if (mo =? 2) && is_leap y then 29 else DAYS_IN_MONTH mo.

Definition days_before_month (y mo : Z) : Z :=
  DAYS_BEFORE_MONTH mo + (if (2 <? mo) && is_leap y then 1 else 0).

Definition ymd2ord (y mo d : Z) : Z :=
  days_before_year y + days_before_month y mo + d.

Definition DI400Y : Z := 146097.
Definition DI100Y : Z := 36524.
Definition DI4Y : Z := 1461.

(** [_ord2ymd]: ordinal to (year, month, day), 0001-01-01 being day 1. *)
Definition ord2ymd (n0 : Z) : Z * Z * Z :=
  let n := n0 - 1 in
  let n400 := n / DI400Y in let n := n mod DI400Y in
  let y := n400 * 400 + 1 in
  let n100 := n / DI100Y in let n := n mod DI100Y in
  let n4 := n / DI4Y in let n := n mod DI4Y in
  let n1 := n / 365 in let n := n mod 365 in
  let y := y + n100 * 100 + n4 * 4 + n1 in
  if (n1 =? 4) || (n100 =? 4) then (y - 1, 12, 31)
  else
    let leapyear := (n1 =? 3) && (negb (n4 =? 24) || (n100 =? 3)) in
    let mo := Z.shiftr (n + 50) 5 in
    let preceding :=
      DAYS_BEFORE_MONTH mo + (if (2 <? mo) && leapyear then 1 else 0) in
    if n <? preceding then
      let mo' := mo - 1 in
      let preceding' :=
        preceding -
        (DAYS_IN_MONTH mo' + (if (mo' =? 2) && leapyear then 1 else 0)) in
      (y, mo', n - preceding' + 1)
    else (y, mo, n - preceding + 1).

(** [datetime(y, mo, d, tzinfo=timezone.utc)]; [ValueError] out of range. *)
Definition make (y mo d : Z) : exn datetime :=
  if negb ((MINYEAR <=? y) && (y <=? MAXYEAR)) then
    Raise ("year " ++ Py.str_int y ++ " is out of range")%string
  else if negb ((1 <=? mo) && (mo <=? 12)) then
    Raise "month must be in 1..12"
  else if negb ((1 <=? d) && (d <=? days_in_month y mo)) then
    Raise "day is out of range for month"
  else Ok (DateTime y mo d 0 0 0 0).

Definition toordinal (t : datetime) : Z := ymd2ord (year t) (month t) (day t).

(** [date.weekday()]: Monday is 0. *)
Definition weekday (t : datetime) : Z := (toordinal t + 6) mod 7.

(** [t - timedelta(days=n)]: the time of day is kept; [OverflowError] when
    the date leaves [0001-01-01 .. 9999-12-31]. *)
Definition sub_days (t : datetime) (n : Z) : exn datetime :=
  let o := toordinal t - n in
  if (0 <? o) && (o <=? MAXORDINAL) then
    let '(y, mo, d) := ord2ymd o in
    Ok (DateTime y mo d (hour t) (minute t) (second t) (microsecond t))
  else Raise "date value out of range".

(** [t.replace(hour=0, minute=0, second=0, microsecond=0)] *)
Definition midnight (t : datetime) : datetime :=
  DateTime (year t) (month t) (day t) 0 0 0 0.

(** [t.replace(hour=23, minute=59, second=59)]: microseconds are kept. *)
Definition last_second (t : datetime) : datetime :=
  DateTime (year t) (month t) (day t) 23 59 59 (microsecond t).

(** [t.replace(day=1)] *)
Definition first_of_month (t : datetime) : datetime :=
  DateTime (year t) (month t) 1 (hour t) (minute t) (second t) (microsecond t).

(** Comparison of two aware datetimes with the same offset ([_cmp]): the
    tuples of fields, lexicographically. *)
Fixpoint cmp_fields (a b : list Z) : comparison :=
  match a, b with
  | x :: a', y :: b' =>
      match x ?= y with
      | Eq => cmp_fields a' b'
      | c => c
      end
  | [], [] => Eq
  | [], _ :: _ => Lt
  | _ :: _, [] => Gt
  end.

Definition fields (t : datetime) : list Z :=
  [year t; month t; day t; hour t; minute t; second t; microsecond t].

Definition cmp (a b : datetime) : comparison :=
  cmp_fields (fields a) (fields b).

Definition lt (a b : datetime) : bool :=
  match cmp a b with Lt => true | _ => false end.
Definition gt (a b : datetime) : bool :=
  match cmp a b with Gt => true | _ => false end.
Definition le (a b : datetime) : bool :=
  match cmp a b with Gt => false | _ => true end.
Definition ge (a b : datetime) : bool :=
  match cmp a b with Lt => false | _ => true end.

(** What [datetime.now(timezone.utc)] can return. *)
Definition valid (t : datetime) : Prop :=
  MINYEAR <= year t <= MAXYEAR /\ 1 <= month t <= 12 /\
  1 <= day t <= days_in_month (year t) (month t) /\
  0 <= hour t < 24 /\ 0 <= minute t < 60 /\ 0 <= second t < 60 /\
  0 <= microsecond t < 1000000.

End DT.

Export DT(datetime).

(* ================================================================== *)
(** * Data model of the search workflow *)
(* ================================================================== *)

Local Open Scope string_scope.

(** [class SearchType(Enum)] *)
Inductive SearchType : Type := SEMANTIC | KEYWORD | HYBRID | FILTERED.

Definition SearchType_value (t : SearchType) : string :=
  match t with
  | SEMANTIC => "semantic"
  | KEYWORD => "keyword"
  | HYBRID => "hybrid"
  | FILTERED => "filtered"
  end.

(** [@dataclass SearchFilters] *)
Record SearchFilters : Type := mkFilters {
  sender_emails : list string;
  date_from : option datetime;
  date_to : option datetime;
  labels : list string;
  has_attachments : option bool;
  is_important : option bool;
  keywords : list string
}.

Definition no_filters : SearchFilters :=
  mkFilters [] None None [] None None [].

Definition add_sender (f : SearchFilters) (s : string) : SearchFilters :=
  mkFilters (sender_emails f ++ [s]) (date_from f) (date_to f) (labels f)
            (has_attachments f) (is_important f) (keywords f).

Definition add_keywords (f : SearchFilters) (ks : list string) : SearchFilters :=
  mkFilters (sender_emails f) (date_from f) (date_to f) (labels f)
            (has_attachments f) (is_important f) (keywords f ++ ks).

Definition set_dates (f : SearchFilters) (a b : datetime) : SearchFilters :=
  mkFilters (sender_emails f) (Some a) (Some b) (labels f)
            (has_attachments f) (is_important f) (keywords f).

Definition add_label (f : SearchFilters) (l : string) : SearchFilters :=
  mkFilters (sender_emails f) (date_from f) (date_to f) (labels f ++ [l])
            (has_attachments f) (is_important f) (keywords f).

Definition set_has_attachments (f : SearchFilters) (b : bool) : SearchFilters :=
  mkFilters (sender_emails f) (date_from f) (date_to f) (labels f)
            (Some b) (is_important f) (keywords f).

Definition set_is_important (f : SearchFilters) (b : bool) : SearchFilters :=
  mkFilters (sender_emails f) (date_from f) (date_to f) (labels f)
            (has_attachments f) (Some b) (keywords f).

(** [@dataclass SearchResult] *)
Record SearchResult : Type := mkResult {
  message_id : Z;
  external_message_id : string;
  subject : string;
  snippet : string;
  sender_email : string;
  sender_name : string;
  date_sent : datetime;
  relevance_score : Q;
  search_type : string;
  result_labels : list string;
  result_has_attachments : bool
}.

Definition set_search_type (r : SearchResult) (t : string) : SearchResult :=
  mkResult (message_id r) (external_message_id r) (subject r) (snippet r)
           (sender_email r) (sender_name r) (date_sent r) (relevance_score r)
           t (result_labels r) (result_has_attachments r).

Definition set_relevance_score (r : SearchResult) (q : Q) : SearchResult :=
  mkResult (message_id r) (external_message_id r) (subject r) (snippet r)
           (sender_email r) (sender_name r) (date_sent r) q
           (search_type r) (result_labels r) (result_has_attachments r).

(** [@dataclass SearchState] *)
Record SearchState : Type := mkState {
  query : string;
  account_id : Z;
  max_results : Z;
  state_search_type : SearchType;
  filters : SearchFilters;
  cleaned_query : string;
  query_vector : list Q;
  keyword_results : list SearchResult;
  semantic_results : list SearchResult;
  final_results : list SearchResult;
  total_keyword_matches : nat;
  total_semantic_matches : nat;
  total_final_results : nat;
  processing_time : Q;
  errors : list string;
  start_time : Q
}.

(** [SearchState(query=..., account_id=..., max_results=...)] *)
Definition initial_state (q : string) (acct maxr : Z) (t0 : Q) : SearchState :=
  mkState q acct maxr HYBRID no_filters "" [] [] [] [] 0 0 0 0 [] t0.

(** [state.errors.append(msg)] *)
Definition append_error (s : SearchState) (msg : string) : SearchState :=
  mkState (query s) (account_id s) (max_results s) (state_search_type s)
          (filters s) (cleaned_query s) (query_vector s) (keyword_results s)
          (semantic_results s) (final_results s) (total_keyword_matches s)
          (total_semantic_matches s) (total_final_results s)
          (processing_time s) (errors s ++ [msg]) (start_time s).

Definition set_parsed (s : SearchState) (f : SearchFilters) (cq : string)
    (t : SearchType) : SearchState :=
  mkState (query s) (account_id s) (max_results s) t f cq (query_vector s)
          (keyword_results s) (semantic_results s) (final_results s)
          (total_keyword_matches s) (total_semantic_matches s)
          (total_final_results s) (processing_time s) (errors s)
          (start_time s).

Definition set_query_vector (s : SearchState) (v : list Q) : SearchState :=
  mkState (query s) (account_id s) (max_results s) (state_search_type s)
          (filters s) (cleaned_query s) v (keyword_results s)
          (semantic_results s) (final_results s) (total_keyword_matches s)
          (total_semantic_matches s) (total_final_results s)
          (processing_time s) (errors s) (start_time s).

Definition set_keyword_results (s : SearchState) (rs : list SearchResult)
    (n : nat) : SearchState :=
  mkState (query s) (account_id s) (max_results s) (state_search_type s)
          (filters s) (cleaned_query s) (query_vector s) rs
          (semantic_results s) (final_results s) n
          (total_semantic_matches s) (total_final_results s)
          (processing_time s) (errors s) (start_time s).

Definition set_semantic_results (s : SearchState) (rs : list SearchResult)
    (n : nat) : SearchState :=
  mkState (query s) (account_id s) (max_results s) (state_search_type s)
          (filters s) (cleaned_query s) (query_vector s) (keyword_results s)
          rs (final_results s) (total_keyword_matches s) n
          (total_final_results s) (processing_time s) (errors s)
          (start_time s).

Definition set_final_results (s : SearchState) (rs : list SearchResult)
  : SearchState :=
  mkState (query s) (account_id s) (max_results s) (state_search_type s)
          (filters s) (cleaned_query s) (query_vector s) (keyword_results s)
          (semantic_results s) rs (total_keyword_matches s)
          (total_semantic_matches s) (total_final_results s)
          (processing_time s) (errors s) (start_time s).

Definition set_final_stats (s : SearchState) (t : Q) (n : nat) : SearchState :=
  mkState (query s) (account_id s) (max_results s) (state_search_type s)
          (filters s) (cleaned_query s) (query_vector s) (keyword_results s)
          (semantic_results s) (final_results s) (total_keyword_matches s)
          (total_semantic_matches s) n t (errors s) (start_time s).

(* ================================================================== *)
(** * [_parse_query] *)
(* ================================================================== *)

Module Parser.

Import Re.

(** [[a-zA-Z0-9._%+-]+@[a-zA-Z0-9.-]+\.[a-zA-Z]{2,}] *)
Definition email_re : regex :=
  cat [ plus (Cls [CRange "a" "z"; CRange "A" "Z"; CRange "0" "9";
                   CChar "."; CChar "_"; CChar "%"; CChar "+"; CChar "-"]);
        Lit "@";
        plus (Cls [CRange "a" "z"; CRange "A" "Z"; CRange "0" "9";
                   CChar "."; CChar "-"]);
        Lit ".";
        at_least 2 (Cls [CRange "a" "z"; CRange "A" "Z"]) ].

(** [r'from\s+'] *)
Definition from_ws : regex := Cat (lit "from") (plus ws).

Definition sender_patterns : list regex :=
  [ Cat from_ws (Grp 1 email_re);                       (* from email@domain.com *)
    Cat from_ws (Grp 1 (plus wd));                      (* from john *)
    cat [lit "sender"; opt (Lit ":"); star ws; Grp 1 email_re] ].

(** Body of [for match in matches]. *)
Definition sender_match (pattern : regex) (acc : SearchFilters * string)
    (mt : string) : SearchFilters * string :=
  let '(f, q) := acc in
  if Py.contains "@" mt
  then (add_sender f mt, sub pattern "" q)
  else (add_keywords f [mt], sub (Cat from_ws (lit mt)) "" q).

(** Body of [for pattern in sender_patterns]. *)
Definition sender_pattern (acc : SearchFilters * string) (pattern : regex)
  : SearchFilters * string :=
  fold_left (sender_match pattern) (findall1 pattern (snd acc)) acc.

Definition extract_senders (acc : SearchFilters * string)
  : SearchFilters * string :=
  fold_left sender_pattern sender_patterns acc.

(** [r'\bw1\b'] and [r'\bw1\s+w2\b'] *)
Definition word1 (w : string) : regex := cat [WordB; lit w; WordB].
Definition word2 (w1 w2 : string) : regex :=
  cat [WordB; lit w1; plus ws; lit w2; WordB].

(** The [date_patterns] dictionary, in insertion order.  All its values are
    computed when the dictionary is built, whatever the query. *)
Definition date_patterns (today : datetime)
  : exn (list (regex * (datetime * datetime))) :=
  yesterday <- DT.sub_days today 1 ;;
  last_week <- DT.sub_days today (7 * 1) ;;
  this_week <- DT.sub_days today (DT.weekday today) ;;
  last_month <- DT.sub_days today 30 ;;
  last_year <- DT.sub_days today 365 ;;
  Ok [ (word1 "today", (DT.midnight today, today));
       (word1 "yesterday", (DT.midnight yesterday, DT.last_second yesterday));
       (word2 "last" "week", (last_week, today));
       (word2 "this" "week", (this_week, today));
       (word2 "last" "month", (last_month, today));
       (word2 "this" "month", (DT.first_of_month today, today));
       (word2 "last" "year", (last_year, today)) ].

(** [for pattern, (date_from, date_to) in date_patterns.items(): ... break] *)
Fixpoint extract_relative_date (pats : list (regex * (datetime * datetime)))
    (acc : SearchFilters * string) : SearchFilters * string :=
  match pats with
  | [] => acc
  | (p, (a, b)) :: pats' =>
      match search p (snd acc) with
      | Some _ => (set_dates (fst acc) a b, sub p "" (snd acc))
      | None => extract_relative_date pats' acc
      end
  end.

Definition month_table : list (string * Z) :=
  [ ("january", 1); ("february", 2); ("march", 3); ("april", 4);
    ("may", 5); ("june", 6); ("july", 7); ("august", 8);
    ("september", 9); ("october", 10); ("november", 11); ("december", 12) ]%Z.

(** [r'\b(january|...|december)\s+(\d{4})\b'] *)
Definition month_year_re : regex :=
  cat [ WordB; Grp 1 (alt (map (fun e => lit (fst e)) month_table));
        plus ws; Grp 2 (exactly 4 dg); WordB ].

Definition month_num (name : string) : exn Z :=
  match find (fun e => String.eqb (fst e) name) month_table with
  | Some e => Ok (snd e)
  | None => Raise name
  end.

Definition extract_month_year (acc : SearchFilters * string)
  : exn (SearchFilters * string) :=
  let '(f, q) := acc in
  match search month_year_re q with
  | None => Ok (f, q)
  | Some mm =>
      let month_name := group q mm 1 in
      let yr := Py.int (group q mm 2) in
      mo <- month_num month_name ;;
      a <- DT.make yr mo 1 ;;
      b <- (if (mo =? 12)%Z then DT.make (yr + 1) 1 1
            else DT.make yr (mo + 1) 1) ;;
      Ok (set_dates f a b, sub (lit (group q mm 0)) "" q)
  end.

Definition extract_flags (acc : SearchFilters * string)
  : SearchFilters * string :=
  let '(f, q) := acc in
  let '(f, q) :=
    if Py.contains "important" q
    then (set_is_important f true, Py.replace "important" "" q)
    else (f, q) in
  if Py.contains "attachment" q
  then (set_has_attachments f true,
        Py.replace "attachments" "" (Py.replace "attachment" "" q))
  else (f, q).

Definition label_patterns : list (regex * string) :=
  [ (word1 "inbox", "INBOX"); (word1 "sent", "SENT");
    (word1 "draft", "DRAFT"); (word1 "spam", "SPAM");
    (word1 "trash", "TRASH") ].

Definition label_step (acc : SearchFilters * string) (pl : regex * string)
  : SearchFilters * string :=
  match search (fst pl) (snd acc) with
  | Some _ => (add_label (fst acc) (snd pl), sub (fst pl) "" (snd acc))
  | None => acc
  end.

Definition extract_labels (acc : SearchFilters * string)
  : SearchFilters * string :=
  fold_left label_step label_patterns acc.

(** [r'\b(about|regarding|re:|fw:)\b'] *)
Definition connector_re : regex :=
  cat [ WordB;
        Grp 1 (alt [lit "about"; lit "regarding"; lit "re:"; lit "fw:"]);
        WordB ].

Definition clean_up (q : string) : string :=
  let q := Py.strip (sub (plus ws) " " q) in
  Py.strip (sub connector_re "" q).

(** [[word.strip() for word in query.split() if len(word.strip()) > 2]] *)
Definition remaining_keywords (q : string) : list string :=
  if Py.truthy q then
    map Py.strip
        (filter (fun w => (2 <? String.length (Py.strip w))%nat) (Py.split q))
  else [].

Definition choose_search_type (f : SearchFilters) (cq : string) : SearchType :=
  if Py.truthy cq && (3 <? String.length cq)%nat then
    if Py.nonempty (sender_emails f) ||
       (match date_from f with Some _ => true | None => false end) ||
       Py.nonempty (labels f)
    then FILTERED else HYBRID
  else KEYWORD.

(** The text of the query on its way through the extraction passes that do
    not read the clock. *)
Definition after_senders (q : string) : SearchFilters * string :=
  extract_senders (no_filters, Py.strip (Py.lower q)).

(** The [try] block: filters, cleaned query and search type, or the
    exception that leaves the block. *)
Definition parse_body (today : datetime) (q : string)
  : exn (SearchFilters * string * SearchType) :=
  let acc := after_senders q in
  pats <- date_patterns today ;;
  let acc := extract_relative_date pats acc in
  acc <- extract_month_year acc ;;
  let acc := extract_flags acc in
  let '(f, q) := extract_labels acc in
  let q := clean_up q in
  let f := add_keywords f (remaining_keywords q) in
  let cq := if Py.nonempty (keywords f) then Py.join " " (keywords f) else q in
  Ok (f, cq, choose_search_type f cq).

(** [_parse_query]: [today] is the reading of [datetime.now(timezone.utc)]. *)
Definition parse_query (today : datetime) (s : SearchState) : SearchState :=
  match parse_body today (query s) with
  | Ok (f, cq, t) => set_parsed s f cq t
  | Raise e => append_error s ("Failed to parse query: " ++ e)
  end.

End Parser.

(* ================================================================== *)
(** * External collaborators *)
(* ================================================================== *)

(** A row of [SELECT id, external_message_id, subject, snippet,
    sender_email, sender_name, date_sent, labels, has_attachments]; the
    nullable columns are options. *)
Record Row : Type := mkRow {
  row_id : Z;
  row_external_message_id : string;
  row_subject : option string;
  row_snippet : option string;
  row_sender_email : string;
  row_sender_name : option string;
  row_date_sent : datetime;
  row_labels : option (list string);
  row_has_attachments : option bool
}.

(** [EmbeddingResult], the fields the workflow reads. *)
Record EmbeddingResult : Type := mkEmbedding {
  emb_success : bool;
  emb_vector : list Q;
  emb_error_message : string
}.

(** [VectorSearchResult], the fields the workflow reads. *)
Record VectorSearchResult : Type := mkVector {
  vec_message_id : Z;
  vec_external_message_id : string;
  vec_score : Q;
  vec_subject : string;
  vec_snippet : string;
  vec_sender_email : string;
  vec_date_sent : string
}.

(** Everything a search call takes from outside the workflow: the message
    store behind [psycopg2], the two services built by [__init__] ([None]
    when their construction failed), the library's ISO date parser and the
    clocks.  A collaborator that raises returns [Raise]. *)
Record Env : Type := mkEnv {
  (** rows of the account matching any of the terms, newest first, at most
      [limit] of them *)
  db_query : Z -> list string -> Z -> exn (list Row);
  embedding_service : option (string -> exn EmbeddingResult);
  (** [search_similar_vectors(query_vector, limit, score_threshold)] *)
  qdrant_service : option (list Q -> Z -> Q -> exn (list VectorSearchResult));
  fromisoformat : string -> exn datetime;
  (** [datetime.now(timezone.utc)] in [_parse_query] *)
  utcnow : datetime;
  (** [datetime.now(timezone.utc)] for the hit at a given index *)
  utcnow_hit : nat -> datetime;
  (** [time.time()] when the state is built and in [_finalize_results] *)
  time_start : Q;
  time_end : Q
}.

(* ================================================================== *)
(** * The stages of the workflow *)
(* ================================================================== *)

Module Workflow.

Local Open Scope Q_scope.

(** ** Ordering by relevance *)

(** [sorted(l, key=lambda x: x.relevance_score, reverse=True)]: stable,
    an element stays ahead of the later ones with the same score. *)
Fixpoint insert_desc (x : SearchResult) (l : list SearchResult)
  : list SearchResult :=
  match l with
  | [] => [x]
  | y :: l' =>
      if Qle_bool (relevance_score y) (relevance_score x)
      then x :: y :: l'
      else y :: insert_desc x l'
  end.

Definition sort_desc (l : list SearchResult) : list SearchResult :=
  fold_right insert_desc [] l.

(** ** [_generate_query_vector] *)

Definition wants_vector (t : SearchType) : bool :=
  match t with SEMANTIC | HYBRID | FILTERED => true | KEYWORD => false end.

Definition generate_query_vector (env : Env) (s : SearchState) : SearchState :=
  if wants_vector (state_search_type s) then
    match Py.truthy (cleaned_query s), embedding_service env with
    | true, Some generate_single_embedding =>
        match generate_single_embedding (cleaned_query s) with
        | Ok result =>
            if emb_success result
            then set_query_vector s (emb_vector result)
            else append_error s ("Failed to generate vector: " ++
                                 emb_error_message result)
        | Raise e => append_error s ("Vector generation error: " ++ e)
        end
    | _, _ => s
    end
  else s.

(** ** [_calculate_keyword_score] *)

Definition none_to_empty (o : option string) : string :=
  match o with Some s => s | None => "" end.

Definition term_score (subject_text snippet_text : string) (score : Q)
    (term : string) : Q :=
  let term_lower := Py.lower term in
  let score :=
    if Py.contains term_lower subject_text then score + 2 else score in
  if Py.contains term_lower snippet_text then score + 1 else score.

Definition calculate_keyword_score (subj snip : option string)
    (search_terms : list string) : Q :=
  if Py.nonempty search_terms then
    let subject_text := Py.lower (none_to_empty subj) in
    let snippet_text := Py.lower (none_to_empty snip) in
    fold_left (term_score subject_text snippet_text) search_terms 0 /
    inject_Z (Z.of_nat (List.length search_terms))
  else 0.

(** ** [_keyword_search] *)

Definition row_to_result (search_terms : list string) (row : Row)
  : SearchResult :=
  mkResult (row_id row) (row_external_message_id row)
           (none_to_empty (row_subject row))
           (none_to_empty (row_snippet row))
           (row_sender_email row)
           (none_to_empty (row_sender_name row))
           (row_date_sent row)
           (calculate_keyword_score (row_subject row) (row_snippet row)
                                    search_terms)
           "keyword"
           (match row_labels row with
            | Some (x :: l) => x :: l
            | _ => []
            end)
           (match row_has_attachments row with
            | Some b => b
            | None => false
            end).

(** The [try] block up to the assignment of the results. *)
Definition keyword_search_body (env : Env) (s : SearchState)
  : exn (list SearchResult) :=
  if Py.truthy (cleaned_query s) || Py.nonempty (keywords (filters s)) then
    let search_terms :=
      if Py.nonempty (keywords (filters s)) then keywords (filters s)
      else [cleaned_query s] in
    rows <- db_query env (account_id s) search_terms (max_results s) ;;
    Ok (map (row_to_result search_terms) rows)
  else Ok [].

Definition keyword_search (env : Env) (s : SearchState) : SearchState :=
  match keyword_search_body env s with
  | Ok rs => set_keyword_results s (sort_desc rs) (List.length rs)
  | Raise e => append_error s ("Keyword search failed: " ++ e)
  end.

(** ** [_semantic_search] *)

Definition vector_to_result (env : Env) (i : nat) (v : VectorSearchResult)
  : exn SearchResult :=
  d <- (if Py.truthy (vec_date_sent v) then fromisoformat env (vec_date_sent v)
        else Ok (utcnow_hit env i)) ;;
  Ok (mkResult (vec_message_id v) (vec_external_message_id v)
               (vec_subject v) (vec_snippet v) (vec_sender_email v) ""
               d (vec_score v) "semantic" [] false).

Fixpoint convert_hits (env : Env) (i : nat) (vs : list VectorSearchResult)
  : exn (list SearchResult) :=
  match vs with
  | [] => Ok []
  | v :: vs' =>
      r <- vector_to_result env i v ;;
      rs <- convert_hits env (S i) vs' ;;
      Ok (r :: rs)
  end.

(** The [try] block: [None] when the search is skipped, otherwise the
    converted hits or the exception. *)
Definition semantic_search_body (env : Env) (s : SearchState)
  : option (exn (list SearchResult)) :=
  match Py.nonempty (query_vector s), qdrant_service env with
  | true, Some search_similar_vectors =>
      Some (vector_results <-
              search_similar_vectors (query_vector s) (max_results s) (3 # 10) ;;
            convert_hits env 0 vector_results)
  | _, _ => None
  end.

Definition semantic_search (env : Env) (s : SearchState) : SearchState :=
  match semantic_search_body env s with
  | Some (Ok rs) => set_semantic_results s rs (List.length rs)
  | Some (Raise e) => append_error s ("Semantic search failed: " ++ e)
  | None => s
  end.

(** ** [_fuse_results] *)

(** The dictionary [combined_results]: message id to result, in insertion
    order, which is the order of [values()]. *)
Definition dict : Type := list (Z * SearchResult).

Fixpoint dict_get (k : Z) (d : dict) : option SearchResult :=
  match d with
  | [] => None
  | (k', v) :: d' => if (k =? k')%Z then Some v else dict_get k d'
  end.

(** [d[k] = v]: an existing key keeps its place, a new one goes last. *)
Fixpoint dict_set (k : Z) (v : SearchResult) (d : dict) : dict :=
  match d with
  | [] => [(k, v)]
  | (k', v') :: d' =>
      if (k =? k')%Z then (k, v) :: d' else (k', v') :: dict_set k v d'
  end.

Definition dict_values (d : dict) : list SearchResult := map snd d.

(** [max(a, b)]: [b] only when it is strictly greater. *)
Definition py_max (a b : Q) : Q := if Qle_bool b a then a else b.

(** Body of [for result in state.keyword_results]. *)
Definition fuse_keyword (combined_results : dict) (result : SearchResult)
  : dict :=
  let key := message_id result in
  match dict_get key combined_results with
  | None => dict_set key (set_search_type result "keyword") combined_results
  | Some cur =>
      dict_set key
        (set_search_type
           (set_relevance_score cur
              (py_max (relevance_score cur) (relevance_score result)))
           "hybrid")
        combined_results
  end.

(** Body of [for result in state.semantic_results]. *)
Definition fuse_semantic (combined_results : dict) (result : SearchResult)
  : dict :=
  let key := message_id result in
  match dict_get key combined_results with
  | None => dict_set key (set_search_type result "semantic") combined_results
  | Some cur =>
      let keyword_score := relevance_score cur in
      let semantic_score := relevance_score result in
      let combined_score :=
        (semantic_score * (6 # 10)) + (keyword_score * (4 # 10)) in
      dict_set key
        (set_search_type (set_relevance_score cur combined_score) "hybrid")
        combined_results
  end.

Definition combine_results (kw sem : list SearchResult) : dict :=
  fold_left fuse_semantic sem (fold_left fuse_keyword kw []).

(** The fused list as a function of the two result lists and the cap. *)
Definition fuse (kw sem : list SearchResult) (cap : Z) : list SearchResult :=
  Py.slice_to cap (sort_desc (dict_values (combine_results kw sem))).

Definition fuse_results (s : SearchState) : SearchState :=
  set_final_results s
    (fuse (keyword_results s) (semantic_results s) (max_results s)).

(** ** [_apply_filters] *)

(** [x in l] for a list of strings. *)
Definition mem (x : string) (l : list string) : bool :=
  existsb (String.eqb x) l.

(** One turn of the loop: [false] when a [continue] is taken, [true] when
    the result reaches [filtered_results.append]. *)
Definition keep (f : SearchFilters) (result : SearchResult) : bool :=
  if Py.nonempty (sender_emails f) &&
     negb (existsb (fun sender =>
                      Py.contains sender (Py.lower (sender_email result)))
                   (sender_emails f))
  then false
  else if match date_from f with
          | Some d => DT.lt (date_sent result) d
          | None => false
          end
  then false
  else if match date_to f with
          | Some d => DT.gt (date_sent result) d
          | None => false
          end
  then false
  else if match is_important f with
          | Some b =>
              let has_important := mem "IMPORTANT" (result_labels result) in
              negb (Bool.eqb b has_important)
          | None => false
          end
  then false
  else if match has_attachments f with
          | Some b => negb (Bool.eqb b (result_has_attachments result))
          | None => false
          end
  then false
  else if Py.nonempty (labels f) &&
          negb (existsb (fun label => mem label (result_labels result))
                        (labels f))
  then false
  else true.

Fixpoint filter_loop (f : SearchFilters) (results filtered : list SearchResult)
  : list SearchResult :=
  match results with
  | [] => filtered
  | result :: results' =>
      filter_loop f results'
                  (if keep f result then filtered ++ [result] else filtered)
  end.

(** The filtered list as a function of the filters and the fused list. *)
Definition post_filter (f : SearchFilters) (results : list SearchResult)
  : list SearchResult :=
  filter_loop f results [].

Definition apply_filters (s : SearchState) : SearchState :=
  set_final_results s (post_filter (filters s) (final_results s)).

(** ** [_finalize_results] *)

Definition finalize_results (env : Env) (s : SearchState) : SearchState :=
  set_final_stats s (time_end env - start_time s)
                  (List.length (final_results s)).

(** ** [search_emails] *)

(** [round(x, 3)], half to even. *)
Definition round3 (x : Q) : Q :=
  let a := (Qnum x * 1000)%Z in
  let d := Zpos (Qden x) in
  let fl := (a / d)%Z in
  let r := (a mod d)%Z in
  let n := if (2 * r <? d)%Z then fl
           else if (d <? 2 * r)%Z then (fl + 1)%Z
           else if Z.even fl then fl else (fl + 1)%Z in
  n # 1000.

(** Zero-padded decimal of width [w]. *)
Fixpoint digits (w : nat) (n : Z) : string :=
  match w with
  | O => ""
  | S w' =>
      digits w' (n / 10) ++
      String (ascii_of_nat (48 + Z.to_nat (n mod 10))) ""
  end.

(** [t.isoformat()] of an aware datetime in UTC. *)
Definition isoformat (t : datetime) : string :=
  (digits 4 (DT.year t) ++ "-" ++ digits 2 (DT.month t) ++ "-" ++
   digits 2 (DT.day t) ++ "T" ++ digits 2 (DT.hour t) ++ ":" ++
   digits 2 (DT.minute t) ++ ":" ++ digits 2 (DT.second t) ++
   (if (DT.microsecond t =? 0)%Z then ""
    else "." ++ digits 6 (DT.microsecond t)) ++ "+00:00")%string.

(** One element of the ['results'] list of the report. *)
Record ResultItem : Type := mkItem {
  item_message_id : Z;
  item_external_message_id : string;
  item_subject : string;
  item_snippet : string;
  item_sender_email : string;
  item_sender_name : string;
  item_date_sent : string;
  item_relevance_score : Q;
  item_search_type : string;
  item_has_attachments : bool
}.

Definition to_item (result : SearchResult) : ResultItem :=
  mkItem (message_id result) (external_message_id result) (subject result)
         (snippet result) (sender_email result) (sender_name result)
         (isoformat (date_sent result))
         (round3 (relevance_score result))
         (search_type result) (result_has_attachments result).

(** The dictionary returned by [search_emails]. *)
Record Report : Type := mkReport {
  success : bool;
  report_query : string;
  report_search_type : string;
  total_results : nat;
  results : list ResultItem;
  report_processing_time : Q;
  stat_keyword_matches : nat;
  stat_semantic_matches : nat;
  stat_final_results : nat;
  report_errors : list string
}.

(** The compiled graph: the seven nodes along its only path. *)
Definition invoke (env : Env) (s : SearchState) : SearchState :=
  finalize_results env
    (apply_filters
       (fuse_results
          (semantic_search env
             (keyword_search env
                (generate_query_vector env
                   (Parser.parse_query (utcnow env) s)))))).

Definition search_emails (env : Env) (q : string) (acct maxr : Z) : Report :=
  let final_state := invoke env (initial_state q acct maxr (time_start env)) in
  let results := map to_item (final_results final_state) in
  mkReport (Nat.eqb (List.length (errors final_state)) 0)
           q
           (SearchType_value (state_search_type final_state))
           (List.length results)
           results
           (round3 (processing_time final_state))
           (total_keyword_matches final_state)
           (total_semantic_matches final_state)
           (total_final_results final_state)
           (errors final_state).

End Workflow.

(* ================================================================== *)
(** * The two services behind the workflow *)
(* ================================================================== *)

(** [EmbeddingService] ([embedding_service.py]) and [QdrantService]
    ([qdrant_service.py]), the methods the workflow calls.  The embedding
    model, the Qdrant client and the join query are parameters. *)
Module Services.

(** [EmbeddingService._clean_text] *)
Definition clean_text (text : string) : string :=
  if negb (Py.truthy text) then ""
  else
    let cleaned := Py.join " " (Py.split text) in
    let max_chars := 2000%nat in
    if (max_chars <? String.length cleaned)%nat
    then (String.substring 0 max_chars cleaned ++ "...")%string
    else cleaned.

(** [EmbeddingService.generate_single_embedding]; [gemini] stands for
    [_generate_gemini_embedding].  The error message of a successful result
    is [None], never read by the workflow, and is the empty string here. *)
Definition generate_single_embedding (gemini : string -> exn (list Q))
    (text : string) : EmbeddingResult :=
  let cleaned_text := clean_text text in
  if negb (Py.truthy (Py.strip cleaned_text)) then
    mkEmbedding false [] "Empty text after cleaning"
  else
    match gemini cleaned_text with
    | Ok embedding_vector => mkEmbedding true embedding_vector ""
    | Raise e =>
        mkEmbedding false [] ("Failed to generate embedding: " ++ e)%string
    end.

(** A hit of [client.search]: point id and similarity score. *)
Record Hit : Type := mkHit {
  hit_id : string;
  hit_score : Q
}.

(** The row of the join of [message_embeddings] with [email_messages]:
    [em.id, em.external_message_id, em.subject, em.snippet,
    em.sender_email, em.date_sent]. *)
Record JoinRow : Type := mkJoinRow {
  join_message_id : Z;
  join_external_message_id : string;
  join_subject : option string;
  join_snippet : option string;
  join_sender_email : string;
  join_date_sent : option datetime
}.

(** The dictionary returned by [_get_email_data_by_vector_id]. *)
Record EmailData : Type := mkEmailData {
  data_message_id : Z;
  data_external_message_id : string;
  data_subject : string;
  data_snippet : string;
  data_sender_email : string;
  data_date_sent : string
}.

(** [QdrantService._get_email_data_by_vector_id]; [fetch] runs the join for
    a vector id and gives [fetchone()]. *)
Definition get_email_data_by_vector_id
    (fetch : string -> exn (option JoinRow)) (vector_id : string)
  : option EmailData :=
  match fetch vector_id with
  | Ok (Some row) =>
      Some (mkEmailData
              (join_message_id row) (join_external_message_id row)
              (Workflow.none_to_empty (join_subject row))
              (Workflow.none_to_empty (join_snippet row))
              (join_sender_email row)
              (match join_date_sent row with
               | Some d => Workflow.isoformat d
               | None => ""
               end))
  | Ok None => None
  | Raise _ => None
  end.

(** Body of [for hit in search_results]. *)
Definition hit_to_result (fetch : string -> exn (option JoinRow))
    (results : list VectorSearchResult) (hit : Hit)
  : list VectorSearchResult :=
  match get_email_data_by_vector_id fetch (hit_id hit) with
  | Some email_data =>
      results ++
      [mkVector (data_message_id email_data)
                (data_external_message_id email_data)
                (hit_score hit)
                (data_subject email_data) (data_snippet email_data)
                (data_sender_email email_data) (data_date_sent email_data)]
  | None => results
  end.

(** [QdrantService.search_similar_vectors] without a metadata filter, as
    the workflow calls it; [client_search] is [self.client.search]. *)
Definition search_similar_vectors
    (client_search : list Q -> Z -> Q -> exn (list Hit))
    (fetch : string -> exn (option JoinRow))
    (query_vector : list Q) (limit : Z) (score_threshold : Q)
  : list VectorSearchResult :=
  match client_search query_vector limit score_threshold with
  | Ok search_results => fold_left (hit_to_result fetch) search_results []
  | Raise _ => []
  end.

(** The workflow's environment with the two services of the repository
    plugged in. *)
Definition with_services (env : Env)
    (gemini : string -> exn (list Q))
    (client_search : list Q -> Z -> Q -> exn (list Hit))
    (fetch : string -> exn (option JoinRow)) : Env :=
  mkEnv (db_query env)
        (Some (fun text => Ok (generate_single_embedding gemini text)))
        (Some (fun v limit threshold =>
                 Ok (search_similar_vectors client_search fetch
                                            v limit threshold)))
        (fromisoformat env) (utcnow env) (utcnow_hit env)
        (time_start env) (time_end env).

End Services.

Import Workflow.
Local Open Scope list_scope.

(* ================================================================== *)
(** * Reference predicates and sample data *)
(* ================================================================== *)

(** [l1] is [l2] with some elements left out, the others in place. *)
Inductive subseq {A : Type} : list A -> list A -> Prop :=
| subseq_nil : subseq [] []
| subseq_skip : forall x l1 l2, subseq l1 l2 -> subseq l1 (x :: l2)
| subseq_keep : forall x l1 l2, subseq l1 l2 -> subseq (x :: l1) (x :: l2).

(** The predicates of the post-filter as the specification words them,
    over a test [sender_ok configured email] for the sender clause. *)
Definition satisfies_with (sender_ok : string -> string -> Prop)
    (f : SearchFilters) (r : SearchResult) : Prop :=
  (sender_emails f = [] \/
   exists s, In s (sender_emails f) /\ sender_ok s (sender_email r)) /\
  (forall d, date_from f = Some d -> DT.ge (date_sent r) d = true) /\
  (forall d, date_to f = Some d -> DT.le (date_sent r) d = true) /\
  (forall b, is_important f = Some b ->
             (In "IMPORTANT" (result_labels r) <-> b = true)) /\
  (forall b, has_attachments f = Some b -> result_has_attachments r = b) /\
  (labels f = [] \/
   exists l, In l (labels f) /\ In l (result_labels r)).

(** Substring test that ignores case on both sides. *)
Definition ci_substring (configured email : string) : Prop :=
  Py.contains (Py.lower configured) (Py.lower email) = true.

(** Substring test against the lower-cased address only. *)
Definition lowered_substring (configured email : string) : Prop :=
  Py.contains configured (Py.lower email) = true.

Definition satisfies_claimed : SearchFilters -> SearchResult -> Prop :=
  satisfies_with ci_substring.

Definition satisfies : SearchFilters -> SearchResult -> Prop :=
  satisfies_with lowered_substring.

(** Sample data. *)
Definition sample_date : datetime := DT.DateTime 2026 11 3 10 20 30 0.

Definition sample_result (id : Z) (score : Q) (tag : string) : SearchResult :=
  mkResult id "ext" "subject" "snippet" "bob@example.com" "Bob"
           sample_date score tag [] false.

Definition upper_case_sender : SearchFilters :=
  mkFilters ["BOB"] None None [] None None [].

(** The keys of [date_patterns]: the relative date names. *)
Definition relative_date_res : list Re.regex :=
  [ Parser.word1 "today"; Parser.word1 "yesterday";
    Parser.word2 "last" "week"; Parser.word2 "this" "week";
    Parser.word2 "last" "month"; Parser.word2 "this" "month";
    Parser.word2 "last" "year" ].

(** Does the text name a relative date? *)
Definition names_relative_date (q : string) : bool :=
  existsb (fun p => match Re.search p q with Some _ => true | None => false end)
          relative_date_res.

(** A clock reading from which a year can be subtracted. *)
Definition clock_ok (today : datetime) : Prop :=
  DT.valid today /\ (2 <= DT.year today)%Z.

(** Two filter sets that agree on everything but the values of the two
    dates (which are set in both or in neither). *)
Definition same_but_dates (f1 f2 : SearchFilters) : Prop :=
  sender_emails f1 = sender_emails f2 /\ labels f1 = labels f2 /\
  has_attachments f1 = has_attachments f2 /\
  is_important f1 = is_important f2 /\ keywords f1 = keywords f2 /\
  (date_from f1 = None <-> date_from f2 = None).

(** Two stages of the extraction (filters so far, text still to read) that
    agree up to the dates. *)
Definition pass_agree (a1 a2 : SearchFilters * string) : Prop :=
  snd a1 = snd a2 /\ same_but_dates (fst a1) (fst a2).

(** Two outcomes of the parser's [try] block that agree up to the dates. *)
Definition agree_but_dates
    (o1 o2 : exn (SearchFilters * string * SearchType)) : Prop :=
  match o1, o2 with
  | Ok (f1, cq1, t1), Ok (f2, cq2, t2) =>
      same_but_dates f1 f2 /\ cq1 = cq2 /\ t1 = t2
  | Raise e1, Raise e2 => e1 = e2
  | _, _ => False
  end.

(** A clock reading one second after [sample_date]. *)
Definition sample_later : datetime := DT.DateTime 2026 11 3 10 20 31 0.

(** The state handed to the semantic stage by the three stages before it. *)
Definition before_semantic (env : Env) (q : string) (acct maxr : Z)
  : SearchState :=
  keyword_search env
    (generate_query_vector env
       (Parser.parse_query (utcnow env)
          (initial_state q acct maxr (time_start env)))).

(** Zero-keyword mode as the specification words it: with no keywords the
    lexical stage returns what the store gives for the account alone, newest
    first and cut to the cap. *)
Definition recent_messages_claim (env : Env) (s : SearchState) : Prop :=
  forall rows,
    db_query env (account_id s) [] (max_results s) = Ok rows ->
    keyword_results (keyword_search env s) = map (row_to_result []) rows.

Definition sample_row : Row :=
  mkRow 7 "ext-7" (Some "Project update") (Some "status of the project")
        "bob@example.com" (Some "Bob") sample_date None None.

(** A fake store that answers every query with one message, no services. *)
Definition store_with_one_message : Env :=
  mkEnv (fun _ _ _ => Ok [sample_row]) None None
        (fun _ => Raise "Invalid isoformat string")
        sample_date (fun _ => sample_date) 0 0.

(** The same store, an embedding provider that succeeds and a vector store
    that is down. *)
Definition vector_store_down : Env :=
  mkEnv (fun _ _ _ => Ok [sample_row])
        (Some (fun _ => Ok (mkEmbedding true [1; 0] "")))
        (Some (fun _ _ _ => Raise "connection refused"))
        (fun _ => Raise "Invalid isoformat string")
        sample_date (fun _ => sample_date) 0 (1 # 4).







(** Two keyword hits and two semantic hits, message 2 being in both. *)
Definition sample_keyword : list SearchResult :=
  [sample_result 1 3 "keyword"; sample_result 2 1 "keyword"].

Definition sample_semantic : list SearchResult :=
  [sample_result 3 (9 # 10) "semantic"; sample_result 2 (3 # 10) "semantic"].



(** The cap as the specification words it, for given inputs. *)
Definition cap_claim (kw sem : list SearchResult) (cap : Z)
  (f : SearchFilters) : Prop :=
  (Z.of_nat (List.length (fuse kw sem cap)) <= cap)%Z /\
  (List.length (post_filter f (fuse kw sem cap)) <=
   List.length (fuse kw sem cap))%nat.

(** Well-formed dictionary: distinct keys, each the id of its value. *)
Definition dict_wf (d : dict) : Prop :=
  NoDup (map fst d) /\ Forall (fun kv => message_id (snd kv) = fst kv) d.

(** A list in the order of [sort(key=relevance_score, reverse=True)]:
    no element has a lower score than one that follows it. *)
Definition sorted_desc (l : list SearchResult) : Prop :=
  StronglySorted (fun a b => relevance_score b <= relevance_score a) l.

(** The results of a list that carry a given score. *)
Definition with_score (q : Q) (l : list SearchResult) : list SearchResult :=
  filter (fun r => Qeq_bool (relevance_score r) q) l.

(** Two results that describe the same message: they agree on every field
    but the two that the fusion stage writes. *)
Definition same_message (r r0 : SearchResult) : Prop :=
  message_id r = message_id r0 /\
  external_message_id r = external_message_id r0 /\
  subject r = subject r0 /\ snippet r = snippet r0 /\
  sender_email r = sender_email r0 /\ sender_name r = sender_name r0 /\
  date_sent r = date_sent r0 /\
  result_labels r = result_labels r0 /\
  result_has_attachments r = result_has_attachments r0.

Definition provenance_tags : list string :=
  ["keyword"%string; "semantic"%string; "hybrid"%string].

(** A dictionary value that stems from one of the results of [pool]. *)
Definition stems_from (pool : list SearchResult) (v : SearchResult) : Prop :=
  (exists r0, In r0 pool /\ same_message v r0) /\
  In (search_type v) provenance_tags.

(** The nodes of the compiled graph, in the order of its edges. *)
Definition stages (env : Env) : list (SearchState -> SearchState) :=
  [ Parser.parse_query (utcnow env); generate_query_vector env;
    keyword_search env; semantic_search env;
    fuse_results; apply_filters; finalize_results env ].

(** The environment without its vector store, and without either service. *)
Definition without_vector_store (env : Env) : Env :=
  mkEnv (db_query env) (embedding_service env) None (fromisoformat env)
        (utcnow env) (utcnow_hit env) (time_start env) (time_end env).

Definition without_services (env : Env) : Env :=
  mkEnv (db_query env) None None (fromisoformat env)
        (utcnow env) (utcnow_hit env) (time_start env) (time_end env).

(** The state handed to the keyword stage by the two stages before it. *)
Definition before_keyword (env : Env) (q : string) (acct maxr : Z)
  : SearchState :=
  generate_query_vector env
    (Parser.parse_query (utcnow env)
       (initial_state q acct maxr (time_start env))).

(** The error that [_generate_query_vector] records for the answer of the
    embedding service, if any. *)
Definition embedding_failure (g : string -> exn EmbeddingResult)
    (text : string) : option string :=
  match g text with
  | Ok result =>
      if emb_success result then None
      else Some ("Failed to generate vector: " ++
                 emb_error_message result)%string
  | Raise e => Some ("Vector generation error: " ++ e)%string
  end.

(** The state left by the parser. *)
Definition parsed (env : Env) (q : string) (acct maxr : Z) : SearchState :=
  Parser.parse_query (utcnow env)
    (initial_state q acct maxr (time_start env)).

(** A store whose connection fails, an embedding provider that fails. *)
Definition store_down : Env :=
  mkEnv (fun _ _ _ => Raise "could not connect to server")
        (Some (fun _ => Ok (mkEmbedding true [1; 0] "")))
        (Some (fun _ _ _ =>
                 Ok [mkVector 9 "ext-9" (7 # 10) "Project plan" "plan"
                              "eve@example.com" ""]))
        (fun _ => Raise "Invalid isoformat string")
        sample_date (fun _ => sample_date) 0 (1 # 4).

Definition embedding_down : Env :=
  mkEnv (fun _ _ _ => Ok [sample_row])
        (Some (fun _ => Raise "quota exceeded"))
        (Some (fun _ _ _ => Raise "connection refused"))
        (fun _ => Raise "Invalid isoformat string")
        sample_date (fun _ => sample_date) 0 (1 # 4).

(** A text without upper-case letters. *)
Fixpoint no_upper (s : string) : bool :=
  match s with
  | EmptyString => true
  | String c s' => negb (Py.is_upper c) && no_upper s'
  end.

(** The labels the parser knows, in the order in which it looks for them. *)
Definition label_vocabulary : list string :=
  ["INBOX"%string; "SENT"%string; "DRAFT"%string; "SPAM"%string;
   "TRASH"%string].

(** The shape of the filters the parser can produce. *)
Definition well_shaped (f : SearchFilters) : Prop :=
  Forall (fun s => Py.contains "@" s = true /\ Py.lower s = s)
         (sender_emails f) /\
  subseq (labels f) label_vocabulary /\
  is_important f <> Some false /\ has_attachments f <> Some false /\
  (date_from f = None <-> date_to f = None).

(** Filters that differ in their keywords at most. *)
Definition same_but_keywords (f1 f2 : SearchFilters) : Prop :=
  sender_emails f1 = sender_emails f2 /\ labels f1 = labels f2 /\
  has_attachments f1 = has_attachments f2 /\
  is_important f1 = is_important f2 /\
  date_from f1 = date_from f2 /\ date_to f1 = date_to f2.

(** What holds of the filters and of the text between the sender pass and
    the label pass: the text has no upper-case letter and no label has been
    recorded yet. *)
Definition before_labels (acc : SearchFilters * string) : Prop :=
  no_upper (snd acc) = true /\ labels (fst acc) = [] /\
  well_shaped (fst acc).

(** Filters that constrain the send date only. *)
Definition date_window (a b : datetime) : SearchFilters :=
  mkFilters [] (Some a) (Some b) [] None None [].

(** Midnight of the first day of a month, and of the month after it. *)
Definition month_start (y mo : Z) : datetime := DT.DateTime y mo 1 0 0 0 0.

Definition next_month_start (y mo : Z) : datetime :=
  if (mo =? 12)%Z then month_start (y + 1) 1 else month_start y (mo + 1).

(** The terms the keyword stage searches for. *)
Definition search_terms_of (s : SearchState) : list string :=
  if Py.nonempty (keywords (filters s)) then keywords (filters s)
  else [cleaned_query s].

(** A Qdrant client that is down and a join that finds nothing. *)
Definition client_down : list Q -> Z -> Q -> exn (list Services.Hit) :=
  fun _ _ _ => Raise "connection refused".

Definition no_join_row : string -> exn (option Services.JoinRow) :=
  fun _ => Ok None.

Definition sample_hits : list Services.Hit :=
  [Services.mkHit "v1" (9 # 10); Services.mkHit "v2" (5 # 10)].

(** A join that knows the vector [v2] only. *)
Definition join_v2 : string -> exn (option Services.JoinRow) :=
  fun vector_id =>
    if String.eqb vector_id "v2"
    then Ok (Some (Services.mkJoinRow 7 "ext-7" (Some "Project update") None
                                      "bob@example.com" (Some sample_date)))
    else Raise "could not connect to server".

(** The environment with a given embedding function. *)
Definition with_embedding (env : Env) (g : string -> exn EmbeddingResult)
  : Env :=
  mkEnv (db_query env) (Some g) (qdrant_service env) (fromisoformat env)
        (utcnow env) (utcnow_hit env) (time_start env) (time_end env).

(** A date string that the semantic stage can turn into a date. *)
Definition date_readable (env : Env) (v : VectorSearchResult) : Prop :=
  vec_date_sent v = ""%string \/
  exists d, fromisoformat env (vec_date_sent v) = Ok d.

(** What the vector search returns for one hit: the joined row with the
    hit's score, or nothing when the lookup fails or finds no row. *)
Definition result_of_hit (fetch : string -> exn (option Services.JoinRow))
    (hit : Services.Hit) : list VectorSearchResult :=
  match fetch (Services.hit_id hit) with
  | Ok (Some row) =>
      [mkVector (Services.join_message_id row)
                (Services.join_external_message_id row)
                (Services.hit_score hit)
                (none_to_empty (Services.join_subject row))
                (none_to_empty (Services.join_snippet row))
                (Services.join_sender_email row)
                (match Services.join_date_sent row with
                 | Some d => isoformat d
                 | None => ""%string
                 end)]
  | Ok None => []
  | Raise _ => []
  end.

(** A string without white space. *)
Fixpoint no_space (s : string) : bool :=
  match s with
  | EmptyString => true
  | String c s' => negb (Py.is_space c) && no_space s'
  end.


(* ================================================================== *)
(** * Properties *)
(* ================================================================== *)

(** ** Lists, sorting and slicing *)

Lemma subseq_refl : forall (A : Type) (l : list A), subseq l l.
Proof. induction l; constructor; assumption. Qed.

Lemma subseq_filter : forall (A : Type) (p : A -> bool) (l : list A),
  subseq (filter p l) l.
Proof.
  induction l as [|x l IH]; simpl.
  - constructor.
  - destruct (p x); constructor; assumption.
Qed.

Lemma insert_desc_perm : forall x l, Permutation (insert_desc x l) (x :: l).
Proof.
  induction l as [|y l IH]; simpl.
  - apply Permutation_refl.
  - destruct (Qle_bool (relevance_score y) (relevance_score x)).
    + apply Permutation_refl.
    + eapply perm_trans; [apply perm_skip, IH | apply perm_swap].
Qed.

Lemma sort_desc_perm : forall l, Permutation (sort_desc l) l.
Proof.
  induction l as [|x l IH]; simpl.
  - constructor.
  - eapply perm_trans; [apply insert_desc_perm | apply perm_skip, IH].
Qed.


Lemma sort_desc_In : forall r l, In r (sort_desc l) <-> In r l.
Proof.
  intros r l; split; apply Permutation_in;
    [apply sort_desc_perm | apply Permutation_sym, sort_desc_perm].
Qed.

Lemma firstn_In : forall (A : Type) (k : nat) (l : list A) (x : A),
  In x (firstn k l) -> In x l.
Proof.
  induction k as [|k IH]; intros [|y l] x H; simpl in *; try contradiction.
  destruct H as [H|H]; [left; assumption | right; apply IH; assumption].
Qed.

Lemma slice_to_firstn : forall (A : Type) (n : Z) (l : list A),
  exists k, Py.slice_to n l = firstn k l.
Proof.
  intros A n l. unfold Py.slice_to.
  destruct (0 <=? n)%Z; eexists; reflexivity.
Qed.

Lemma slice_to_In : forall (A : Type) (n : Z) (l : list A) (x : A),
  In x (Py.slice_to n l) -> In x l.
Proof.
  intros A n l x H. destruct (slice_to_firstn A n l) as [k E].
  rewrite E in H. eapply firstn_In; eassumption.
Qed.

Lemma slice_to_length : forall (A : Type) (n : Z) (l : list A),
  (0 <= n)%Z -> (Z.of_nat (List.length (Py.slice_to n l)) <= n)%Z.
Proof.
  intros A n l Hn. unfold Py.slice_to.
  destruct (0 <=? n)%Z eqn:E.
  - pose proof (firstn_le_length (Z.to_nat n) l).
    rewrite length_firstn. lia.
  - apply Z.leb_gt in E. lia.
Qed.


Lemma NoDup_firstn : forall (A : Type) (k : nat) (l : list A),
  NoDup l -> NoDup (firstn k l).
Proof.
  intros A k l H. revert k.
  induction H as [|x l Hx Hl IH]; intro k.
  - rewrite firstn_nil. constructor.
  - destruct k; simpl; constructor.
    + intro Hin. apply Hx. eapply firstn_In; eassumption.
    + apply IH.
Qed.


(** ** The dictionary of the fusion stage *)


Lemma dict_get_None : forall k d,
  dict_get k d = None <-> ~ In k (map fst d).
Proof.
  intros k d. induction d as [|[k0 v0] d IH]; simpl.
  - split; [intros _ H; exact H | reflexivity].
  - destruct (Z.eqb_spec k k0) as [E|N].
    + split; [discriminate | intro H; exfalso; apply H; left; auto].
    + rewrite IH. split.
      * intros H [H0|H0]; [apply N; auto | apply H; assumption].
      * intros H H0. apply H. right. assumption.
Qed.

Lemma dict_get_In : forall k v d, dict_get k d = Some v -> In (k, v) d.
Proof.
  intros k v d. induction d as [|[k0 v0] d IH]; simpl.
  - discriminate.
  - destruct (Z.eqb_spec k k0) as [E|N].
    + intro H. injection H as ->. left. subst. reflexivity.
    + intro H. right. apply IH. assumption.
Qed.


Lemma dict_set_absent : forall k v d,
  dict_get k d = None -> dict_set k v d = d ++ [(k, v)].
Proof.
  intros k v d. induction d as [|[k0 v0] d IH]; simpl.
  - reflexivity.
  - destruct (Z.eqb_spec k k0); [discriminate|].
    intro H. rewrite IH by assumption. reflexivity.
Qed.

Lemma dict_set_present_keys : forall k v d,
  In k (map fst d) -> map fst (dict_set k v d) = map fst d.
Proof.
  intros k v d. induction d as [|[k0 v0] d IH]; simpl.
  - contradiction.
  - destruct (Z.eqb_spec k k0) as [E|N]; simpl.
    + subst. reflexivity.
    + intros [H|H]; [exfalso; apply N; auto | rewrite IH by assumption; reflexivity].
Qed.

Lemma dict_set_In : forall k v k' v' d,
  In (k', v') (dict_set k v d) -> (k', v') = (k, v) \/ In (k', v') d.
Proof.
  intros k v k' v' d. induction d as [|[k0 v0] d IH]; simpl.
  - intros [H|[]]. left. symmetry. assumption.
  - destruct (Z.eqb_spec k k0) as [E|N]; simpl.
    + intros [H|H]; [left; symmetry; assumption | right; right; assumption].
    + intros [H|H]; [right; left; assumption|].
      destruct (IH H) as [H0|H0]; [left | right; right]; assumption.
Qed.

Lemma dict_set_wf : forall k v d,
  dict_wf d -> message_id v = k -> dict_wf (dict_set k v d).
Proof.
  intros k v d [ND FA] Hv. split.
  - destruct (dict_get k d) eqn:G.
    + rewrite dict_set_present_keys; [assumption|].
      apply dict_get_In in G. change k with (fst (k, s)).
      apply in_map. assumption.
    + rewrite dict_set_absent by assumption.
      rewrite map_app. simpl.
      apply dict_get_None in G.
      apply NoDup_app_remove_l with (l := []). simpl.
      apply Permutation_NoDup with (l := k :: map fst d).
      * apply Permutation_cons_append.
      * constructor; assumption.
  - rewrite Forall_forall in *. intros [k' v'] H.
    destruct (dict_set_In _ _ _ _ _ H) as [E|H0].
    + injection E as -> ->. assumption.
    + apply FA. assumption.
Qed.

Lemma dict_wf_get_id : forall k v d,
  dict_wf d -> dict_get k d = Some v -> message_id v = k.
Proof.
  intros k v d [_ FA] G. apply dict_get_In in G.
  rewrite Forall_forall in FA. apply (FA _ G).
Qed.

Lemma fuse_keyword_wf : forall d r, dict_wf d -> dict_wf (fuse_keyword d r).
Proof.
  intros d r W. unfold fuse_keyword.
  destruct (dict_get (message_id r) d) eqn:G; apply dict_set_wf; auto.
  simpl. eapply dict_wf_get_id; eassumption.
Qed.

Lemma fuse_semantic_wf : forall d r, dict_wf d -> dict_wf (fuse_semantic d r).
Proof.
  intros d r W. unfold fuse_semantic.
  destruct (dict_get (message_id r) d) eqn:G; apply dict_set_wf; auto.
  simpl. eapply dict_wf_get_id; eassumption.
Qed.

Lemma fold_keyword_wf : forall kw d,
  dict_wf d -> dict_wf (fold_left fuse_keyword kw d).
Proof.
  induction kw as [|r kw IH]; simpl; intros d W; [assumption|].
  apply IH, fuse_keyword_wf, W.
Qed.

Lemma fold_semantic_wf : forall sem d,
  dict_wf d -> dict_wf (fold_left fuse_semantic sem d).
Proof.
  induction sem as [|r sem IH]; simpl; intros d W; [assumption|].
  apply IH, fuse_semantic_wf, W.
Qed.

Lemma combine_results_wf : forall kw sem, dict_wf (combine_results kw sem).
Proof.
  intros kw sem. unfold combine_results.
  apply fold_semantic_wf, fold_keyword_wf.
  split; constructor.
Qed.

Lemma dict_values_ids : forall d,
  dict_wf d -> map message_id (dict_values d) = map fst d.
Proof.
  intros d [_ FA]. unfold dict_values. rewrite map_map.
  apply map_ext_in. intros kv H.
  rewrite Forall_forall in FA. apply FA. assumption.
Qed.

(** ** Dedup invariant *)

(** C2.  Whatever the keyword and semantic result lists (duplicate ids and
    overlap included) and whatever the cap, no message id occurs twice in the
    fused list. *)
Theorem fuse_no_duplicate_ids : forall kw sem cap,
  NoDup (map message_id (fuse kw sem cap)).
Proof.
  intros kw sem cap. unfold fuse.
  destruct (slice_to_firstn _ cap
              (sort_desc (dict_values (combine_results kw sem)))) as [k E].
  rewrite E, <- firstn_map. apply NoDup_firstn.
  apply Permutation_NoDup
    with (l := map message_id (dict_values (combine_results kw sem))).
  - apply Permutation_map, Permutation_sym, sort_desc_perm.
  - rewrite dict_values_ids by apply combine_results_wf.
    apply combine_results_wf.
Qed.

(** ** Cap *)

Lemma filter_loop_filter : forall f results filtered,
  filter_loop f results filtered = filtered ++ filter (keep f) results.
Proof.
  intros f results. induction results as [|r rs IH]; intro filtered; simpl.
  - rewrite app_nil_r. reflexivity.
  - rewrite IH. destruct (keep f r); simpl.
    + rewrite <- app_assoc. reflexivity.
    + reflexivity.
Qed.

Lemma post_filter_filter : forall f results,
  post_filter f results = filter (keep f) results.
Proof. intros f results. apply filter_loop_filter. Qed.

(** C3, as amended.  For a cap that is not negative, the fused list is no
    longer than the cap, and the list left by the post-filter is no longer
    than the fused list it was computed from. *)
Theorem cap_respected : forall kw sem cap f,
  (0 <= cap)%Z ->
  (Z.of_nat (List.length (fuse kw sem cap)) <= cap)%Z /\
  (List.length (post_filter f (fuse kw sem cap)) <=
   List.length (fuse kw sem cap))%nat.
Proof.
  intros kw sem cap f Hcap. split.
  - unfold fuse. apply slice_to_length. assumption.
  - rewrite post_filter_filter. apply filter_length_le.
Qed.

Lemma cap_respected_witness :
  (0 <= 1)%Z /\
  (Z.of_nat (List.length
     (fuse [sample_result 1 3 "keyword"; sample_result 2 1 "keyword"]
           [sample_result 3 (1 # 2) "semantic"] 1)) <= 1)%Z.
Proof.
  split; [lia|].
  apply (cap_respected
           [sample_result 1 3 "keyword"; sample_result 2 1 "keyword"]
           [sample_result 3 (1 # 2) "semantic"] 1%Z no_filters).
  lia.
Defined.

(** C3, as stated for every cap, fails for a negative one:
    [fused_results[:-1]] drops the last entry only, so the two keyword hits
    of [sample_keyword] leave a fused list of length 1, which is more than
    the cap -1. *)
Lemma cap_claim_counterexample :
  ~ cap_claim sample_keyword [] (-1) no_filters.
Proof.
  intros [H _]. vm_compute in H. apply H. reflexivity.
Qed.

(** ** The post-filter keeps order and content *)

(** C10.  The output of the post-filter is the input with the results that
    took a [continue] left out: the survivors stand in their input order and
    are the very records of the input (score, tag and every other field
    untouched), and the stage changes nothing else in the state. *)
Theorem apply_filters_preserves : forall s,
  final_results (apply_filters s) =
    filter (keep (filters s)) (final_results s) /\
  subseq (final_results (apply_filters s)) (final_results s) /\
  apply_filters s = set_final_results s (final_results (apply_filters s)).
Proof.
  intro s. unfold apply_filters. simpl.
  rewrite post_filter_filter. repeat split.
  apply subseq_filter.
Qed.

(** ** Filter conjunction *)

Lemma mem_In : forall x l, mem x l = true <-> In x l.
Proof.
  intros x l. unfold mem. rewrite existsb_exists. split.
  - intros [y [Hy E]]. apply String.eqb_eq in E. subst. assumption.
  - intro H. exists x. split; [assumption | apply String.eqb_refl].
Qed.

Lemma nonempty_false : forall (A : Type) (l : list A),
  Py.nonempty l = false <-> l = [].
Proof. intros A [|x l]; simpl; split; congruence. Qed.

Lemma dt_ge_not_lt : forall a b, DT.ge a b = negb (DT.lt a b).
Proof. intros a b. unfold DT.ge, DT.lt. destruct (DT.cmp a b); reflexivity. Qed.

Lemma dt_le_not_gt : forall a b, DT.le a b = negb (DT.gt a b).
Proof. intros a b. unfold DT.le, DT.gt. destruct (DT.cmp a b); reflexivity. Qed.

Lemma sender_clause : forall (senders : list string) (email : string),
  Py.nonempty senders &&
  negb (existsb (fun sender => Py.contains sender (Py.lower email)) senders)
  = false <->
  (senders = [] \/ exists s, In s senders /\ lowered_substring s email).
Proof.
  intros senders email. unfold lowered_substring.
  rewrite andb_false_iff, nonempty_false, negb_false_iff, existsb_exists.
  reflexivity.
Qed.

Lemma label_clause : forall (wanted have : list string),
  Py.nonempty wanted && negb (existsb (fun label => mem label have) wanted)
  = false <->
  (wanted = [] \/ exists l, In l wanted /\ In l have).
Proof.
  intros wanted have.
  rewrite andb_false_iff, nonempty_false, negb_false_iff, existsb_exists.
  split; (intros [H|[l [H1 H2]]]; [left; assumption|]);
    right; exists l; (split; [assumption|]); apply mem_In; assumption.
Qed.

Lemma date_from_clause : forall (o : option datetime) (t : datetime),
  match o with Some d => DT.lt t d | None => false end = false <->
  (forall d, o = Some d -> DT.ge t d = true).
Proof.
  intros [d0|] t; split.
  - intros H d E. injection E as <-. rewrite dt_ge_not_lt, H. reflexivity.
  - intro H. specialize (H d0 eq_refl). rewrite dt_ge_not_lt in H.
    apply negb_true_iff. assumption.
  - intros _ d E. discriminate.
  - reflexivity.
Qed.

Lemma date_to_clause : forall (o : option datetime) (t : datetime),
  match o with Some d => DT.gt t d | None => false end = false <->
  (forall d, o = Some d -> DT.le t d = true).
Proof.
  intros [d0|] t; split.
  - intros H d E. injection E as <-. rewrite dt_le_not_gt, H. reflexivity.
  - intro H. specialize (H d0 eq_refl). rewrite dt_le_not_gt in H.
    apply negb_true_iff. assumption.
  - intros _ d E. discriminate.
  - reflexivity.
Qed.

Lemma important_clause : forall (o : option bool) (have : list string),
  match o with
  | Some b => negb (Bool.eqb b (mem "IMPORTANT" have))
  | None => false
  end = false <->
  (forall b, o = Some b -> (In "IMPORTANT" have <-> b = true)).
Proof.
  intros [b0|] have; split.
  - intros H b E. injection E as <-.
    apply negb_false_iff, eqb_prop in H. rewrite <- mem_In, <- H. reflexivity.
  - intro H. specialize (H b0 eq_refl). rewrite <- mem_In in H.
    apply negb_false_iff.
    destruct b0, (mem "IMPORTANT" have); simpl; try reflexivity;
      destruct H as [H1 H2];
      [specialize (H2 eq_refl) | specialize (H1 eq_refl)]; discriminate.
  - intros _ b E. discriminate.
  - reflexivity.
Qed.

Lemma attachment_clause : forall (o : option bool) (have : bool),
  match o with Some b => negb (Bool.eqb b have) | None => false end = false <->
  (forall b, o = Some b -> have = b).
Proof.
  intros [b0|] have; split.
  - intros H b E. injection E as <-.
    apply negb_false_iff, eqb_prop in H. symmetry. assumption.
  - intro H. rewrite (H b0 eq_refl). apply negb_false_iff, eqb_reflx.
  - intros _ b E. discriminate.
  - reflexivity.
Qed.

(** The chain of [continue]s is the conjunction of its six tests. *)
Lemma keep_satisfies : forall f r, keep f r = true <-> satisfies f r.
Proof.
  intros f r. unfold satisfies, satisfies_with.
  rewrite <- sender_clause, <- date_from_clause, <- date_to_clause,
          <- important_clause, <- attachment_clause, <- label_clause.
  unfold keep.
  repeat match goal with
         | |- context [if ?c then false else _] => destruct c
         end;
    intuition congruence.
Qed.

(** C4, as amended.  A result is in the output of the post-filter exactly
    when it is in the input and passes every active test, the sender test
    being: some configured sender string occurs in the lower-cased sender
    address (the configured string itself is taken as it is). *)
Theorem filter_conjunction : forall f results r,
  In r (post_filter f results) <-> In r results /\ satisfies f r.
Proof.
  intros f results r.
  rewrite post_filter_filter, filter_In, keep_satisfies. reflexivity.
Qed.

(** For configured senders in lower case, which is all the parser produces,
    the sender test is the case-insensitive one. *)
Lemma satisfies_lower_case : forall f r,
  Forall (fun s => Py.lower s = s) (sender_emails f) ->
  (satisfies f r <-> satisfies_claimed f r).
Proof.
  intros f r H. rewrite Forall_forall in H.
  unfold satisfies, satisfies_claimed, satisfies_with,
         lowered_substring, ci_substring.
  split; intros (Hs & Hrest); (split; [|exact Hrest]);
    (destruct Hs as [Hs|[s [Hin Hc]]]; [left; assumption|]);
    right; exists s; (split; [assumption|]).
  - rewrite (H s Hin). assumption.
  - rewrite (H s Hin) in Hc. assumption.
Qed.

(** C4, as stated, fails: the configured sender [BOB] is a case-insensitive
    substring of [bob@example.com], yet the result is filtered out. *)
Lemma filter_conjunction_counterexample :
  ~ (forall f results r,
       In r (post_filter f results) <-> In r results /\ satisfies_claimed f r).
Proof.
  intro H.
  destruct (H upper_case_sender [sample_result 1 1 "keyword"]
              (sample_result 1 1 "keyword")) as [_ H1].
  apply H1. split.
  - left. reflexivity.
  - unfold satisfies_claimed, satisfies_with, ci_substring. simpl.
    repeat split; try discriminate; try (left; reflexivity).
    right. exists "BOB"%string. split; [left; reflexivity | reflexivity].
Qed.

(** ** Score blend *)
















Lemma fuse_ids_distinct : forall kw sem cap,
  NoDup (map message_id (fuse kw sem cap)).
Proof.
  intros kw sem cap. unfold fuse.
  destruct (slice_to_firstn _ cap
              (sort_desc (dict_values (combine_results kw sem)))) as [k E].
  rewrite E, <- firstn_map. apply NoDup_firstn.
  apply Permutation_NoDup
    with (l := map message_id (dict_values (combine_results kw sem))).
  - apply Permutation_map, Permutation_sym, sort_desc_perm.
  - rewrite dict_values_ids by apply combine_results_wf.
    apply combine_results_wf.
Qed.





(** ** Dates *)

Lemma month_cases : forall mo : Z,
  (1 <= mo <= 12)%Z ->
  In mo [1; 2; 3; 4; 5; 6; 7; 8; 9; 10; 11; 12]%Z.
Proof.
  intros mo H. simpl.
  assert (mo = 1 \/ mo = 2 \/ mo = 3 \/ mo = 4 \/ mo = 5 \/ mo = 6 \/
          mo = 7 \/ mo = 8 \/ mo = 9 \/ mo = 10 \/ mo = 11 \/ mo = 12)%Z
    by lia.
  intuition auto.
Qed.

Lemma month_span : forall (leap : bool) (mo : Z),
  (1 <= mo <= 12)%Z ->
  let before := (DT.DAYS_BEFORE_MONTH mo +
                 (if (2 <? mo)%Z && leap then 1 else 0))%Z in
  let within := (if (mo =? 2)%Z && leap then 29 else DT.DAYS_IN_MONTH mo)%Z in
  (0 <= before)%Z /\
  (before + within <= (if leap then 366 else 365))%Z.
Proof.
  intros leap mo Hm. pose proof (month_cases mo Hm) as Hmo. simpl in Hmo.
  destruct leap;
    repeat (destruct Hmo as [Hmo|Hmo];
            [subst mo; vm_compute; split; discriminate|]);
    contradiction.
Qed.

Lemma toordinal_bounds : forall t,
  clock_ok t -> (366 <= DT.toordinal t <= DT.MAXORDINAL)%Z.
Proof.
  intros [y mo d h mi sc us] [(Hy & Hm & Hd & _) Hy2].
  unfold DT.toordinal, DT.ymd2ord, DT.MAXORDINAL, DT.MINYEAR, DT.MAXYEAR in *.
  cbn [DT.year DT.month DT.day] in *.
  assert (Hby : (365 <= DT.days_before_year y)%Z /\
                (y <= 9998 -> DT.days_before_year y <= 3651329)%Z).
  { unfold DT.days_before_year. split; [|intro]; Z.div_mod_to_equations; lia. }
  destruct Hby as [Hlo Hhi].
  assert (Hleap : y = 9999%Z -> DT.is_leap y = false)
    by (intros ->; reflexivity).
  assert (H9 : y = 9999%Z -> DT.days_before_year y = 3651694%Z)
    by (intros ->; reflexivity).
  unfold DT.days_in_month in Hd. unfold DT.days_before_month.
  pose proof (month_span (DT.is_leap y) mo Hm) as [Hb Hs].
  destruct (DT.is_leap y); lia.
Qed.

Lemma sub_days_ok : forall t n,
  (0 < DT.toordinal t - n <= DT.MAXORDINAL)%Z ->
  exists t', DT.sub_days t n = Ok t'.
Proof.
  intros t n [H1 H2]. unfold DT.sub_days.
  apply Z.ltb_lt in H1. apply Z.leb_le in H2. rewrite H1, H2. simpl.
  destruct (DT.ord2ymd (DT.toordinal t - n)) as [[y mo] d].
  eexists. reflexivity.
Qed.

Lemma weekday_range : forall t, (0 <= DT.weekday t < 7)%Z.
Proof. intro t. unfold DT.weekday. apply Z.mod_pos_bound. lia. Qed.

(** From year 2 on, building the table of relative dates raises nothing,
    and its keys are the seven names. *)
Lemma date_patterns_ok : forall today,
  clock_ok today ->
  exists pats, Parser.date_patterns today = Ok pats /\
               map fst pats = relative_date_res.
Proof.
  intros today H. pose proof (toordinal_bounds today H) as B.
  pose proof (weekday_range today) as W.
  unfold Parser.date_patterns.
  destruct (sub_days_ok today 1) as [t1 E1]; [lia|].
  destruct (sub_days_ok today (7 * 1)) as [t2 E2]; [lia|].
  destruct (sub_days_ok today (DT.weekday today)) as [t3 E3]; [lia|].
  destruct (sub_days_ok today 30) as [t4 E4]; [lia|].
  destruct (sub_days_ok today 365) as [t5 E5]; [lia|].
  rewrite E1, E2, E3, E4, E5. simpl.
  eexists. split; reflexivity.
Qed.

Lemma sample_date_ok : clock_ok sample_date.
Proof.
  unfold clock_ok, DT.valid, sample_date, DT.MINYEAR, DT.MAXYEAR.
  cbn [DT.year DT.month DT.day DT.hour DT.minute DT.second DT.microsecond].
  change (DT.days_in_month 2026 11) with 30%Z. lia.
Qed.

Lemma sample_later_ok : clock_ok sample_later.
Proof.
  unfold clock_ok, DT.valid, sample_later, DT.MINYEAR, DT.MAXYEAR.
  cbn [DT.year DT.month DT.day DT.hour DT.minute DT.second DT.microsecond].
  change (DT.days_in_month 2026 11) with 30%Z. lia.
Qed.

(** ** The query parser *)

Lemma names_relative_date_false : forall q p,
  names_relative_date q = false -> In p relative_date_res ->
  Re.search p q = None.
Proof.
  intros q p H Hin. unfold names_relative_date in H.
  destruct (Re.search p q) eqn:E; [|reflexivity].
  assert (X : existsb
                (fun p => match Re.search p q with
                          | Some _ => true
                          | None => false
                          end) relative_date_res = true).
  { apply existsb_exists. exists p. rewrite E. auto. }
  congruence.
Qed.

Lemma extract_relative_date_none : forall pats acc,
  (forall p, In p (map fst pats) -> Re.search p (snd acc) = None) ->
  Parser.extract_relative_date pats acc = acc.
Proof.
  induction pats as [|[p [a b]] pats IH]; simpl; intros acc H.
  - reflexivity.
  - rewrite (H p) by (left; reflexivity).
    apply IH. intros p' Hp'. apply H. right. assumption.
Qed.

(** The [try] block on a query that names no relative date: the table of
    relative dates is built and left unused. *)
Lemma parse_body_no_relative_date : forall today q,
  clock_ok today ->
  names_relative_date (snd (Parser.after_senders q)) = false ->
  Parser.parse_body today q =
  (acc <- Parser.extract_month_year (Parser.after_senders q) ;;
   let acc := Parser.extract_flags acc in
   let '(f, q) := Parser.extract_labels acc in
   let q := Parser.clean_up q in
   let f := add_keywords f (Parser.remaining_keywords q) in
   let cq := if Py.nonempty (keywords f) then Py.join " " (keywords f)
             else q in
   Ok (f, cq, Parser.choose_search_type f cq)).
Proof.
  intros today q Hc Hq.
  destruct (date_patterns_ok today Hc) as (pats & Hp & Hk).
  unfold Parser.parse_body. rewrite Hp. cbn [bind].
  rewrite extract_relative_date_none; [reflexivity|].
  intros p Hin. rewrite Hk in Hin.
  apply names_relative_date_false; assumption.
Qed.

(** C5, as amended.  Whatever the (valid) clock reading, the query
    [emails from sender0@example.com] parses to the sender filter
    [sender0@example.com], the residual keyword [emails], the cleaned query
    [emails] and the search type FILTERED, for which the embedding and
    semantic stages are not skipped. *)
Theorem scenario_sender_query : forall today s,
  clock_ok today ->
  query s = "emails from sender0@example.com"%string ->
  Parser.parse_query today s =
    set_parsed s
      (mkFilters ["sender0@example.com"%string] None None [] None None
                 ["emails"%string])
      "emails" FILTERED /\
  wants_vector (state_search_type (Parser.parse_query today s)) = true.
Proof.
  intros today s Hc Hq.
  assert (E : Parser.parse_body today (query s) =
              Ok (mkFilters ["sender0@example.com"%string] None None []
                            None None ["emails"%string],
                  "emails"%string, FILTERED)).
  { rewrite Hq, parse_body_no_relative_date by (auto; vm_compute; reflexivity).
    vm_compute. reflexivity. }
  unfold Parser.parse_query. rewrite E. split; reflexivity.
Qed.

Lemma scenario_sender_query_witness :
  clock_ok sample_date /\
  cleaned_query
    (Parser.parse_query sample_date
       (initial_state "emails from sender0@example.com" 2 5 0)) =
  "emails"%string.
Proof.
  split; [exact sample_date_ok|].
  rewrite (proj1 (scenario_sender_query sample_date
                    (initial_state "emails from sender0@example.com" 2 5 0)
                    sample_date_ok eq_refl)).
  reflexivity.
Defined.

(** C5, as stated, fails: the parse does not end with an empty cleaned query
    and the search type KEYWORD. *)
Lemma scenario_sender_query_counterexample :
  ~ (let s := Parser.parse_query sample_date
                (initial_state "emails from sender0@example.com" 2 5 0) in
     sender_emails (filters s) = ["sender0@example.com"%string] /\
     cleaned_query s = ""%string /\
     state_search_type s = KEYWORD).
Proof.
  vm_compute. intros (_ & H & _). discriminate.
Qed.

(** C6: what the code does on [important invoices from december 2024].
    The pass for [from <name>] takes [december] for a sender name and
    removes [from december], so the month-and-year pass finds nothing: no
    date is set, and [december] and [2024] end up among the keywords. *)
Theorem scenario_month_query_actual : forall today s,
  clock_ok today ->
  query s = "important invoices from december 2024"%string ->
  Parser.parse_query today s =
    set_parsed s
      (mkFilters [] None None [] None (Some true)
                 ["december"%string; "invoices"%string; "2024"%string])
      "december invoices 2024" HYBRID.
Proof.
  intros today s Hc Hq.
  assert (E : Parser.parse_body today (query s) =
              Ok (mkFilters [] None None [] None (Some true)
                    ["december"%string; "invoices"%string; "2024"%string],
                  "december invoices 2024"%string, HYBRID)).
  { rewrite Hq, parse_body_no_relative_date by (auto; vm_compute; reflexivity).
    vm_compute. reflexivity. }
  unfold Parser.parse_query. rewrite E. reflexivity.
Qed.

Lemma scenario_month_query_actual_witness :
  clock_ok sample_date /\
  date_from
    (filters
       (Parser.parse_query sample_date
          (initial_state "important invoices from december 2024" 2 5 0))) =
  None.
Proof.
  split; [exact sample_date_ok|].
  rewrite (scenario_month_query_actual sample_date
             (initial_state "important invoices from december 2024" 2 5 0)
             sample_date_ok eq_refl).
  reflexivity.
Defined.

(** The same request without [from] goes through the month-and-year pass
    and gives the filters of the scenario. *)
Lemma scenario_month_query_without_from : forall today s,
  clock_ok today ->
  query s = "important invoices december 2024"%string ->
  Parser.parse_query today s =
    set_parsed s
      (mkFilters [] (Some (DT.DateTime 2024 12 1 0 0 0 0))
                 (Some (DT.DateTime 2025 1 1 0 0 0 0)) [] None (Some true)
                 ["invoices"%string])
      "invoices" FILTERED.
Proof.
  intros today s Hc Hq.
  assert (E : Parser.parse_body today (query s) =
              Ok (mkFilters [] (Some (DT.DateTime 2024 12 1 0 0 0 0))
                    (Some (DT.DateTime 2025 1 1 0 0 0 0)) [] None (Some true)
                    ["invoices"%string],
                  "invoices"%string, FILTERED)).
  { rewrite Hq, parse_body_no_relative_date by (auto; vm_compute; reflexivity).
    vm_compute. reflexivity. }
  unfold Parser.parse_query. rewrite E. reflexivity.
Qed.

(** ** What the parser takes from the clock *)

Lemma same_but_dates_refl : forall f, same_but_dates f f.
Proof. intro f. unfold same_but_dates. intuition. Qed.

Lemma same_but_dates_set : forall f1 f2 a1 b1 a2 b2,
  same_but_dates f1 f2 ->
  same_but_dates (set_dates f1 a1 b1) (set_dates f2 a2 b2).
Proof.
  intros f1 f2 a1 b1 a2 b2 (H1 & H2 & H3 & H4 & H5 & _).
  unfold same_but_dates. simpl. intuition discriminate.
Qed.

Lemma extract_relative_date_agree : forall pats1 pats2 a1 a2,
  map fst pats1 = map fst pats2 -> pass_agree a1 a2 ->
  pass_agree (Parser.extract_relative_date pats1 a1)
             (Parser.extract_relative_date pats2 a2).
Proof.
  induction pats1 as [|[p1 [x1 y1]] pats1 IH];
    intros [|[p2 [x2 y2]] pats2] a1 a2 Hk HR; simpl in *;
    try discriminate; [assumption|].
  injection Hk as -> Hk. destruct HR as [Hq Hf]. rewrite Hq.
  destruct (Re.search p2 (snd a2)).
  - split; simpl; [reflexivity | apply same_but_dates_set; assumption].
  - apply IH; [assumption | split; assumption].
Qed.

Lemma extract_month_year_agree : forall a1 a2,
  pass_agree a1 a2 ->
  match Parser.extract_month_year a1, Parser.extract_month_year a2 with
  | Ok b1, Ok b2 => pass_agree b1 b2
  | Raise e1, Raise e2 => e1 = e2
  | _, _ => False
  end.
Proof.
  intros [f1 q1] [f2 q2] [Hq Hf]. simpl in Hq, Hf. subst q2.
  unfold Parser.extract_month_year.
  destruct (Re.search Parser.month_year_re q1) as [mm|];
    [|split; [reflexivity | assumption]].
  destruct (Parser.month_num (Re.group q1 mm 1)) as [mo|e]; cbn [bind];
    [|reflexivity].
  destruct (DT.make (Py.int (Re.group q1 mm 2)) mo 1) as [a|e]; cbn [bind];
    [|reflexivity].
  destruct (if (mo =? 12)%Z
            then DT.make (Py.int (Re.group q1 mm 2) + 1) 1 1
            else DT.make (Py.int (Re.group q1 mm 2)) (mo + 1) 1) as [b|e];
    cbn [bind]; [|reflexivity].
  split; simpl; [reflexivity | apply same_but_dates_set; assumption].
Qed.

Lemma extract_flags_agree : forall a1 a2,
  pass_agree a1 a2 ->
  pass_agree (Parser.extract_flags a1) (Parser.extract_flags a2).
Proof.
  intros [f1 q1] [f2 q2] [Hq Hf]. simpl in Hq, Hf. subst q2.
  unfold Parser.extract_flags, pass_agree, same_but_dates in *.
  destruct Hf as (H1 & H2 & H3 & H4 & H5 & H6).
  destruct (Py.contains "important" q1);
    match goal with
    | |- context [Py.contains "attachment" ?q] =>
        destruct (Py.contains "attachment" q)
    end; simpl; intuition congruence.
Qed.

Lemma label_step_agree : forall a1 a2 pl,
  pass_agree a1 a2 ->
  pass_agree (Parser.label_step a1 pl) (Parser.label_step a2 pl).
Proof.
  intros a1 a2 pl [Hq Hf]. unfold Parser.label_step. rewrite Hq.
  destruct (Re.search (fst pl) (snd a2)); [|split; assumption].
  destruct Hf as (H1 & H2 & H3 & H4 & H5 & H6).
  unfold pass_agree, same_but_dates, add_label. cbn.
  rewrite H2. intuition congruence.
Qed.

Lemma extract_labels_agree : forall a1 a2,
  pass_agree a1 a2 ->
  pass_agree (Parser.extract_labels a1) (Parser.extract_labels a2).
Proof.
  unfold Parser.extract_labels.
  induction Parser.label_patterns as [|pl l IH]; simpl; intros a1 a2 H.
  - assumption.
  - apply IH, label_step_agree, H.
Qed.

Lemma choose_search_type_agree : forall f1 f2 cq,
  same_but_dates f1 f2 ->
  Parser.choose_search_type f1 cq = Parser.choose_search_type f2 cq.
Proof.
  intros f1 f2 cq (H1 & H2 & _ & _ & _ & H6).
  unfold Parser.choose_search_type. rewrite H1, H2.
  destruct (date_from f1), (date_from f2); try reflexivity;
    destruct H6 as [Ha Hb];
    [discriminate (Hb eq_refl) | discriminate (Ha eq_refl)].
Qed.

Lemma parse_tail_agree : forall a1 a2,
  pass_agree a1 a2 ->
  agree_but_dates
    (let '(f, q) := Parser.extract_labels (Parser.extract_flags a1) in
     let q := Parser.clean_up q in
     let f := add_keywords f (Parser.remaining_keywords q) in
     let cq := if Py.nonempty (keywords f) then Py.join " " (keywords f)
               else q in
     Ok (f, cq, Parser.choose_search_type f cq))
    (let '(f, q) := Parser.extract_labels (Parser.extract_flags a2) in
     let q := Parser.clean_up q in
     let f := add_keywords f (Parser.remaining_keywords q) in
     let cq := if Py.nonempty (keywords f) then Py.join " " (keywords f)
               else q in
     Ok (f, cq, Parser.choose_search_type f cq)).
Proof.
  intros a1 a2 H.
  pose proof (extract_labels_agree _ _ (extract_flags_agree _ _ H)) as HR.
  destruct (Parser.extract_labels (Parser.extract_flags a1)) as [f1 q1].
  destruct (Parser.extract_labels (Parser.extract_flags a2)) as [f2 q2].
  destruct HR as [Hq Hf]. simpl in Hq, Hf. subst q2.
  assert (Hf' : same_but_dates
                  (add_keywords f1 (Parser.remaining_keywords
                                      (Parser.clean_up q1)))
                  (add_keywords f2 (Parser.remaining_keywords
                                      (Parser.clean_up q1)))).
  { unfold same_but_dates in *. simpl. intuition congruence. }
  simpl.
  assert (Hk : keywords f1 = keywords f2) by apply Hf.
  rewrite Hk. split; [exact Hf' | split; [reflexivity|]].
  rewrite <- Hk. etransitivity.
  - apply choose_search_type_agree. exact Hf'.
  - rewrite Hk. reflexivity.
Qed.

(** C9, as amended.  The parser is a function of the query string and of
    the clock reading it takes: for two readings (valid, from year 2 on) the
    two parses of a query raise the same error or give the same
    [cleaned_query], search type, senders, labels, flags and keywords, with
    the dates set in both or in neither; and they are identical altogether
    when the query, once the sender phrases are taken out, names none of the
    relative dates (today, yesterday, last week, ...). *)
Theorem parse_clock_dependence : forall q today1 today2,
  clock_ok today1 -> clock_ok today2 ->
  agree_but_dates (Parser.parse_body today1 q) (Parser.parse_body today2 q) /\
  (names_relative_date (snd (Parser.after_senders q)) = false ->
   Parser.parse_body today1 q = Parser.parse_body today2 q).
Proof.
  intros q today1 today2 H1 H2. split.
  - destruct (date_patterns_ok today1 H1) as (pats1 & Hp1 & Hk1).
    destruct (date_patterns_ok today2 H2) as (pats2 & Hp2 & Hk2).
    unfold Parser.parse_body. rewrite Hp1, Hp2. cbn [bind].
    assert (HR : pass_agree
                   (Parser.extract_relative_date pats1 (Parser.after_senders q))
                   (Parser.extract_relative_date pats2 (Parser.after_senders q))).
    { apply extract_relative_date_agree; [congruence|].
      split; [reflexivity | apply same_but_dates_refl]. }
    pose proof (extract_month_year_agree _ _ HR) as HM.
    destruct (Parser.extract_month_year
                (Parser.extract_relative_date pats1 (Parser.after_senders q)))
      as [b1|e1];
    destruct (Parser.extract_month_year
                (Parser.extract_relative_date pats2 (Parser.after_senders q)))
      as [b2|e2]; try contradiction; cbn [bind].
    + apply parse_tail_agree. assumption.
    + exact HM.
  - intro Hq. rewrite !parse_body_no_relative_date by assumption.
    reflexivity.
Qed.

Lemma parse_clock_dependence_witness :
  clock_ok sample_date /\ clock_ok sample_later /\
  agree_but_dates (Parser.parse_body sample_date "meetings last week")
                  (Parser.parse_body sample_later "meetings last week").
Proof.
  split; [exact sample_date_ok | split; [exact sample_later_ok|]].
  exact (proj1 (parse_clock_dependence "meetings last week"
                  sample_date sample_later sample_date_ok sample_later_ok)).
Defined.

(** C9, as stated, fails: two parses of [invoices today] one second apart
    give different [date_to]. *)
Lemma parse_pure_counterexample :
  ~ (forall q today1 today2 s,
       clock_ok today1 -> clock_ok today2 -> query s = q ->
       filters (Parser.parse_query today1 s) =
         filters (Parser.parse_query today2 s) /\
       cleaned_query (Parser.parse_query today1 s) =
         cleaned_query (Parser.parse_query today2 s)).
Proof.
  intro H.
  destruct (H "invoices today"%string sample_date sample_later
              (initial_state "invoices today" 2 5 0)
              sample_date_ok sample_later_ok eq_refl) as [Hf _].
  vm_compute in Hf. discriminate.
Qed.

(** ** Lexical search without keywords *)

(** C7, as amended.  With an empty cleaned query and no keywords the
    lexical stage does not query the store: whatever the store holds, it
    records an empty keyword result list, a count of zero and no error. *)
Theorem keyword_search_without_keywords : forall env s,
  cleaned_query s = ""%string -> keywords (filters s) = [] ->
  keyword_search env s = set_keyword_results s [] 0.
Proof.
  intros env s Hq Hk. unfold keyword_search, keyword_search_body.
  rewrite Hq, Hk. reflexivity.
Qed.

Lemma keyword_search_without_keywords_witness :
  keyword_results
    (keyword_search store_with_one_message
       (Parser.parse_query sample_date (initial_state "" 2 5 0))) = [].
Proof.
  rewrite (keyword_search_without_keywords store_with_one_message
             (Parser.parse_query sample_date (initial_state "" 2 5 0))
             eq_refl eq_refl).
  reflexivity.
Defined.

(** C7, as stated, fails: the account has a message, the query is empty,
    and the lexical stage returns nothing. *)
Lemma recent_messages_counterexample :
  ~ recent_messages_claim store_with_one_message
      (Parser.parse_query sample_date (initial_state "" 2 5 0)).
Proof.
  intro H. specialize (H [sample_row] eq_refl).
  vm_compute in H. discriminate.
Qed.

(** ** Graceful degradation *)

Lemma parse_query_keeps : forall today s,
  max_results (Parser.parse_query today s) = max_results s /\
  semantic_results (Parser.parse_query today s) = semantic_results s.
Proof.
  intros today s. unfold Parser.parse_query.
  destruct (Parser.parse_body today (query s)) as [[[f cq] t]|e];
    split; reflexivity.
Qed.

Lemma generate_query_vector_keeps : forall env s,
  max_results (generate_query_vector env s) = max_results s /\
  semantic_results (generate_query_vector env s) = semantic_results s /\
  filters (generate_query_vector env s) = filters s.
Proof.
  intros env s. unfold generate_query_vector.
  destruct (wants_vector (state_search_type s)); [|repeat split].
  destruct (Py.truthy (cleaned_query s)); [|repeat split].
  destruct (embedding_service env) as [g|]; [|repeat split].
  destruct (g (cleaned_query s)) as [result|e]; [|repeat split].
  destruct (emb_success result); repeat split.
Qed.

Lemma keyword_search_keeps : forall env s,
  max_results (keyword_search env s) = max_results s /\
  semantic_results (keyword_search env s) = semantic_results s /\
  filters (keyword_search env s) = filters s.
Proof.
  intros env s. unfold keyword_search.
  destruct (keyword_search_body env s); repeat split.
Qed.

Lemma before_semantic_keeps : forall env q acct maxr,
  max_results (before_semantic env q acct maxr) = maxr /\
  semantic_results (before_semantic env q acct maxr) = [].
Proof.
  intros env q acct maxr. unfold before_semantic.
  destruct (keyword_search_keeps env
              (generate_query_vector env
                 (Parser.parse_query (utcnow env)
                    (initial_state q acct maxr (time_start env)))))
    as (M1 & S1 & _).
  destruct (generate_query_vector_keeps env
              (Parser.parse_query (utcnow env)
                 (initial_state q acct maxr (time_start env))))
    as (M2 & S2 & _).
  destruct (parse_query_keeps (utcnow env)
              (initial_state q acct maxr (time_start env))) as (M3 & S3).
  rewrite M1, M2, M3, S1, S2, S3. split; reflexivity.
Qed.


Lemma invoke_stages : forall env q acct maxr,
  invoke env (initial_state q acct maxr (time_start env)) =
  finalize_results env
    (apply_filters
       (fuse_results
          (semantic_search env (before_semantic env q acct maxr)))).
Proof. intros. unfold invoke, before_semantic. reflexivity. Qed.

(** The last four stages after a failure of the semantic stage. *)
Lemma after_semantic_failure : forall env s e,
  semantic_search_body env s = Some (Raise e) ->
  semantic_results s = [] ->
  errors (finalize_results env
            (apply_filters (fuse_results (semantic_search env s)))) =
    errors s ++ [("Semantic search failed: " ++ e)%string] /\
  final_results (finalize_results env
                   (apply_filters (fuse_results (semantic_search env s)))) =
    post_filter (filters s) (fuse (keyword_results s) [] (max_results s)).
Proof.
  intros env s e He Hs. unfold semantic_search. rewrite He.
  destruct s. cbn in Hs. subst. split; reflexivity.
Qed.









(* ================================================================== *)
(** * Further properties of the workflow *)
(* ================================================================== *)

(** ** Keyword scores *)

Lemma term_score_bounds : forall subj snip acc term,
  acc <= term_score subj snip acc term <= acc + 3.
Proof.
  intros subj snip acc term. unfold term_score.
  destruct (Py.contains (Py.lower term) subj),
           (Py.contains (Py.lower term) snip); split; lra.
Qed.

Lemma fold_term_score_bounds : forall subj snip terms acc,
  acc <= fold_left (term_score subj snip) terms acc <=
  acc + 3 * inject_Z (Z.of_nat (List.length terms)).
Proof.
  intros subj snip terms.
  induction terms as [|t ts IH]; intro acc.
  - cbn [fold_left List.length Z.of_nat]. change (inject_Z 0) with 0.
    split; lra.
  - cbn [fold_left List.length].
    rewrite Nat2Z.inj_succ, <- Z.add_1_r, inject_Z_plus.
    pose proof (term_score_bounds subj snip acc t) as Ht.
    pose proof (IH (term_score subj snip acc t)) as Hr.
    change (inject_Z 1) with 1. split; lra.
Qed.

(** X1.  The keyword score of a message lies between 0 and 3 whatever the
    subject, the snippet and the search terms; it is 0 for no terms. *)
Theorem keyword_score_range : forall subj snip terms,
  0 <= calculate_keyword_score subj snip terms <= 3 /\
  calculate_keyword_score subj snip [] == 0.
Proof.
  intros subj snip terms. split; [|reflexivity].
  unfold calculate_keyword_score.
  destruct terms as [|t ts]; [simpl; split; lra|].
  cbn [Py.nonempty].
  pose proof (fold_term_score_bounds
                (Py.lower (none_to_empty subj))
                (Py.lower (none_to_empty snip)) (t :: ts) 0) as [Hlo Hhi].
  assert (Hn : 0 < inject_Z (Z.of_nat (List.length (t :: ts)))).
  { change 0 with (inject_Z 0). rewrite <- Zlt_Qlt. simpl. lia. }
  split.
  - apply Qle_shift_div_l; [assumption | lra].
  - apply Qle_shift_div_r; [assumption | lra].
Qed.

(** ** Order of the ranked lists *)

Lemma insert_desc_In : forall x y l,
  In y (insert_desc x l) <-> y = x \/ In y l.
Proof.
  intros x y l. split; intro H.
  - apply (Permutation_in _ (insert_desc_perm x l)) in H.
    destruct H as [H|H]; [left; symmetry | right]; assumption.
  - apply (Permutation_in _ (Permutation_sym (insert_desc_perm x l))).
    destruct H as [H|H]; [left; symmetry | right]; assumption.
Qed.

Lemma insert_desc_sorted : forall x l,
  sorted_desc l -> sorted_desc (insert_desc x l).
Proof.
  intros x l H. induction H as [|y l Hl IH Hy]; simpl.
  - constructor; constructor.
  - destruct (Qle_bool (relevance_score y) (relevance_score x)) eqn:E.
    + apply Qle_bool_iff in E. constructor.
      * constructor; assumption.
      * constructor; [assumption|].
        rewrite Forall_forall in *. intros z Hz.
        apply Qle_trans with (y := relevance_score y); auto.
    + assert (Hlt : relevance_score x < relevance_score y).
      { apply Qnot_le_lt. intro Hle. apply Qle_bool_iff in Hle. congruence. }
      constructor; [assumption|].
      rewrite Forall_forall in *. intros z Hz.
      apply insert_desc_In in Hz. destruct Hz as [->|Hz].
      * apply Qlt_le_weak. assumption.
      * apply Hy. assumption.
Qed.

Lemma sort_desc_sorted : forall l, sorted_desc (sort_desc l).
Proof.
  induction l as [|x l IH]; simpl.
  - constructor.
  - apply insert_desc_sorted. assumption.
Qed.

Lemma firstn_sorted : forall k l, sorted_desc l -> sorted_desc (firstn k l).
Proof.
  intros k l H. revert k. induction H as [|y l Hl IH Hy]; intro k.
  - rewrite firstn_nil. constructor.
  - destruct k; simpl; constructor; [apply IH|].
    rewrite Forall_forall in *. intros z Hz. apply Hy.
    eapply firstn_In. eassumption.
Qed.

Lemma insert_desc_with_score : forall q x l,
  with_score q (insert_desc x l) = with_score q (x :: l).
Proof.
  intros q x l. induction l as [|y l IH]; [reflexivity|].
  cbn [insert_desc].
  destruct (Qle_bool (relevance_score y) (relevance_score x)) eqn:E;
    [reflexivity|].
  unfold with_score in *. cbn [filter] in *. rewrite IH.
  destruct (Qeq_bool (relevance_score x) q) eqn:Ex;
    destruct (Qeq_bool (relevance_score y) q) eqn:Ey; try reflexivity.
  exfalso. apply Qeq_bool_iff in Ex. apply Qeq_bool_iff in Ey.
  assert (Hle : relevance_score y <= relevance_score x)
    by (rewrite Ex, Ey; apply Qle_refl).
  apply Qle_bool_iff in Hle. congruence.
Qed.

(** X2.  The fused list is ranked: no entry has a lower score than an entry that
    follows it.  The ranking is stable: the entries that share a score stand
    in the order in which the dictionary holds them (keyword results first,
    each in the place of its first occurrence). *)
Theorem fuse_ranked : forall kw sem cap,
  sorted_desc (fuse kw sem cap) /\
  (forall q,
     with_score q (sort_desc (dict_values (combine_results kw sem))) =
     with_score q (dict_values (combine_results kw sem))).
Proof.
  intros kw sem cap. split.
  - unfold fuse.
    destruct (slice_to_firstn _ cap
                (sort_desc (dict_values (combine_results kw sem)))) as [k E].
    rewrite E. apply firstn_sorted, sort_desc_sorted.
  - intro q. induction (dict_values (combine_results kw sem)) as [|x l IH].
    + reflexivity.
    + cbn [sort_desc fold_right]. fold (sort_desc l).
      rewrite insert_desc_with_score. unfold with_score in *.
      cbn [filter]. rewrite IH. reflexivity.
Qed.

(** ** Where the fused entries come from *)

Lemma same_message_tag : forall r t, same_message (set_search_type r t) r.
Proof. intros r t. unfold same_message. repeat split. Qed.

Lemma same_message_rescore : forall cur r0 q t,
  same_message cur r0 ->
  same_message (set_search_type (set_relevance_score cur q) t) r0.
Proof. intros cur r0 q t H. exact H. Qed.

Lemma dict_set_Forall : forall (P : SearchResult -> Prop) k v d,
  Forall (fun kv => P (snd kv)) d -> P v ->
  Forall (fun kv => P (snd kv)) (dict_set k v d).
Proof.
  intros P k v d Hd Hv. rewrite Forall_forall in *. intros [k' v'] Hin.
  destruct (dict_set_In _ _ _ _ _ Hin) as [E|H0].
  - injection E as -> ->. assumption.
  - apply (Hd _ H0).
Qed.

Lemma dict_get_Forall : forall (P : SearchResult -> Prop) k v d,
  Forall (fun kv => P (snd kv)) d -> dict_get k d = Some v -> P v.
Proof.
  intros P k v d Hd G. apply dict_get_In in G.
  rewrite Forall_forall in Hd. apply (Hd _ G).
Qed.

Lemma fuse_keyword_stems : forall pool d r,
  In r pool ->
  Forall (fun kv => stems_from pool (snd kv)) d ->
  Forall (fun kv => stems_from pool (snd kv)) (fuse_keyword d r).
Proof.
  intros pool d r Hr Hd. unfold fuse_keyword.
  destruct (dict_get (message_id r) d) as [cur|] eqn:G;
    apply dict_set_Forall; try assumption.
  - destruct (dict_get_Forall _ _ _ _ Hd G) as [[r0 [H0 S0]] _].
    split; [exists r0; split;
            [assumption | apply same_message_rescore; exact S0] |].
    simpl. auto.
  - split; [exists r; split; [assumption | apply same_message_tag] |].
    simpl. auto.
Qed.

Lemma fuse_semantic_stems : forall pool d r,
  In r pool ->
  Forall (fun kv => stems_from pool (snd kv)) d ->
  Forall (fun kv => stems_from pool (snd kv)) (fuse_semantic d r).
Proof.
  intros pool d r Hr Hd. unfold fuse_semantic.
  destruct (dict_get (message_id r) d) as [cur|] eqn:G;
    apply dict_set_Forall; try assumption.
  - destruct (dict_get_Forall _ _ _ _ Hd G) as [[r0 [H0 S0]] _].
    split; [exists r0; split;
            [assumption | apply same_message_rescore; exact S0] |].
    simpl. auto.
  - split; [exists r; split; [assumption | apply same_message_tag] |].
    simpl. auto.
Qed.

Lemma fold_stems : forall (step : dict -> SearchResult -> dict) pool,
  (forall d r, In r pool ->
     Forall (fun kv => stems_from pool (snd kv)) d ->
     Forall (fun kv => stems_from pool (snd kv)) (step d r)) ->
  forall l d,
    incl l pool ->
    Forall (fun kv => stems_from pool (snd kv)) d ->
    Forall (fun kv => stems_from pool (snd kv)) (fold_left step l d).
Proof.
  intros step pool Hstep. induction l as [|r l IH]; intros d Hl Hd; simpl.
  - assumption.
  - apply IH.
    + intros x Hx. apply Hl. right. assumption.
    + apply Hstep; [apply Hl; left; reflexivity | assumption].
Qed.

Lemma fuse_In_stems : forall kw sem cap r,
  In r (fuse kw sem cap) -> stems_from (kw ++ sem) r.
Proof.
  intros kw sem cap r H. unfold fuse in H.
  apply slice_to_In in H. apply (proj1 (sort_desc_In _ _)) in H.
  unfold dict_values in H. apply in_map_iff in H.
  destruct H as [[k v] [E H]]. simpl in E. subst v.
  assert (F : Forall (fun kv => stems_from (kw ++ sem) (snd kv))
                     (combine_results kw sem)).
  { unfold combine_results.
    apply fold_stems with (step := fuse_semantic).
    - apply fuse_semantic_stems.
    - apply incl_appr, incl_refl.
    - apply fold_stems with (step := fuse_keyword).
      + apply fuse_keyword_stems.
      + apply incl_appl, incl_refl.
      + constructor. }
  rewrite Forall_forall in F. exact (F _ H).
Qed.

(** X3.  Every entry of the fused list describes a message of one of the two
    input lists: apart from the score and the tag it is equal, field by
    field, to an input result, and its tag is [keyword], [semantic] or
    [hybrid] whatever the tags of the inputs were.  In particular the ids of
    the fused list are ids of the inputs. *)
Theorem fuse_entries_stem_from_inputs : forall kw sem cap r,
  In r (fuse kw sem cap) ->
  (exists r0, In r0 (kw ++ sem) /\ same_message r r0) /\
  In (search_type r) provenance_tags /\
  In (message_id r) (map message_id kw ++ map message_id sem).
Proof.
  intros kw sem cap r H.
  destruct (fuse_In_stems kw sem cap r H) as [[r0 [H0 S0]] Ht].
  split; [exists r0; split; assumption |].
  split; [exact Ht|].
  rewrite <- map_app. destruct S0 as [-> _]. apply in_map. exact H0.
Qed.

Lemma fuse_entries_stem_from_inputs_witness :
  In (sample_result 1 3 "keyword") (fuse sample_keyword sample_semantic 2) /\
  In (search_type (sample_result 1 3 "keyword")) provenance_tags.
Proof.
  assert (H : In (sample_result 1 3 "keyword")
                 (fuse sample_keyword sample_semantic 2))
    by (vm_compute; left; reflexivity).
  split; [exact H|].
  exact (proj1 (proj2 (fuse_entries_stem_from_inputs
                         sample_keyword sample_semantic 2 _ H))).
Defined.

(** ** Fusion of a single list *)

Lemma fold_keyword_fresh : forall kw d,
  NoDup (map message_id kw) ->
  (forall r, In r kw -> dict_get (message_id r) d = None) ->
  fold_left fuse_keyword kw d =
  d ++ map (fun r => (message_id r, set_search_type r "keyword")) kw.
Proof.
  induction kw as [|r kw IH]; simpl; intros d ND Hd.
  - rewrite app_nil_r. reflexivity.
  - inversion ND as [|? ? Hr ND']; subst.
    assert (G : dict_get (message_id r) d = None) by (apply Hd; left; auto).
    unfold fuse_keyword at 2. rewrite G, dict_set_absent by assumption.
    rewrite IH; [rewrite <- app_assoc; reflexivity | assumption |].
    intros r' Hin.
    destruct (dict_get (message_id r')
                (d ++ [(message_id r, set_search_type r "keyword")]))
      eqn:G'; [|reflexivity].
    exfalso. apply dict_get_In in G'. apply in_app_or in G'.
    destruct G' as [G'|[G'|[]]].
    + assert (X : dict_get (message_id r') d = None)
        by (apply Hd; right; assumption).
      apply dict_get_None in X. apply X.
      change (message_id r') with (fst (message_id r', s)).
      apply in_map. assumption.
    + injection G' as E _. apply Hr. rewrite E. apply in_map. assumption.
Qed.

Lemma fold_semantic_fresh : forall sem d,
  NoDup (map message_id sem) ->
  (forall r, In r sem -> dict_get (message_id r) d = None) ->
  fold_left fuse_semantic sem d =
  d ++ map (fun r => (message_id r, set_search_type r "semantic")) sem.
Proof.
  induction sem as [|r sem IH]; simpl; intros d ND Hd.
  - rewrite app_nil_r. reflexivity.
  - inversion ND as [|? ? Hr ND']; subst.
    assert (G : dict_get (message_id r) d = None) by (apply Hd; left; auto).
    unfold fuse_semantic at 2. rewrite G, dict_set_absent by assumption.
    rewrite IH; [rewrite <- app_assoc; reflexivity | assumption |].
    intros r' Hin.
    destruct (dict_get (message_id r')
                (d ++ [(message_id r, set_search_type r "semantic")]))
      eqn:G'; [|reflexivity].
    exfalso. apply dict_get_In in G'. apply in_app_or in G'.
    destruct G' as [G'|[G'|[]]].
    + assert (X : dict_get (message_id r') d = None)
        by (apply Hd; right; assumption).
      apply dict_get_None in X. apply X.
      change (message_id r') with (fst (message_id r', s)).
      apply in_map. assumption.
    + injection G' as E _. apply Hr. rewrite E. apply in_map. assumption.
Qed.

(** X4.  When only one of the two searches returned anything (its ids being
    distinct), the fused list is that search's list, each result tagged with
    its origin and its score unchanged, ranked by score and cut to the cap. *)
Theorem fuse_single_source : forall l cap,
  NoDup (map message_id l) ->
  fuse l [] cap =
    Py.slice_to cap (sort_desc (map (fun r => set_search_type r "keyword") l))
  /\
  fuse [] l cap =
    Py.slice_to cap (sort_desc (map (fun r => set_search_type r "semantic") l)).
Proof.
  intros l cap ND. unfold fuse, combine_results, dict_values. split.
  - cbn [fold_left]. rewrite fold_keyword_fresh by (auto; reflexivity).
    cbn [app]. rewrite map_map. reflexivity.
  - cbn [fold_left]. rewrite fold_semantic_fresh by (auto; reflexivity).
    cbn [app]. rewrite map_map. reflexivity.
Qed.

Lemma fuse_single_source_witness :
  NoDup (map message_id sample_keyword) /\
  map message_id (fuse sample_keyword [] 1) = [1%Z].
Proof.
  assert (N : NoDup (map message_id sample_keyword)).
  { simpl. repeat constructor; simpl; intuition discriminate. }
  split; [exact N|].
  rewrite (proj1 (fuse_single_source sample_keyword 1 N)).
  reflexivity.
Defined.

(** ** Algebra of the post-filter *)

Lemma keep_no_filters : forall r, keep no_filters r = true.
Proof. intro r. reflexivity. Qed.

(** X5.  The post-filter with the empty [SearchFilters] returns its input; two
    post-filters commute; a post-filter applied twice is the same as applied
    once. *)
Theorem post_filter_algebra : forall f g results,
  post_filter no_filters results = results /\
  post_filter f (post_filter g results) =
    post_filter g (post_filter f results) /\
  post_filter f (post_filter f results) = post_filter f results.
Proof.
  intros f g results. rewrite !post_filter_filter. repeat split.
  - induction results as [|r rs IH]; cbn [filter]; [reflexivity|].
    rewrite keep_no_filters, IH. reflexivity.
  - induction results as [|r rs IH]; simpl; [reflexivity|].
    destruct (keep g r) eqn:Eg; destruct (keep f r) eqn:Ef; simpl;
      rewrite ?Eg, ?Ef, IH; reflexivity.
  - induction results as [|r rs IH]; simpl; [reflexivity|].
    destruct (keep f r) eqn:Ef; simpl; rewrite ?Ef, IH; reflexivity.
Qed.

(** ** The pipeline as a whole *)

Lemma invoke_fold : forall env s,
  invoke env s = fold_left (fun st node => node st) (stages env) s.
Proof. intros env s. reflexivity. Qed.

Lemma parse_query_cases : forall today s,
  (exists f cq t, Parser.parse_query today s = set_parsed s f cq t) \/
  (exists e, Parser.parse_query today s = append_error s e).
Proof.
  intros today s. unfold Parser.parse_query.
  destruct (Parser.parse_body today (query s)) as [[[f cq] t]|e].
  - left. exists f, cq, t. reflexivity.
  - right. eexists. reflexivity.
Qed.

Lemma generate_query_vector_cases : forall env s,
  generate_query_vector env s = s \/
  (exists v, generate_query_vector env s = set_query_vector s v /\
             wants_vector (state_search_type s) = true /\
             cleaned_query s <> ""%string) \/
  (exists e, generate_query_vector env s = append_error s e /\
             wants_vector (state_search_type s) = true /\
             cleaned_query s <> ""%string).
Proof.
  intros env s. unfold generate_query_vector.
  destruct (wants_vector (state_search_type s)); [|left; reflexivity].
  destruct (cleaned_query s) as [|c cq] eqn:Ecq; [left; reflexivity|].
  cbn [Py.truthy].
  destruct (embedding_service env) as [g|]; [|left; reflexivity].
  destruct (g (String c cq)) as [result|e].
  - destruct (emb_success result).
    + right. left. eexists. repeat split. discriminate.
    + right. right. eexists. repeat split. discriminate.
  - right. right. eexists. repeat split. discriminate.
Qed.

Lemma keyword_search_cases : forall env s,
  (exists rs, keyword_search_body env s = Ok rs /\
              keyword_search env s =
                set_keyword_results s (sort_desc rs) (List.length rs)) \/
  (exists e, keyword_search_body env s = Raise e /\
             keyword_search env s =
               append_error s ("Keyword search failed: " ++ e)%string).
Proof.
  intros env s. unfold keyword_search.
  destruct (keyword_search_body env s) as [rs|e].
  - left. exists rs. split; reflexivity.
  - right. exists e. split; reflexivity.
Qed.

Lemma semantic_search_cases : forall env s,
  (semantic_search env s = s /\
   (query_vector s = [] \/ qdrant_service env = None)) \/
  (exists rs, semantic_search env s =
                set_semantic_results s rs (List.length rs) /\
              query_vector s <> []) \/
  (exists e, semantic_search env s = append_error s e /\
             query_vector s <> []).
Proof.
  intros env s. unfold semantic_search, semantic_search_body.
  destruct (query_vector s) as [|x v] eqn:Ev; [left; split; auto|].
  cbn [Py.nonempty].
  destruct (qdrant_service env) as [g|]; [|left; split; auto].
  match goal with
  | |- context [bind ?c ?k] => destruct (bind c k) as [rs|e]
  end.
  - right. left. exists rs. split; [reflexivity | discriminate].
  - right. right. eexists. split; [reflexivity | discriminate].
Qed.

(** X6.  Every node of the graph leaves the errors recorded before it in place
    and adds at most one; the graph is the composition of its seven nodes. *)
Theorem errors_only_grow : forall env node s,
  In node (stages env) ->
  exists added,
    errors (node s) = errors s ++ added /\ (List.length added <= 1)%nat.
Proof.
  intros env node s Hin. unfold stages in Hin. simpl in Hin.
  destruct Hin as [<-|[<-|[<-|[<-|[<-|[<-|[<-|[]]]]]]]].
  - destruct (parse_query_cases (utcnow env) s)
      as [(f & cq & t & ->)|(e & ->)].
    + exists []. rewrite app_nil_r. split; [reflexivity | simpl; lia].
    + exists [e]. split; [reflexivity | simpl; lia].
  - destruct (generate_query_vector_cases env s)
      as [->|[(v & -> & _)|(e & -> & _)]].
    + exists []. rewrite app_nil_r. split; [reflexivity | simpl; lia].
    + exists []. rewrite app_nil_r. split; [reflexivity | simpl; lia].
    + exists [e]. split; [reflexivity | simpl; lia].
  - destruct (keyword_search_cases env s) as [(rs & _ & ->)|(e & _ & ->)].
    + exists []. rewrite app_nil_r. split; [reflexivity | simpl; lia].
    + eexists [_]. split; [reflexivity | simpl; lia].
  - destruct (semantic_search_cases env s)
      as [[-> _]|[(rs & -> & _)|(e & -> & _)]].
    + exists []. rewrite app_nil_r. split; [reflexivity | simpl; lia].
    + exists []. rewrite app_nil_r. split; [reflexivity | simpl; lia].
    + exists [e]. split; [reflexivity | simpl; lia].
  - exists []. rewrite app_nil_r. split; [reflexivity | simpl; lia].
  - exists []. rewrite app_nil_r. split; [reflexivity | simpl; lia].
  - exists []. rewrite app_nil_r. split; [reflexivity | simpl; lia].
Qed.

Lemma errors_only_grow_witness :
  In (semantic_search vector_store_down) (stages vector_store_down) /\
  exists added,
    errors (semantic_search vector_store_down
              (before_semantic vector_store_down "project update" 2 5)) =
    errors (before_semantic vector_store_down "project update" 2 5) ++ added
    /\ (List.length added <= 1)%nat.
Proof.
  assert (H : In (semantic_search vector_store_down)
                 (stages vector_store_down))
    by (right; right; right; left; reflexivity).
  split; [exact H|].
  exact (errors_only_grow vector_store_down
           (semantic_search vector_store_down)
           (before_semantic vector_store_down "project update" 2 5) H).
Defined.

Lemma keyword_search_frame : forall env s,
  query_vector (keyword_search env s) = query_vector s /\
  filters (keyword_search env s) = filters s /\
  max_results (keyword_search env s) = max_results s /\
  semantic_results (keyword_search env s) = semantic_results s /\
  total_semantic_matches (keyword_search env s) = total_semantic_matches s.
Proof.
  intros env s.
  destruct (keyword_search_cases env s) as [(rs & _ & ->)|(e & _ & ->)];
    repeat split.
Qed.

Lemma semantic_search_frame : forall env s,
  filters (semantic_search env s) = filters s /\
  max_results (semantic_search env s) = max_results s /\
  keyword_results (semantic_search env s) = keyword_results s /\
  total_keyword_matches (semantic_search env s) = total_keyword_matches s.
Proof.
  intros env s.
  destruct (semantic_search_cases env s)
    as [[-> _]|[(rs & -> & _)|(e & -> & _)]]; repeat split.
Qed.

Lemma keyword_search_no_terms : forall env s,
  cleaned_query s = ""%string -> keywords (filters s) = [] ->
  errors (keyword_search env s) = errors s /\
  query_vector (keyword_search env s) = query_vector s.
Proof.
  intros env s Hq Hk. unfold keyword_search, keyword_search_body.
  rewrite Hq, Hk. split; reflexivity.
Qed.

Lemma semantic_search_no_vector : forall env s,
  query_vector s = [] -> semantic_search env s = s.
Proof.
  intros env s H. unfold semantic_search, semantic_search_body.
  rewrite H. reflexivity.
Qed.

Lemma error_count_after_semantic : forall env s0,
  errors s0 = [] -> query_vector s0 = [] ->
  cleaned_query s0 = ""%string -> keywords (filters s0) = [] ->
  (List.length
     (errors
        (semantic_search env
           (keyword_search env
              (generate_query_vector env
                 (Parser.parse_query (utcnow env) s0))))) <= 2)%nat.
Proof.
  intros env s0 He Hv Hq Hk.
  destruct (parse_query_cases (utcnow env) s0)
    as [(f & cq & t & ->)|(e & ->)].
  - set (s1 := set_parsed s0 f cq t).
    assert (He1 : errors s1 = []) by exact He.
    assert (Hv1 : query_vector s1 = []) by exact Hv.
    destruct (generate_query_vector_cases env s1)
      as [->|[(v & -> & _)|(e & -> & _)]].
    + destruct (keyword_search_cases env s1)
        as [(rs & _ & Hks)|(e & _ & Hks)];
        rewrite semantic_search_no_vector by (rewrite Hks; exact Hv1);
        rewrite Hks; cbn [errors set_keyword_results append_error];
        rewrite He1; simpl; lia.
    + set (s2 := set_query_vector s1 v).
      assert (He2 : errors s2 = []) by exact He1.
      destruct (keyword_search_cases env s2)
        as [(rs & _ & Hks)|(e & _ & Hks)]; rewrite Hks;
        match goal with
        | |- context [semantic_search env ?s] =>
            destruct (semantic_search_cases env s)
              as [[-> _]|[(rs' & -> & _)|(e' & -> & _)]]
        end;
        cbn [errors set_keyword_results append_error set_semantic_results];
        rewrite He2; simpl; lia.
    + set (s2 := append_error s1 e).
      assert (Hv2 : query_vector s2 = []) by exact Hv1.
      assert (He2 : errors s2 = [e])
        by (unfold s2; cbn [errors append_error]; rewrite He1; reflexivity).
      destruct (keyword_search_cases env s2)
        as [(rs & _ & Hks)|(e' & _ & Hks)];
        rewrite semantic_search_no_vector by (rewrite Hks; exact Hv2);
        rewrite Hks; cbn [errors set_keyword_results append_error];
        rewrite He2; simpl; lia.
  - set (s1 := append_error s0 e).
    assert (Hq1 : cleaned_query s1 = ""%string) by exact Hq.
    assert (Hk1 : keywords (filters s1) = []) by exact Hk.
    assert (Hv1 : query_vector s1 = []) by exact Hv.
    assert (He1 : errors s1 = [e])
      by (unfold s1; cbn [errors append_error]; rewrite He; reflexivity).
    assert (Hg : generate_query_vector env s1 = s1).
    { destruct (generate_query_vector_cases env s1)
        as [H|[(v & _ & _ & H)|(e' & _ & _ & H)]];
        [exact H | contradiction | contradiction]. }
    rewrite Hg.
    destruct (keyword_search_no_terms env s1 Hq1 Hk1) as [Hke Hkv].
    rewrite semantic_search_no_vector by (rewrite Hkv; exact Hv1).
    rewrite Hke, He1. simpl. lia.
Qed.

Lemma tail_stages_frame : forall env s,
  errors (finalize_results env (apply_filters (fuse_results s))) = errors s /\
  final_results (finalize_results env (apply_filters (fuse_results s))) =
    post_filter (filters s)
      (fuse (keyword_results s) (semantic_results s) (max_results s)) /\
  total_final_results (finalize_results env (apply_filters (fuse_results s))) =
    List.length
      (post_filter (filters s)
         (fuse (keyword_results s) (semantic_results s) (max_results s))) /\
  total_keyword_matches
    (finalize_results env (apply_filters (fuse_results s))) =
    total_keyword_matches s /\
  total_semantic_matches
    (finalize_results env (apply_filters (fuse_results s))) =
    total_semantic_matches s.
Proof. intros env s. repeat split. Qed.

(** X7.  A search reports at most two errors: a parse failure leaves nothing for
    the later stages to fail on, and an embedding failure leaves no query
    vector, so that the semantic stage is skipped. *)
Theorem at_most_two_errors : forall env q acct maxr,
  (List.length (report_errors (search_emails env q acct maxr)) <= 2)%nat.
Proof.
  intros env q acct maxr. unfold search_emails.
  cbn [report_errors]. rewrite invoke_stages.
  destruct (tail_stages_frame env
              (semantic_search env (before_semantic env q acct maxr)))
    as (-> & _).
  unfold before_semantic. apply error_count_after_semantic; reflexivity.
Qed.

Lemma NoDup_map_filter : forall (p : SearchResult -> bool) l,
  NoDup (map message_id l) -> NoDup (map message_id (filter p l)).
Proof.
  intros p l. induction l as [|x l IH]; simpl; intro H.
  - constructor.
  - inversion H as [|? ? Hx Hl]; subst.
    destruct (p x); simpl; [constructor|]; auto.
    intro Hin. apply Hx. apply in_map_iff in Hin.
    destruct Hin as [y [E Hy]]. apply filter_In in Hy.
    rewrite <- E. apply in_map. apply Hy.
Qed.

(** X8.  What every report satisfies, whatever the collaborators do: its result
    count, the [final_results] statistic and the length of its result list
    are the same number; no message id occurs twice among its results; and
    for a cap that is not negative it holds at most [max_results] results. *)
Theorem report_invariants : forall env q acct maxr,
  total_results (search_emails env q acct maxr) =
    List.length (results (search_emails env q acct maxr)) /\
  stat_final_results (search_emails env q acct maxr) =
    List.length (results (search_emails env q acct maxr)) /\
  NoDup (map item_message_id (results (search_emails env q acct maxr))) /\
  ((0 <= maxr)%Z ->
   (Z.of_nat (total_results (search_emails env q acct maxr)) <= maxr)%Z).
Proof.
  intros env q acct maxr. unfold search_emails.
  cbn [total_results stat_final_results results]. rewrite invoke_stages.
  destruct (tail_stages_frame env
              (semantic_search env (before_semantic env q acct maxr)))
    as (_ & -> & -> & _).
  destruct (semantic_search_frame env (before_semantic env q acct maxr))
    as (_ & -> & _).
  destruct (before_semantic_keeps env q acct maxr) as [-> _].
  rewrite !length_map, post_filter_filter. repeat split.
  - rewrite map_map. cbn [item_message_id to_item].
    apply NoDup_map_filter.
    unfold fuse.
    match goal with
    | |- context [Py.slice_to maxr ?l] =>
        destruct (slice_to_firstn _ maxr l) as [k E]; rewrite E
    end.
    rewrite <- firstn_map. apply NoDup_firstn.
    match goal with
    | |- context [combine_results ?a ?b] =>
        apply Permutation_NoDup
          with (l := map message_id (dict_values (combine_results a b)));
        [ apply Permutation_map, Permutation_sym, sort_desc_perm
        | rewrite dict_values_ids by apply combine_results_wf;
          apply combine_results_wf ]
    end.
  - intro Hcap.
    match goal with
    | |- (Z.of_nat (List.length (filter ?p ?l)) <= _)%Z =>
        pose proof (filter_length_le p l) as Hf;
        assert (Hl : (Z.of_nat (List.length l) <= maxr)%Z)
          by (unfold fuse; apply slice_to_length; assumption)
    end.
    lia.
Qed.

Lemma report_invariants_witness :
  (0 <= 5)%Z /\
  (Z.of_nat (total_results
               (search_emails vector_store_down "project update" 2 5)) <= 5)%Z.
Proof.
  split; [lia|].
  apply (proj2 (proj2 (proj2
           (report_invariants vector_store_down "project update" 2 5)))).
  lia.
Defined.

(** ** Searches that do not reach the services *)

Lemma search_emails_stages : forall env q acct maxr,
  search_emails env q acct maxr =
  let s := semantic_search env (before_semantic env q acct maxr) in
  let fin := finalize_results env (apply_filters (fuse_results s)) in
  mkReport (Nat.eqb (List.length (errors fin)) 0) q
           (SearchType_value (state_search_type fin))
           (List.length (map to_item (final_results fin)))
           (map to_item (final_results fin))
           (round3 (processing_time fin))
           (total_keyword_matches fin) (total_semantic_matches fin)
           (total_final_results fin) (errors fin).
Proof.
  intros env q acct maxr. unfold search_emails. rewrite invoke_stages.
  reflexivity.
Qed.

Lemma before_semantic_keyword : forall env q acct maxr,
  before_semantic env q acct maxr =
  keyword_search env (before_keyword env q acct maxr).
Proof. intros. unfold before_semantic, before_keyword. reflexivity. Qed.

Lemma before_semantic_no_matches : forall env q acct maxr,
  total_semantic_matches (before_semantic env q acct maxr) = 0%nat /\
  semantic_results (before_semantic env q acct maxr) = [].
Proof.
  intros env q acct maxr. rewrite before_semantic_keyword.
  destruct (keyword_search_frame env (before_keyword env q acct maxr))
    as (_ & _ & _ & -> & ->).
  unfold before_keyword.
  match goal with
  | |- context [generate_query_vector env ?s] =>
      destruct (generate_query_vector_cases env s)
        as [->|[(v & -> & _)|(e & -> & _)]]
  end;
  match goal with
  | |- context [Parser.parse_query ?t ?s] =>
      destruct (parse_query_cases t s) as [(f & cq & ty & ->)|(e' & ->)]
  end; split; reflexivity.
Qed.

Lemma generate_query_vector_ext : forall env1 env2 s,
  embedding_service env1 = embedding_service env2 ->
  generate_query_vector env1 s = generate_query_vector env2 s.
Proof.
  intros env1 env2 s H. unfold generate_query_vector. rewrite H. reflexivity.
Qed.

Lemma before_keyword_ext : forall env1 env2 q acct maxr,
  embedding_service env1 = embedding_service env2 /\
  utcnow env1 = utcnow env2 /\ time_start env1 = time_start env2 ->
  before_keyword env1 q acct maxr = before_keyword env2 q acct maxr.
Proof.
  intros env1 env2 q acct maxr (H1 & H2 & H3). unfold before_keyword.
  rewrite H2, H3. apply generate_query_vector_ext. exact H1.
Qed.

Lemma keyword_search_ext : forall env1 env2 s,
  db_query env1 = db_query env2 ->
  keyword_search env1 s = keyword_search env2 s.
Proof.
  intros env1 env2 s H. unfold keyword_search, keyword_search_body.
  rewrite H. reflexivity.
Qed.

Lemma finalize_results_ext : forall env1 env2 s,
  time_end env1 = time_end env2 ->
  finalize_results env1 s = finalize_results env2 s.
Proof.
  intros env1 env2 s H. unfold finalize_results. rewrite H. reflexivity.
Qed.

Lemma before_semantic_no_vector : forall env q acct maxr,
  query_vector (before_keyword env q acct maxr) = [] ->
  query_vector (before_semantic env q acct maxr) = [].
Proof.
  intros env q acct maxr H. rewrite before_semantic_keyword.
  destruct (keyword_search_frame env (before_keyword env q acct maxr))
    as (-> & _). exact H.
Qed.

(** X9.  When no query vector comes out of the embedding stage (search type
    KEYWORD, no embedding service, a failed or empty embedding), the vector
    store is not consulted: the report is the one the same search gives
    without a vector store, it counts no semantic match, and its results are
    the keyword results, fused, cut and post-filtered. *)
Theorem no_vector_no_semantic_search : forall env q acct maxr,
  query_vector (before_keyword env q acct maxr) = [] ->
  search_emails env q acct maxr =
    search_emails (without_vector_store env) q acct maxr /\
  stat_semantic_matches (search_emails env q acct maxr) = 0%nat /\
  results (search_emails env q acct maxr) =
    map to_item
      (post_filter (filters (before_semantic env q acct maxr))
         (fuse (keyword_results (before_semantic env q acct maxr)) [] maxr)).
Proof.
  intros env q acct maxr Hv.
  pose proof (before_semantic_no_vector env q acct maxr Hv) as Hv'.
  assert (Hsame : before_semantic (without_vector_store env) q acct maxr =
                  before_semantic env q acct maxr).
  { rewrite !before_semantic_keyword.
    rewrite (keyword_search_ext (without_vector_store env) env)
      by reflexivity.
    rewrite (before_keyword_ext (without_vector_store env) env)
      by (repeat split).
    reflexivity. }
  rewrite !search_emails_stages. cbv zeta. rewrite Hsame.
  rewrite !semantic_search_no_vector by exact Hv'.
  rewrite (finalize_results_ext (without_vector_store env) env)
    by reflexivity.
  split; [reflexivity|].
  destruct (tail_stages_frame env (before_semantic env q acct maxr))
    as (_ & HF & _ & _ & HS).
  cbn [stat_semantic_matches results]. rewrite HS, HF.
  destruct (before_semantic_no_matches env q acct maxr) as [-> ->].
  destruct (before_semantic_keeps env q acct maxr) as [-> _].
  split; reflexivity.
Qed.

Lemma no_vector_no_semantic_search_witness :
  query_vector (before_keyword store_with_one_message "hi" 2 5) = [] /\
  stat_semantic_matches (search_emails store_with_one_message "hi" 2 5)
    = 0%nat.
Proof.
  assert (H : query_vector (before_keyword store_with_one_message "hi" 2 5)
              = []) by (vm_compute; reflexivity).
  split; [exact H|].
  exact (proj1 (proj2 (no_vector_no_semantic_search
                         store_with_one_message "hi" 2 5 H))).
Defined.

Lemma generate_query_vector_keyword : forall env s,
  state_search_type s = KEYWORD -> generate_query_vector env s = s.
Proof.
  intros env s H. unfold generate_query_vector. rewrite H. reflexivity.
Qed.

(** X10.  A query that the parser classes as KEYWORD (cleaned query of at most
    three characters) reaches neither the embedding service nor the vector
    store: the report does not depend on them. *)
Theorem keyword_type_skips_services : forall env q acct maxr,
  state_search_type
    (Parser.parse_query (utcnow env)
       (initial_state q acct maxr (time_start env))) = KEYWORD ->
  search_emails env q acct maxr =
    search_emails (without_services env) q acct maxr.
Proof.
  intros env q acct maxr Ht.
  assert (Hk : before_keyword env q acct maxr =
               Parser.parse_query (utcnow env)
                 (initial_state q acct maxr (time_start env))).
  { unfold before_keyword. apply generate_query_vector_keyword. exact Ht. }
  assert (Hk' : before_keyword (without_services env) q acct maxr =
                Parser.parse_query (utcnow env)
                  (initial_state q acct maxr (time_start env))).
  { unfold before_keyword.
    apply (generate_query_vector_keyword (without_services env)). exact Ht. }
  assert (Hv : query_vector (before_keyword env q acct maxr) = []).
  { rewrite Hk.
    destruct (parse_query_cases (utcnow env)
                (initial_state q acct maxr (time_start env)))
      as [(f & cq & t & ->)|(e & ->)]; reflexivity. }
  pose proof (before_semantic_no_vector env q acct maxr Hv) as Hv'.
  assert (Hb : before_semantic (without_services env) q acct maxr =
               before_semantic env q acct maxr).
  { rewrite !before_semantic_keyword, Hk, Hk'.
    apply keyword_search_ext. reflexivity. }
  rewrite !search_emails_stages. cbv zeta. rewrite Hb.
  rewrite !semantic_search_no_vector by exact Hv'.
  rewrite (finalize_results_ext (without_services env) env) by reflexivity.
  reflexivity.
Qed.

Lemma keyword_type_skips_services_witness :
  search_emails vector_store_down "hi" 2 5 =
  search_emails (without_services vector_store_down) "hi" 2 5.
Proof.
  apply (keyword_type_skips_services vector_store_down "hi" 2 5).
  vm_compute. reflexivity.
Defined.

(** ** Degraded searches *)

Lemma parsed_cases : forall env q acct maxr,
  errors (parsed env q acct maxr) = [] /\
    query_vector (parsed env q acct maxr) = [] /\
    total_keyword_matches (parsed env q acct maxr) = 0%nat \/
  cleaned_query (parsed env q acct maxr) = ""%string.
Proof.
  intros env q acct maxr. unfold parsed.
  destruct (parse_query_cases (utcnow env)
              (initial_state q acct maxr (time_start env)))
    as [(f & cq & t & ->)|(e & ->)].
  - left. repeat split.
  - right. reflexivity.
Qed.

Lemma generate_query_vector_failure : forall env s g msg,
  embedding_service env = Some g ->
  wants_vector (state_search_type s) = true ->
  cleaned_query s <> ""%string ->
  embedding_failure g (cleaned_query s) = Some msg ->
  generate_query_vector env s = append_error s msg.
Proof.
  intros env s g msg Hg Hw Hq Hf.
  unfold generate_query_vector. rewrite Hw, Hg.
  destruct (cleaned_query s) as [|c cq] eqn:Ecq; [contradiction|].
  cbn [Py.truthy]. unfold embedding_failure in Hf.
  destruct (g (String c cq)) as [result|e].
  - destruct (emb_success result); [discriminate|].
    injection Hf as <-. reflexivity.
  - injection Hf as <-. reflexivity.
Qed.

(** X11.  When the embedding service raises or answers without success, the
    search degrades to the keyword search: the failure is the first error of
    the report, the success flag is false, the vector store is not
    consulted and no semantic match is counted. *)
Theorem embedding_failure_degrades : forall env q acct maxr g msg,
  embedding_service env = Some g ->
  wants_vector (state_search_type (parsed env q acct maxr)) = true ->
  cleaned_query (parsed env q acct maxr) <> ""%string ->
  embedding_failure g (cleaned_query (parsed env q acct maxr)) = Some msg ->
  hd_error (report_errors (search_emails env q acct maxr)) = Some msg /\
  success (search_emails env q acct maxr) = false /\
  stat_semantic_matches (search_emails env q acct maxr) = 0%nat /\
  search_emails env q acct maxr =
    search_emails (without_vector_store env) q acct maxr.
Proof.
  intros env q acct maxr g msg Hg Hw Hq Hf.
  assert (Hbk : before_keyword env q acct maxr =
                append_error (parsed env q acct maxr) msg).
  { unfold before_keyword. fold (parsed env q acct maxr).
    apply generate_query_vector_failure with (g := g); assumption. }
  destruct (parsed_cases env q acct maxr) as [(He & Hv & _)|Hc];
    [|contradiction].
  assert (Hv0 : query_vector (before_keyword env q acct maxr) = [])
    by (rewrite Hbk; exact Hv).
  pose proof (before_semantic_no_vector env q acct maxr Hv0) as Hv1.
  assert (Herr : exists added,
             errors (before_semantic env q acct maxr) = msg :: added).
  { rewrite before_semantic_keyword.
    destruct (keyword_search_cases env (before_keyword env q acct maxr))
      as [(rs & _ & ->)|(e & _ & ->)];
      cbn [errors set_keyword_results append_error];
      rewrite Hbk; cbn [errors append_error]; rewrite He;
      eexists; reflexivity. }
  destruct Herr as [added Herr].
  assert (Hsame : before_semantic (without_vector_store env) q acct maxr =
                  before_semantic env q acct maxr).
  { rewrite !before_semantic_keyword.
    rewrite (keyword_search_ext (without_vector_store env) env)
      by reflexivity.
    rewrite (before_keyword_ext (without_vector_store env) env)
      by (repeat split).
    reflexivity. }
  rewrite !search_emails_stages. cbv zeta. rewrite Hsame.
  rewrite !semantic_search_no_vector by exact Hv1.
  rewrite (finalize_results_ext (without_vector_store env) env)
    by reflexivity.
  destruct (tail_stages_frame env (before_semantic env q acct maxr))
    as (HE & _ & _ & _ & HS).
  cbn [report_errors success stat_semantic_matches].
  rewrite HE, HS, Herr.
  destruct (before_semantic_no_matches env q acct maxr) as [-> _].
  repeat split.
Qed.

Lemma embedding_failure_degrades_witness :
  stat_semantic_matches (search_emails embedding_down "project update" 2 5)
    = 0%nat /\
  success (search_emails embedding_down "project update" 2 5) = false.
Proof.
  destruct (embedding_failure_degrades embedding_down "project update" 2 5
              (fun _ => Raise "quota exceeded")
              "Vector generation error: quota exceeded" eq_refl)
    as (_ & Hs & Hm & _).
  - vm_compute. reflexivity.
  - vm_compute. discriminate.
  - vm_compute. reflexivity.
  - split; assumption.
Defined.

Lemma before_keyword_no_matches : forall env q acct maxr,
  total_keyword_matches (before_keyword env q acct maxr) = 0%nat /\
  keyword_results (before_keyword env q acct maxr) = [] /\
  max_results (before_keyword env q acct maxr) = maxr.
Proof.
  intros env q acct maxr. unfold before_keyword.
  match goal with
  | |- context [generate_query_vector env ?s] =>
      destruct (generate_query_vector_cases env s)
        as [->|[(v & -> & _)|(e & -> & _)]]
  end;
  match goal with
  | |- context [Parser.parse_query ?t ?s] =>
      destruct (parse_query_cases t s) as [(f & cq & ty & ->)|(e' & ->)]
  end; repeat split.
Qed.

Lemma append_error_frame : forall s msg,
  total_keyword_matches (append_error s msg) = total_keyword_matches s /\
  filters (append_error s msg) = filters s /\
  keyword_results (append_error s msg) = keyword_results s /\
  max_results (append_error s msg) = max_results s.
Proof. intros s msg. repeat split. Qed.

(** X12.  When the message store raises, the search degrades to the semantic
    search: the failure is recorded, the success flag is false, no keyword
    match is counted, and the results are the semantic results alone, fused,
    cut and post-filtered. *)
Theorem store_failure_degrades : forall env q acct maxr e,
  keyword_search_body env (before_keyword env q acct maxr) = Raise e ->
  In ("Keyword search failed: " ++ e)%string
     (report_errors (search_emails env q acct maxr)) /\
  success (search_emails env q acct maxr) = false /\
  stat_keyword_matches (search_emails env q acct maxr) = 0%nat /\
  results (search_emails env q acct maxr) =
    map to_item
      (post_filter (filters (before_keyword env q acct maxr))
         (fuse []
            (semantic_results
               (semantic_search env (before_semantic env q acct maxr)))
            maxr)).
Proof.
  intros env q acct maxr e He.
  destruct (before_keyword_no_matches env q acct maxr) as (Hm & Hr & Hx).
  assert (Hbs : before_semantic env q acct maxr =
                append_error (before_keyword env q acct maxr)
                  ("Keyword search failed: " ++ e)%string).
  { rewrite before_semantic_keyword. unfold keyword_search.
    rewrite He. reflexivity. }
  rewrite search_emails_stages. cbv zeta.
  destruct (tail_stages_frame env
              (semantic_search env (before_semantic env q acct maxr)))
    as (HE & HF & _ & HK & _).
  cbn [report_errors success stat_keyword_matches results].
  rewrite HE, HF, HK.
  destruct (semantic_search_frame env (before_semantic env q acct maxr))
    as (-> & -> & -> & ->).
  assert (Hin : In ("Keyword search failed: " ++ e)%string
                   (errors
                      (semantic_search env (before_semantic env q acct maxr)))).
  { destruct (semantic_search_cases env (before_semantic env q acct maxr))
      as [[-> _]|[(rs & -> & _)|(e' & -> & _)]];
      cbn [errors set_semantic_results append_error]; rewrite Hbs;
      cbn [errors append_error]; rewrite ?in_app_iff; simpl; auto. }
  split; [exact Hin|].
  split.
  { destruct (errors
                (semantic_search env (before_semantic env q acct maxr)));
      [contradiction | reflexivity]. }
  rewrite Hbs.
  destruct (append_error_frame (before_keyword env q acct maxr)
              ("Keyword search failed: " ++ e)%string)
    as (-> & -> & -> & ->).
  rewrite Hm, Hr, Hx. split; reflexivity.
Qed.

Lemma store_failure_degrades_witness :
  keyword_search_body store_down (before_keyword store_down "project plan" 2 5)
    = Raise "could not connect to server" /\
  map item_search_type (results (search_emails store_down "project plan" 2 5))
    = ["semantic"%string].
Proof.
  assert (H : keyword_search_body store_down
                (before_keyword store_down "project plan" 2 5) =
              Raise "could not connect to server")
    by (vm_compute; reflexivity).
  split; [exact H|].
  destruct (store_failure_degrades store_down "project plan" 2 5 _ H)
    as (_ & _ & _ & ->).
  vm_compute. reflexivity.
Defined.

(** ** Semantic hits carry no labels *)

Lemma convert_hits_bare : forall env vs i rs,
  convert_hits env i vs = Ok rs ->
  Forall (fun r => result_labels r = [] /\ result_has_attachments r = false)
         rs.
Proof.
  intros env vs. induction vs as [|v vs IH]; intros i rs H; simpl in H.
  - injection H as <-. constructor.
  - unfold vector_to_result in H.
    destruct (if Py.truthy (vec_date_sent v)
              then fromisoformat env (vec_date_sent v)
              else Ok (utcnow_hit env i)) as [d|e]; [|discriminate].
    cbn [bind] in H.
    destruct (convert_hits env (S i) vs) as [rs'|e] eqn:E; [|discriminate].
    cbn [bind] in H. injection H as <-.
    constructor; [split; reflexivity | apply (IH (S i)); exact E].
Qed.

Lemma keep_bare_false : forall f r,
  result_labels r = [] -> result_has_attachments r = false ->
  is_important f = Some true \/ has_attachments f = Some true \/
  labels f <> [] ->
  keep f r = false.
Proof.
  intros f r Hl Ha H.
  destruct (keep f r) eqn:E; [|reflexivity].
  apply keep_satisfies in E.
  destruct E as (_ & _ & _ & Hi & Hat & Hlab).
  rewrite Hl in *. rewrite Ha in *.
  destruct H as [H|[H|H]].
  - destruct (proj2 (Hi true H) eq_refl).
  - discriminate (Hat true H).
  - destruct Hlab as [Hlab|[l [_ []]]]. contradiction.
Qed.

(** X13.  A result built from a vector hit has no labels and no attachment flag.
    So when the filters ask for important messages, for attachments or for
    a label, a search in which the keyword stage found nothing returns
    nothing, whatever the vector store returned. *)
Theorem semantic_only_fails_metadata_filters : forall env vs i rs f cap,
  convert_hits env i vs = Ok rs ->
  is_important f = Some true \/ has_attachments f = Some true \/
  labels f <> [] ->
  post_filter f (fuse [] rs cap) = [].
Proof.
  intros env vs i rs f cap Hc Hf.
  pose proof (convert_hits_bare env vs i rs Hc) as Hb.
  rewrite Forall_forall in Hb.
  rewrite post_filter_filter.
  assert (Hall : forall r, In r (fuse [] rs cap) -> keep f r = false).
  { intros r Hr.
    destruct (fuse_In_stems [] rs cap r Hr) as [[r0 [H0 S0]] _].
    destruct (Hb r0 H0) as [Hl Ha].
    destruct S0 as (_ & _ & _ & _ & _ & _ & _ & El & Ea).
    apply keep_bare_false; congruence. }
  induction (fuse [] rs cap) as [|x l IH]; [reflexivity|].
  cbn [filter]. rewrite (Hall x (or_introl eq_refl)).
  apply IH. intros r Hr. apply Hall. right. exact Hr.
Qed.

Lemma semantic_only_fails_metadata_filters_witness :
  post_filter (mkFilters [] None None [] (Some true) None [])
    (fuse [] [mkResult 9 "ext-9" "Project plan" "plan" "eve@example.com" ""
                       sample_date (7 # 10) "semantic" [] false] 5) = [].
Proof.
  apply (semantic_only_fails_metadata_filters store_down
           [mkVector 9 "ext-9" (7 # 10) "Project plan" "plan"
                     "eve@example.com" ""] 0).
  - reflexivity.
  - right. left. reflexivity.
Defined.

(** ** Case in the parser *)

Lemma lower_char_not_upper : forall c, Py.is_upper (Py.lower_char c) = false.
Proof.
  intros [b0 b1 b2 b3 b4 b5 b6 b7].
  destruct b0, b1, b2, b3, b4, b5, b6, b7; reflexivity.
Qed.

Lemma no_upper_lower : forall s, no_upper (Py.lower s) = true.
Proof.
  induction s as [|c s IH]; simpl; [reflexivity|].
  rewrite lower_char_not_upper, IH. reflexivity.
Qed.

Lemma lower_no_upper : forall s, no_upper s = true -> Py.lower s = s.
Proof.
  induction s as [|c s IH]; simpl; intro H; [reflexivity|].
  apply andb_true_iff in H. destruct H as [Hc Hs].
  rewrite (IH Hs). unfold Py.lower_char.
  apply negb_true_iff in Hc. rewrite Hc. reflexivity.
Qed.

Lemma no_upper_app : forall a b,
  no_upper (a ++ b)%string = no_upper a && no_upper b.
Proof.
  induction a as [|c a IH]; intro b; simpl; [reflexivity|].
  rewrite IH, andb_assoc. reflexivity.
Qed.

Lemma no_upper_substring : forall s n m,
  no_upper s = true -> no_upper (String.substring n m s) = true.
Proof.
  induction s as [|c s IH]; intros n m H.
  - destruct n, m; reflexivity.
  - simpl in H. apply andb_true_iff in H. destruct H as [Hc Hs].
    destruct n as [|n]; simpl.
    + destruct m as [|m]; simpl; [reflexivity|].
      rewrite Hc, IH by assumption. reflexivity.
    + apply IH. assumption.
Qed.

Lemma no_upper_lstrip : forall s,
  no_upper s = true -> no_upper (Py.lstrip s) = true.
Proof.
  induction s as [|c s IH]; simpl; intro H; [reflexivity|].
  destruct (Py.is_space c); [|exact H].
  apply IH. apply andb_true_iff in H. apply H.
Qed.

Lemma no_upper_rstrip : forall s,
  no_upper s = true -> no_upper (Py.rstrip s) = true.
Proof.
  induction s as [|c s IH]; simpl; intro H; [reflexivity|].
  apply andb_true_iff in H. destruct H as [Hc Hs]. specialize (IH Hs).
  destruct (Py.rstrip s) as [|d r].
  - destruct (Py.is_space c); simpl; [reflexivity|].
    rewrite Hc. reflexivity.
  - simpl in *. rewrite Hc. exact IH.
Qed.

Lemma no_upper_group : forall s f i,
  no_upper s = true -> no_upper (Re.group s f i) = true.
Proof.
  intros s f i H. unfold Re.group.
  destruct i; [apply no_upper_substring; assumption|].
  destruct (Re.lookup_cap (S i) (Re.caps (snd f))) as [[a b]|];
    [apply no_upper_substring; assumption | reflexivity].
Qed.

Lemma no_upper_sub_build : forall s ms from,
  no_upper s = true -> no_upper (Re.sub_build "" s from ms) = true.
Proof.
  intros s ms. induction ms as [|f ms IH]; intros from H; simpl.
  - apply no_upper_substring. assumption.
  - rewrite no_upper_app, no_upper_substring by assumption.
    apply IH. assumption.
Qed.

Lemma no_upper_sub : forall r s,
  no_upper s = true -> no_upper (Re.sub r "" s) = true.
Proof. intros r s H. unfold Re.sub. apply no_upper_sub_build. exact H. Qed.

Lemma findall1_no_upper : forall r s,
  no_upper s = true ->
  Forall (fun mt => no_upper mt = true) (Re.findall1 r s).
Proof.
  intros r s H. unfold Re.findall1. rewrite Forall_forall.
  intros mt Hin. apply in_map_iff in Hin. destruct Hin as [f [<- _]].
  apply no_upper_group. exact H.
Qed.

(** ** Shape of the parsed filters *)

Lemma well_shaped_same_but_keywords : forall f1 f2,
  same_but_keywords f1 f2 -> well_shaped f1 -> well_shaped f2.
Proof.
  intros f1 f2 (H1 & H2 & H3 & H4 & H5 & H6) (W1 & W2 & W3 & W4 & W5).
  unfold well_shaped. rewrite <- H1, <- H2, <- H3, <- H4, <- H5, <- H6.
  repeat split; try assumption; apply W5.
Qed.

Lemma sender_match_before_labels : forall pattern acc mt,
  before_labels acc -> no_upper mt = true ->
  before_labels (Parser.sender_match pattern acc mt).
Proof.
  intros pattern [f q] mt (Hq & Hl & W) Hm. simpl in Hq, Hl, W.
  unfold Parser.sender_match.
  destruct (Py.contains "@" mt) eqn:E.
  - split; [apply no_upper_sub; exact Hq|]. split; [exact Hl|].
    destruct W as (W1 & W2 & W3 & W4 & W5).
    unfold well_shaped. cbn [fst add_sender sender_emails labels
      is_important has_attachments date_from date_to].
    repeat split; try assumption; try apply W5.
    apply Forall_app. split; [exact W1|].
    constructor; [|constructor].
    split; [exact E | apply lower_no_upper; exact Hm].
  - split; [apply no_upper_sub; exact Hq|]. split; [exact Hl|].
    apply well_shaped_same_but_keywords with (f1 := f); [|exact W].
    unfold same_but_keywords. repeat split.
Qed.

Lemma fold_sender_match_before_labels : forall pattern ms acc,
  Forall (fun mt => no_upper mt = true) ms ->
  before_labels acc ->
  before_labels (fold_left (Parser.sender_match pattern) ms acc).
Proof.
  intros pattern ms. induction ms as [|mt ms IH]; intros acc Hm H; simpl.
  - exact H.
  - inversion Hm as [|? ? Hmt Hms]; subst.
    apply IH; [exact Hms|].
    apply sender_match_before_labels; assumption.
Qed.

Lemma sender_pattern_before_labels : forall acc pattern,
  before_labels acc -> before_labels (Parser.sender_pattern acc pattern).
Proof.
  intros acc pattern H. unfold Parser.sender_pattern.
  apply fold_sender_match_before_labels; [|exact H].
  apply findall1_no_upper. apply H.
Qed.

Lemma after_senders_before_labels : forall q,
  before_labels (Parser.after_senders q).
Proof.
  intro q. unfold Parser.after_senders, Parser.extract_senders.
  assert (H0 : before_labels (no_filters, Py.strip (Py.lower q))).
  { split; [|split].
    - apply no_upper_rstrip, no_upper_lstrip, no_upper_lower.
    - reflexivity.
    - unfold well_shaped, no_filters, label_vocabulary.
      cbn [sender_emails labels is_important has_attachments
           date_from date_to fst].
      split; [constructor|]. split; [repeat constructor|].
      repeat split; discriminate. }
  revert H0. generalize (no_filters, Py.strip (Py.lower q)).
  induction Parser.sender_patterns as [|p ps IH]; intros acc H; simpl.
  - exact H.
  - apply IH. apply sender_pattern_before_labels. exact H.
Qed.

Lemma well_shaped_set_dates : forall f a b,
  well_shaped f -> well_shaped (set_dates f a b).
Proof.
  intros f a b (W1 & W2 & W3 & W4 & W5). unfold well_shaped.
  cbn [set_dates sender_emails labels is_important has_attachments
       date_from date_to].
  repeat split; try assumption; discriminate.
Qed.

Lemma extract_relative_date_before_labels : forall pats acc,
  before_labels acc ->
  before_labels (Parser.extract_relative_date pats acc).
Proof.
  induction pats as [|[p [a b]] pats IH]; intros acc H; simpl.
  - exact H.
  - destruct (Re.search p (snd acc)); [|apply IH; exact H].
    destruct H as (Hq & Hl & W).
    split; [apply no_upper_sub; exact Hq|].
    split; [exact Hl | apply well_shaped_set_dates; exact W].
Qed.

Lemma extract_month_year_before_labels : forall acc acc',
  before_labels acc -> Parser.extract_month_year acc = Ok acc' ->
  before_labels acc'.
Proof.
  intros [f q] acc' (Hq & Hl & W) H. simpl in Hq, Hl, W.
  unfold Parser.extract_month_year in H.
  destruct (Re.search Parser.month_year_re q) as [mm|].
  - destruct (Parser.month_num (Re.group q mm 1)) as [mo|e];
      cbn [bind] in H; [|discriminate].
    destruct (DT.make (Py.int (Re.group q mm 2)) mo 1) as [a|e];
      cbn [bind] in H; [|discriminate].
    destruct (if (mo =? 12)%Z
              then DT.make (Py.int (Re.group q mm 2) + 1) 1 1
              else DT.make (Py.int (Re.group q mm 2)) (mo + 1) 1) as [b|e];
      cbn [bind] in H; [|discriminate].
    injection H as <-.
    split; [apply no_upper_sub; exact Hq|].
    split; [exact Hl | apply well_shaped_set_dates; exact W].
  - injection H as <-. split; [exact Hq | split; [exact Hl | exact W]].
Qed.

Lemma extract_flags_before_labels : forall acc,
  before_labels acc ->
  labels (fst (Parser.extract_flags acc)) = [] /\
  well_shaped (fst (Parser.extract_flags acc)).
Proof.
  intros [f q] (Hq & Hl & (W1 & W2 & W3 & W4 & W5)). simpl in Hq, Hl.
  cbn [fst] in *. unfold Parser.extract_flags, well_shaped.
  destruct (Py.contains "important" q);
    match goal with
    | |- context [Py.contains "attachment" ?t] =>
        destruct (Py.contains "attachment" t)
    end;
    cbn [fst set_is_important set_has_attachments sender_emails labels
         is_important has_attachments date_from date_to];
    (split; [exact Hl|]); repeat split; try assumption; try discriminate;
    apply W5.
Qed.

Lemma fold_label_step_shape : forall pats acc,
  exists added,
    subseq added (map snd pats) /\
    labels (fst (fold_left Parser.label_step pats acc)) =
      labels (fst acc) ++ added /\
    sender_emails (fst (fold_left Parser.label_step pats acc)) =
      sender_emails (fst acc) /\
    is_important (fst (fold_left Parser.label_step pats acc)) =
      is_important (fst acc) /\
    has_attachments (fst (fold_left Parser.label_step pats acc)) =
      has_attachments (fst acc) /\
    date_from (fst (fold_left Parser.label_step pats acc)) =
      date_from (fst acc) /\
    date_to (fst (fold_left Parser.label_step pats acc)) =
      date_to (fst acc).
Proof.
  induction pats as [|pl pats IH]; intro acc; simpl.
  - exists []. rewrite app_nil_r. repeat split. constructor.
  - destruct (IH (Parser.label_step acc pl))
      as (added & Hs & Hl & H1 & H2 & H3 & H4 & H5).
    rewrite Hl, H1, H2, H3, H4, H5. unfold Parser.label_step.
    destruct (Re.search (fst pl) (snd acc)).
    + exists (snd pl :: added). cbn [fst add_label labels sender_emails
        is_important has_attachments date_from date_to].
      rewrite <- app_assoc. repeat split. apply subseq_keep. exact Hs.
    + exists added. repeat split. apply subseq_skip. exact Hs.
Qed.

Lemma parse_body_shape : forall today q f cq t,
  Parser.parse_body today q = Ok (f, cq, t) ->
  Forall (fun s => Py.contains "@" s = true /\ Py.lower s = s)
         (sender_emails f) /\
  subseq (labels f) label_vocabulary /\
  is_important f <> Some false /\ has_attachments f <> Some false /\
  (date_from f = None <-> date_to f = None).
Proof.
  intros today q f cq t H. unfold Parser.parse_body in H.
  destruct (Parser.date_patterns today) as [pats|e]; [|discriminate].
  cbn [bind] in H.
  pose proof (extract_relative_date_before_labels pats _
                (after_senders_before_labels q)) as H1.
  destruct (Parser.extract_month_year
              (Parser.extract_relative_date pats (Parser.after_senders q)))
    as [acc|e] eqn:E; [|discriminate].
  cbn [bind] in H.
  pose proof (extract_month_year_before_labels _ _ H1 E) as H2.
  destruct (extract_flags_before_labels _ H2) as [Hl (W1 & W2 & W3 & W4 & W5)].
  destruct (fold_label_step_shape Parser.label_patterns
              (Parser.extract_flags acc))
    as (added & Hs & Hlab & S1 & S2 & S3 & S4 & S5).
  fold (Parser.extract_labels (Parser.extract_flags acc)) in *.
  destruct (Parser.extract_labels (Parser.extract_flags acc)) as [f' q'].
  cbn [fst] in *. injection H as <- _ _.
  cbn [add_keywords sender_emails labels is_important has_attachments
       date_from date_to].
  rewrite Hlab, Hl, S1, S2, S3, S4, S5. cbn [app].
  repeat split; try assumption; apply W5.
Qed.

(** X14.  The filters of a successful parse have a fixed shape: every sender
    holds an [@] and no upper-case letter; the labels are labels of the
    vocabulary INBOX, SENT, DRAFT, SPAM, TRASH, each at most once and in
    that order; the two flags are true or unset, never false; and the two
    dates are set together or not at all. *)
Theorem parsed_filters_well_shaped : forall today q f cq t,
  Parser.parse_body today q = Ok (f, cq, t) -> well_shaped f.
Proof.
  intros today q f cq t H.
  destruct (parse_body_shape today q f cq t H) as (W1 & W2 & W3 & W4 & W5).
  unfold well_shaped. repeat split; try assumption; apply W5.
Qed.

Lemma parsed_filters_well_shaped_witness :
  well_shaped
    (mkFilters ["a@b.co"%string] None None ["INBOX"%string; "SPAM"%string]
               None None []).
Proof.
  apply (parsed_filters_well_shaped sample_date
           "sender: a@b.co inbox spam about x"
           _ "x" KEYWORD).
  vm_compute. reflexivity.
Defined.

(** X15.  For the filters of a successful parse the post-filter is the
    conjunction of the six predicates with the sender test read without
    regard to case: a result is kept exactly when it is in the input and
    satisfies every active predicate. *)
Theorem parsed_filters_match_without_case : forall today q f cq t,
  Parser.parse_body today q = Ok (f, cq, t) ->
  forall results r,
    In r (post_filter f results) <-> In r results /\ satisfies_claimed f r.
Proof.
  intros today q f cq t H results r.
  pose proof (parse_body_shape today q f cq t H) as (W & _).
  rewrite post_filter_filter, filter_In, keep_satisfies.
  rewrite satisfies_lower_case; [reflexivity|].
  rewrite Forall_forall in *. intros s Hs. apply (W s Hs).
Qed.

Lemma parsed_filters_match_without_case_witness :
  In (sample_result 1 1 "keyword")
     (post_filter
        (mkFilters ["bob@example.com"%string] None None [] None None
                   ["emails"%string])
        [sample_result 1 1 "keyword"]).
Proof.
  apply (parsed_filters_match_without_case sample_date
           "emails from Bob@Example.com" _ "emails" FILTERED).
  - vm_compute. reflexivity.
  - split; [left; reflexivity|].
    unfold satisfies_claimed, satisfies_with, ci_substring. simpl.
    repeat split; try discriminate; try (left; reflexivity).
    right. exists "bob@example.com"%string.
    split; [left; reflexivity | reflexivity].
Defined.

(** X16.  The parser does not tell upper case from lower case: a query and its
    lower-cased form parse alike. *)
Theorem parse_ignores_case : forall today q,
  Parser.parse_body today (Py.lower q) = Parser.parse_body today q.
Proof.
  intros today q.
  assert (E : Parser.after_senders (Py.lower q) = Parser.after_senders q).
  { unfold Parser.after_senders.
    rewrite (lower_no_upper (Py.lower q)) by apply no_upper_lower.
    reflexivity. }
  unfold Parser.parse_body. rewrite E. reflexivity.
Qed.

(** ** Date ranges *)

Lemma month_num_range : forall name mo,
  Parser.month_num name = Ok mo -> (1 <= mo <= 12)%Z.
Proof.
  intros name mo H. unfold Parser.month_num in H.
  destruct (find (fun e => String.eqb (fst e) name) Parser.month_table)
    as [e|] eqn:E; [|discriminate].
  injection H as <-. apply find_some in E. destruct E as [Hin _].
  unfold Parser.month_table in Hin. simpl in Hin.
  repeat (destruct Hin as [<-|Hin]; [simpl; lia|]). contradiction.
Qed.

Lemma make_first_day : forall y mo t,
  DT.make y mo 1 = Ok t -> t = month_start y mo /\ (1 <= y <= 9999)%Z.
Proof.
  intros y mo t H. unfold DT.make, DT.MINYEAR, DT.MAXYEAR in H.
  destruct ((1 <=? y)%Z && (y <=? 9999)%Z) eqn:Ey; [|discriminate].
  cbn [negb] in H.
  destruct (negb ((1 <=? mo)%Z && (mo <=? 12)%Z)); [discriminate|].
  destruct (negb ((1 <=? 1)%Z && (1 <=? DT.days_in_month y mo)%Z));
    [discriminate|].
  injection H as <-. split; [reflexivity|].
  apply andb_true_iff in Ey. destruct Ey as [H1 H2].
  apply Z.leb_le in H1. apply Z.leb_le in H2. lia.
Qed.

Lemma month_start_lt_next : forall y mo,
  DT.lt (month_start y mo) (next_month_start y mo) = true.
Proof.
  intros y mo. unfold next_month_start, DT.lt, DT.cmp, month_start.
  destruct (mo =? 12)%Z; cbn [DT.fields DT.year DT.month DT.day DT.hour
    DT.minute DT.second DT.microsecond DT.cmp_fields].
  - assert (E : (y ?= y + 1)%Z = Lt) by (apply Z.compare_lt_iff; lia).
    rewrite E. reflexivity.
  - rewrite Z.compare_refl.
    assert (E : (mo ?= mo + 1)%Z = Lt) by (apply Z.compare_lt_iff; lia).
    rewrite E. reflexivity.
Qed.

Lemma month_num_table : forall name mo,
  Parser.month_num name = Ok mo <-> In (name, mo) Parser.month_table.
Proof.
  intros name mo. split.
  - intro H. unfold Parser.month_num in H.
    destruct (find (fun e => String.eqb (fst e) name) Parser.month_table)
      as [[n m]|] eqn:E; [|discriminate].
    injection H as <-. apply find_some in E. destruct E as [Hin E].
    apply String.eqb_eq in E. cbn [fst] in E. subst n. exact Hin.
  - intro H. unfold Parser.month_table in H. simpl in H.
    repeat (destruct H as [H|H];
            [injection H as E1 E2; subst name mo; reflexivity|]).
    contradiction.
Qed.

Lemma make_first_day_ok : forall y mo,
  (1 <= y <= 9999)%Z -> (1 <= mo <= 12)%Z ->
  DT.make y mo 1 = Ok (month_start y mo).
Proof.
  intros y mo Hy Hmo. unfold DT.make, DT.MINYEAR, DT.MAXYEAR.
  replace ((1 <=? y)%Z && (y <=? 9999)%Z) with true
    by (symmetry; apply andb_true_iff; split; apply Z.leb_le; lia).
  replace ((1 <=? mo)%Z && (mo <=? 12)%Z) with true
    by (symmetry; apply andb_true_iff; split; apply Z.leb_le; lia).
  cbn [negb].
  assert (D : (1 <=? DT.days_in_month y mo)%Z = true).
  { unfold DT.days_in_month.
    destruct ((mo =? 2)%Z && DT.is_leap y); [reflexivity|].
    assert (C : (mo = 1 \/ mo = 2 \/ mo = 3 \/ mo = 4 \/ mo = 5 \/ mo = 6 \/
                 mo = 7 \/ mo = 8 \/ mo = 9 \/ mo = 10 \/ mo = 11 \/
                 mo = 12)%Z) by lia.
    repeat (destruct C as [C|C]; [subst mo; reflexivity|]).
    subst mo. reflexivity. }
  rewrite D. reflexivity.
Qed.

(** X17.  When the month-and-year pass finds a month name followed by four
    digits, a successful pass sets the range of that very month: the month
    is the number the table gives for the matched name, the year is the
    number the matched digits spell and lies in 1..9999, the range runs from
    midnight of the first day of the month to midnight of the first day of
    the next month (January of the next year after December), and the lower
    bound is earlier than the upper bound.  The pass succeeds for every
    named month of a year in 1..9999, December 9999 excepted, whose range
    would end in the year 10000. *)
Theorem month_year_range : forall f q mm,
  Re.search Parser.month_year_re q = Some mm ->
  (forall f' q', Parser.extract_month_year (f, q) = Ok (f', q') ->
     exists mo,
       In (Re.group q mm 1, mo) Parser.month_table /\
       (1 <= Py.int (Re.group q mm 2) <= 9999)%Z /\
       date_from f' = Some (month_start (Py.int (Re.group q mm 2)) mo) /\
       date_to f' = Some (next_month_start (Py.int (Re.group q mm 2)) mo) /\
       DT.lt (month_start (Py.int (Re.group q mm 2)) mo)
             (next_month_start (Py.int (Re.group q mm 2)) mo) = true) /\
  (forall mo, In (Re.group q mm 1, mo) Parser.month_table ->
     (1 <= Py.int (Re.group q mm 2))%Z ->
     (Py.int (Re.group q mm 2) + (if (mo =? 12)%Z then 1 else 0) <= 9999)%Z ->
     Parser.extract_month_year (f, q) =
       Ok (set_dates f (month_start (Py.int (Re.group q mm 2)) mo)
                       (next_month_start (Py.int (Re.group q mm 2)) mo),
           Re.sub (Re.lit (Re.group q mm 0)) "" q)).
Proof.
  intros f q mm Hs. split.
  - intros f' q' H. unfold Parser.extract_month_year in H.
    rewrite Hs in H.
    destruct (Parser.month_num (Re.group q mm 1)) as [mo|e] eqn:Em;
      cbn [bind] in H; [|discriminate].
    destruct (DT.make (Py.int (Re.group q mm 2)) mo 1) as [a|e] eqn:Ea;
      cbn [bind] in H; [|discriminate].
    destruct (if (mo =? 12)%Z
              then DT.make (Py.int (Re.group q mm 2) + 1) 1 1
              else DT.make (Py.int (Re.group q mm 2)) (mo + 1) 1)
      as [b|e] eqn:Eb; cbn [bind] in H; [|discriminate].
    injection H as <- _.
    destruct (make_first_day _ _ _ Ea) as [-> Hy].
    exists mo.
    split; [apply month_num_table; exact Em|].
    split; [exact Hy|].
    split; [reflexivity|]. split; [|apply month_start_lt_next].
    cbn [set_dates date_to]. unfold next_month_start.
    destruct (mo =? 12)%Z; destruct (make_first_day _ _ _ Eb) as [-> _];
      reflexivity.
  - intros mo Hin Hy1 Hy2. unfold Parser.extract_month_year.
    rewrite Hs. apply month_num_table in Hin.
    pose proof (month_num_range _ _ Hin) as Hmo.
    rewrite Hin. cbn [bind].
    unfold next_month_start.
    destruct (Z.eqb_spec mo 12) as [E|N].
    + rewrite !make_first_day_ok by lia. reflexivity.
    + rewrite !make_first_day_ok by lia. reflexivity.
Qed.

Lemma month_year_range_witness :
  exists mm,
    Re.search Parser.month_year_re "invoices december 2024" = Some mm /\
    Re.group "invoices december 2024" mm 1 = "december"%string /\
    Py.int (Re.group "invoices december 2024" mm 2) = 2024%Z /\
    exists q',
      Parser.extract_month_year
        (no_filters, "invoices december 2024"%string) =
      Ok (set_dates no_filters (month_start 2024 12) (month_start 2025 1),
          q').
Proof.
  destruct (Re.search Parser.month_year_re "invoices december 2024")
    as [mm|] eqn:E; [|vm_compute in E; discriminate].
  exists mm. split; [reflexivity|].
  assert (G1 : Re.group "invoices december 2024" mm 1 = "december"%string)
    by (vm_compute in E; injection E as <-; vm_compute; reflexivity).
  assert (G2 : Py.int (Re.group "invoices december 2024" mm 2) = 2024%Z)
    by (vm_compute in E; injection E as <-; vm_compute; reflexivity).
  split; [exact G1|]. split; [exact G2|].
  pose proof (proj2 (month_year_range no_filters "invoices december 2024"
                       mm E) 12%Z) as H.
  rewrite G1, G2 in H.
  eexists. apply H.
  - vm_compute. tauto.
  - lia.
  - vm_compute. discriminate.
Defined.

Lemma cmp_fields_refl : forall l, DT.cmp_fields l l = Eq.
Proof.
  induction l as [|x l IH]; simpl; [reflexivity|].
  rewrite Z.compare_refl. exact IH.
Qed.

Lemma cmp_fields_antisym : forall a b,
  DT.cmp_fields b a = CompOpp (DT.cmp_fields a b).
Proof.
  induction a as [|x a IH]; intros [|y b]; simpl; try reflexivity.
  rewrite (Z.compare_antisym x y).
  destruct (x ?= y)%Z; simpl; [apply IH | reflexivity | reflexivity].
Qed.

Lemma dt_ge_le : forall a b, DT.ge b a = DT.le a b.
Proof.
  intros a b. unfold DT.ge, DT.le, DT.cmp.
  rewrite (cmp_fields_antisym (DT.fields a) (DT.fields b)).
  destruct (DT.cmp_fields (DT.fields a) (DT.fields b)); reflexivity.
Qed.

Lemma dt_le_refl : forall a, DT.le a a = true.
Proof.
  intro a. unfold DT.le, DT.cmp. rewrite cmp_fields_refl. reflexivity.
Qed.

Lemma keep_date_window : forall a b r,
  keep (date_window a b) r =
  DT.ge (date_sent r) a && DT.le (date_sent r) b.
Proof.
  intros a b r. unfold keep, date_window.
  cbn [sender_emails date_from date_to labels is_important has_attachments
       Py.nonempty andb].
  rewrite dt_ge_not_lt, dt_le_not_gt.
  destruct (DT.lt (date_sent r) a); [reflexivity|].
  destruct (DT.gt (date_sent r) b); reflexivity.
Qed.

(** X18.  Both ends of a date range are inclusive in the post-filter: under a
    range from [a] to [b], with [a] not later than [b], a result sent exactly
    at [a] or exactly at [b] is kept, and in general a result is kept when
    its send date is at least [a] and at most [b].  So under the range of a
    month and year, a message sent at midnight of the first day of the next
    month passes. *)
Theorem date_range_inclusive : forall a b results,
  DT.le a b = true ->
  post_filter (date_window a b) results =
    filter (fun r => DT.ge (date_sent r) a && DT.le (date_sent r) b)
           results /\
  (forall r, date_sent r = a \/ date_sent r = b ->
             post_filter (date_window a b) [r] = [r]).
Proof.
  intros a b results Hab. split.
  - rewrite post_filter_filter. apply filter_ext. apply keep_date_window.
  - intros r Hr. rewrite post_filter_filter. cbn [filter].
    rewrite keep_date_window.
    destruct Hr as [->| ->].
    + rewrite dt_ge_le, dt_le_refl, Hab. reflexivity.
    + rewrite dt_ge_le, Hab, dt_le_refl. reflexivity.
Qed.

Lemma date_range_inclusive_witness :
  DT.le (month_start 2024 12) (month_start 2025 1) = true /\
  post_filter (date_window (month_start 2024 12) (month_start 2025 1))
    [mkResult 1 "e" "s" "n" "a@b.co" "" (month_start 2025 1) 1 "keyword"
              [] false] =
    [mkResult 1 "e" "s" "n" "a@b.co" "" (month_start 2025 1) 1 "keyword"
              [] false].
Proof.
  split; [reflexivity|].
  apply (proj2 (date_range_inclusive (month_start 2024 12)
                  (month_start 2025 1) [] eq_refl)).
  right. reflexivity.
Defined.

(** ** Results of the keyword stage *)

Lemma row_to_result_shape : forall terms row,
  search_type (row_to_result terms row) = "keyword"%string /\
  message_id (row_to_result terms row) = row_id row /\
  0 <= relevance_score (row_to_result terms row) <= 3.
Proof.
  intros terms row. split; [reflexivity|]. split; [reflexivity|].
  cbn [row_to_result relevance_score].
  unfold calculate_keyword_score.
  destruct terms as [|t ts]; [simpl; split; lra|].
  cbn [Py.nonempty].
  pose proof (fold_term_score_bounds
                (Py.lower (none_to_empty (row_subject row)))
                (Py.lower (none_to_empty (row_snippet row))) (t :: ts) 0)
    as [Hlo Hhi].
  assert (Hn : 0 < inject_Z (Z.of_nat (List.length (t :: ts)))).
  { change 0 with (inject_Z 0). rewrite <- Zlt_Qlt. simpl. lia. }
  split.
  - apply Qle_shift_div_l; [assumption | lra].
  - apply Qle_shift_div_r; [assumption | lra].
Qed.

(** X19.  When there is something to search for and the store answers, the
    keyword stage records the rows of the store, each as a result tagged
    [keyword] with the id of its row and a score between 0 and 3, ranked by
    score; it counts one match per row and records no error. *)
Theorem keyword_search_ranked : forall env s rows,
  cleaned_query s <> ""%string \/ keywords (filters s) <> [] ->
  db_query env (account_id s) (search_terms_of s) (max_results s) = Ok rows ->
  sorted_desc (keyword_results (keyword_search env s)) /\
  Permutation (map message_id (keyword_results (keyword_search env s)))
              (map row_id rows) /\
  Forall (fun r => search_type r = "keyword"%string /\
                   0 <= relevance_score r <= 3)
         (keyword_results (keyword_search env s)) /\
  total_keyword_matches (keyword_search env s) = List.length rows /\
  errors (keyword_search env s) = errors s.
Proof.
  intros env s rows Hq Hdb.
  assert (Hb : keyword_search_body env s =
               Ok (map (row_to_result (search_terms_of s)) rows)).
  { unfold keyword_search_body.
    assert (Hg : Py.truthy (cleaned_query s) ||
                 Py.nonempty (keywords (filters s)) = true).
    { destruct Hq as [Hq|Hq].
      - destruct (cleaned_query s); [contradiction | reflexivity].
      - destruct (keywords (filters s)); [contradiction|].
        apply orb_true_r. }
    rewrite Hg. fold (search_terms_of s). rewrite Hdb. reflexivity. }
  unfold keyword_search. rewrite Hb.
  cbn [keyword_results total_keyword_matches errors set_keyword_results].
  split; [apply sort_desc_sorted|].
  split.
  { eapply perm_trans; [apply Permutation_map, sort_desc_perm|].
    rewrite map_map. apply Permutation_refl. }
  split; [|split; [apply length_map | reflexivity]].
  rewrite Forall_forall. intros r Hr.
  apply (proj1 (sort_desc_In _ _)) in Hr. apply in_map_iff in Hr.
  destruct Hr as [row [<- _]].
  destruct (row_to_result_shape (search_terms_of s) row) as (H1 & _ & H3).
  split; assumption.
Qed.

Lemma keyword_search_ranked_witness :
  total_keyword_matches
    (keyword_search store_with_one_message
       (parsed store_with_one_message "project update" 2 5)) = 1%nat.
Proof.
  apply (keyword_search_ranked store_with_one_message
           (parsed store_with_one_message "project update" 2 5)
           [sample_row]).
  - left. vm_compute. discriminate.
  - reflexivity.
Defined.

(** ** The vector store service *)

Lemma fold_hit_to_result : forall fetch hits acc,
  exists found,
    fold_left (Services.hit_to_result fetch) hits acc = acc ++ found /\
    subseq (map vec_score found) (map Services.hit_score hits) /\
    (forall v, In v found ->
       exists hit data,
         In hit hits /\
         Services.get_email_data_by_vector_id fetch (Services.hit_id hit)
           = Some data /\
         vec_message_id v = Services.data_message_id data /\
         vec_score v = Services.hit_score hit).
Proof.
  intros fetch hits. induction hits as [|hit hits IH]; intro acc; simpl.
  - exists []. rewrite app_nil_r. repeat split; [constructor|].
    intros v [].
  - destruct (IH (Services.hit_to_result fetch acc hit))
      as (found & E & Hs & Hf).
    rewrite E. unfold Services.hit_to_result.
    destruct (Services.get_email_data_by_vector_id fetch
                (Services.hit_id hit)) as [data|] eqn:G.
    + eexists (_ :: found). rewrite <- app_assoc.
      split; [reflexivity|]. split; [apply subseq_keep; exact Hs|].
      intros v [<-|Hv].
      * exists hit, data. repeat split; auto.
      * destruct (Hf v Hv) as (h & d & H1 & H2 & H3 & H4).
        exists h, d. repeat split; auto.
    + exists found. split; [reflexivity|].
      split; [apply subseq_skip; exact Hs|].
      intros v Hv. destruct (Hf v Hv) as (h & d & H1 & H2 & H3 & H4).
      exists h, d. repeat split; auto.
Qed.

Lemma hit_to_result_app : forall fetch acc hit,
  Services.hit_to_result fetch acc hit = acc ++ result_of_hit fetch hit.
Proof.
  intros fetch acc hit.
  unfold Services.hit_to_result, Services.get_email_data_by_vector_id,
    result_of_hit.
  destruct (fetch (Services.hit_id hit)) as [[row|]|e];
    [reflexivity | | ]; rewrite app_nil_r; reflexivity.
Qed.

Lemma fold_hit_to_result_flat : forall fetch hits acc,
  fold_left (Services.hit_to_result fetch) hits acc =
  acc ++ flat_map (result_of_hit fetch) hits.
Proof.
  intros fetch hits. induction hits as [|hit hits IH]; intro acc; simpl.
  - rewrite app_nil_r. reflexivity.
  - rewrite IH, hit_to_result_app, <- app_assoc. reflexivity.
Qed.

(** X20.  [search_similar_vectors] never raises.  When the Qdrant client
    raises it returns the empty list.  Otherwise it returns exactly, in the
    order of the hits, one result for each hit whose vector id the join
    finds, made of the joined row and the hit's score: every such hit has
    its result in the list, and a hit whose lookup fails or finds no row is
    left out without a trace. *)
Theorem search_similar_vectors_total : forall client fetch v limit threshold,
  (forall e, client v limit threshold = Raise e ->
     Services.search_similar_vectors client fetch v limit threshold = []) /\
  (forall hits, client v limit threshold = Ok hits ->
     Services.search_similar_vectors client fetch v limit threshold =
       flat_map (result_of_hit fetch) hits /\
     (forall hit row, In hit hits ->
        fetch (Services.hit_id hit) = Ok (Some row) ->
        In (mkVector (Services.join_message_id row)
                     (Services.join_external_message_id row)
                     (Services.hit_score hit)
                     (none_to_empty (Services.join_subject row))
                     (none_to_empty (Services.join_snippet row))
                     (Services.join_sender_email row)
                     (match Services.join_date_sent row with
                      | Some d => isoformat d
                      | None => ""%string
                      end))
           (Services.search_similar_vectors client fetch
                                            v limit threshold)) /\
     subseq (map vec_score
               (Services.search_similar_vectors client fetch
                                                v limit threshold))
            (map Services.hit_score hits) /\
     (forall r,
        In r (Services.search_similar_vectors client fetch
                                              v limit threshold) ->
        exists hit data,
          In hit hits /\
          Services.get_email_data_by_vector_id fetch (Services.hit_id hit)
            = Some data /\
          vec_message_id r = Services.data_message_id data /\
          vec_score r = Services.hit_score hit) /\
     ((forall hit, In hit hits ->
         fetch (Services.hit_id hit) = Ok None \/
         exists e, fetch (Services.hit_id hit) = Raise e) ->
      Services.search_similar_vectors client fetch v limit threshold = [])).
Proof.
  intros client fetch v limit threshold. split.
  - intros e H. unfold Services.search_similar_vectors. rewrite H.
    reflexivity.
  - intros hits H. unfold Services.search_similar_vectors. rewrite H.
    split; [apply (fold_hit_to_result_flat fetch hits [])|].
    split.
    { intros hit row Hin Hf.
      rewrite (fold_hit_to_result_flat fetch hits []). cbn [app].
      apply in_flat_map. exists hit. split; [exact Hin|].
      unfold result_of_hit. rewrite Hf. left. reflexivity. }
    destruct (fold_hit_to_result fetch hits []) as (found & E & Hs & Hf).
    rewrite E. cbn [app]. split; [exact Hs|]. split; [exact Hf|].
    intro Hnone. destruct found as [|x found]; [reflexivity|].
    destruct (Hf x (or_introl eq_refl)) as (hit & data & Hin & G & _).
    unfold Services.get_email_data_by_vector_id in G.
    destruct (Hnone hit Hin) as [Hn|[e Hn]]; rewrite Hn in G; discriminate.
Qed.

Lemma search_similar_vectors_total_witness :
  Services.search_similar_vectors (fun _ _ _ => Ok sample_hits) join_v2
                                  [1; 0] 5 (3 # 10) =
    [mkVector 7 "ext-7" (5 # 10) "Project update" "" "bob@example.com"
              "2026-11-03T10:20:30+00:00"] /\
  Services.search_similar_vectors client_down join_v2 [1; 0] 5 (3 # 10) = [].
Proof.
  split.
  - rewrite (proj1 (proj2 (search_similar_vectors_total
                             (fun _ _ _ => Ok sample_hits) join_v2
                             [1; 0] 5 (3 # 10)) sample_hits eq_refl)).
    reflexivity.
  - apply (proj1 (search_similar_vectors_total client_down join_v2
                    [1; 0] 5 (3 # 10)) "connection refused").
    reflexivity.
Defined.

(** X21.  With the repository's [QdrantService] behind the workflow, an outage of
    the vector store is invisible: the semantic stage records no error (so
    the success flag is not affected) and no semantic result. *)
Theorem vector_store_outage_is_silent :
  forall env gemini client fetch s,
  (forall v limit threshold,
     exists e, client v limit threshold = Raise e) ->
  semantic_results s = [] ->
  errors (semantic_search (Services.with_services env gemini client fetch) s)
    = errors s /\
  semantic_results
    (semantic_search (Services.with_services env gemini client fetch) s) = [].
Proof.
  intros env gemini client fetch s Hdown Hs.
  unfold semantic_search, semantic_search_body, Services.with_services.
  cbn [qdrant_service].
  destruct (query_vector s) as [|x v]; [split; [reflexivity | exact Hs]|].
  cbn [Py.nonempty bind].
  destruct (Hdown (x :: v) (max_results s) (3 # 10)) as [e He].
  unfold Services.search_similar_vectors. rewrite He.
  cbn [convert_hits]. split; reflexivity.
Qed.

Lemma vector_store_outage_is_silent_witness :
  errors
    (semantic_search
       (Services.with_services store_with_one_message
          (fun _ => Ok [1; 0]) client_down no_join_row)
       (set_query_vector (initial_state "project update" 2 5 0) [1; 0])) = [].
Proof.
  apply (vector_store_outage_is_silent store_with_one_message
           (fun _ => Ok [1; 0]) client_down no_join_row
           (set_query_vector (initial_state "project update" 2 5 0) [1; 0])).
  - intros v limit threshold. exists "connection refused"%string. reflexivity.
  - reflexivity.
Defined.

(** ** The embedding service *)

Lemma substring_length_le : forall s n m,
  (String.length (String.substring n m s) <= m)%nat.
Proof.
  induction s as [|c s IH]; intros n m.
  - destruct n, m; simpl; lia.
  - destruct n as [|n]; simpl.
    + destruct m as [|m]; simpl; [lia|]. specialize (IH 0%nat m). lia.
    + apply IH.
Qed.

Lemma append_length : forall a b,
  String.length (a ++ b)%string = (String.length a + String.length b)%nat.
Proof.
  induction a as [|c a IH]; intro b; simpl; [reflexivity|].
  rewrite IH. reflexivity.
Qed.

Lemma clean_text_blank : forall text,
  Py.split text = [] -> Services.clean_text text = ""%string.
Proof.
  intros text H. unfold Services.clean_text. rewrite H.
  destruct (negb (Py.truthy text)); reflexivity.
Qed.

(** X22.  Text cleaned for the embedding model is at most 2003 characters long
    (2000 and the ellipsis); a text that is empty or made of white space
    only is cleaned to the empty string. *)
Theorem clean_text_bounded : forall text,
  (String.length (Services.clean_text text) <= 2003)%nat /\
  (Py.split text = [] -> Services.clean_text text = ""%string).
Proof.
  intro text. unfold Services.clean_text. split.
  - destruct (negb (Py.truthy text)); [simpl; lia|]. cbv zeta.
    destruct (2000 <? String.length (Py.join " " (Py.split text)))%nat eqn:E.
    + rewrite append_length.
      pose proof (substring_length_le (Py.join " " (Py.split text)) 0 2000).
      change (String.length "...") with 3%nat. lia.
    + apply Nat.ltb_ge in E. lia.
  - fold (Services.clean_text text). apply clean_text_blank.
Qed.

Lemma clean_text_bounded_witness :
  Py.split "  	 " = [] /\ Services.clean_text "  	 " = ""%string.
Proof.
  split; [reflexivity|].
  apply (proj2 (clean_text_bounded "  	 ")). reflexivity.
Defined.

Lemma rev_string_no_space : forall s acc,
  no_space acc = true -> no_space s = true ->
  no_space (Py.rev_string acc s) = true.
Proof.
  induction s as [|c s IH]; intros acc Ha Hs; simpl in *.
  - exact Ha.
  - apply andb_true_iff in Hs. destruct Hs as [Hc Hs].
    apply IH; [|exact Hs]. simpl. rewrite Hc, Ha. reflexivity.
Qed.

Lemma rev_string_truthy : forall s acc,
  Py.truthy acc = true -> Py.truthy (Py.rev_string acc s) = true.
Proof.
  induction s as [|c s IH]; intros acc Ha; simpl.
  - exact Ha.
  - apply IH. reflexivity.
Qed.

(** The words of [split] are not empty and hold no white space. *)
Lemma split_go_words : forall s cur,
  no_space cur = true ->
  Forall (fun w => no_space w = true /\ Py.truthy w = true)
         (Py.split_go cur s).
Proof.
  induction s as [|c s IH]; intros cur Hc; simpl.
  - destruct cur as [|c0 cur]; constructor; [|constructor].
    split; [apply rev_string_no_space; [reflexivity | exact Hc]|].
    simpl. apply rev_string_truthy. reflexivity.
  - destruct (Py.is_space c) eqn:Ec.
    + destruct cur as [|c0 cur]; [apply IH; reflexivity|].
      constructor; [|apply IH; reflexivity].
      split; [apply rev_string_no_space; [reflexivity | exact Hc]|].
      simpl. apply rev_string_truthy. reflexivity.
    + apply IH. simpl. rewrite Ec, Hc. reflexivity.
Qed.

Lemma strip_head : forall c r,
  Py.is_space c = false -> Py.truthy (Py.strip (String c r)) = true.
Proof.
  intros c r H. unfold Py.strip. cbn [Py.lstrip]. rewrite H.
  cbn [Py.rstrip]. destruct (Py.rstrip r); [rewrite H|]; reflexivity.
Qed.

Lemma join_head : forall l,
  l <> [] ->
  Forall (fun w => no_space w = true /\ Py.truthy w = true) l ->
  exists c r, Py.join " " l = String c r /\ Py.is_space c = false.
Proof.
  intros [|w ws] Hl HF; [contradiction|].
  inversion HF as [|? ? [Hn Ht] _]; subst.
  destruct w as [|c w]; [discriminate|].
  simpl in Hn. apply andb_true_iff in Hn. destruct Hn as [Hc _].
  apply negb_true_iff in Hc.
  unfold Py.join. destruct ws as [|w2 ws].
  - exists c, w. split; [reflexivity | exact Hc].
  - eexists c, _. split; [reflexivity | exact Hc].
Qed.

(** A text with a word is not blank after cleaning. *)
Lemma clean_text_not_blank : forall text,
  Py.split text <> [] ->
  Py.truthy (Py.strip (Services.clean_text text)) = true.
Proof.
  intros text H. unfold Services.clean_text.
  destruct text as [|c0 text]; [contradiction H; reflexivity|].
  cbn [Py.truthy negb]. cbv zeta.
  destruct (join_head (Py.split (String c0 text)) H
              (split_go_words (String c0 text) EmptyString eq_refl))
    as (c & r & E & Hc).
  rewrite E.
  destruct (2000 <? String.length (String c r))%nat.
  - change (String.substring 0 2000 (String c r))
      with (String c (String.substring 0 1999 r)).
    cbn [String.append]. apply strip_head. exact Hc.
  - apply strip_head. exact Hc.
Qed.

(** X23.  [generate_single_embedding] never raises and has three outcomes.
    For a text without a word it fails with [Empty text after cleaning],
    whatever the model would do.  For a text with a word it hands the
    cleaned text to the model: when the model returns a vector it succeeds
    with that vector, and when the model raises it fails with the message
    [Failed to generate embedding:] followed by the model's error, and an
    empty vector.  So a successful result carries the model's vector for
    the cleaned text, and a failed one an empty vector. *)
Theorem generate_single_embedding_outcomes : forall gemini text,
  (Py.split text = [] ->
   Services.generate_single_embedding gemini text =
     mkEmbedding false [] "Empty text after cleaning") /\
  (Py.split text <> [] -> forall v,
   gemini (Services.clean_text text) = Ok v ->
   Services.generate_single_embedding gemini text = mkEmbedding true v "") /\
  (Py.split text <> [] -> forall e,
   gemini (Services.clean_text text) = Raise e ->
   Services.generate_single_embedding gemini text =
     mkEmbedding false [] ("Failed to generate embedding: " ++ e)%string) /\
  (emb_success (Services.generate_single_embedding gemini text) = true ->
   gemini (Services.clean_text text) =
     Ok (emb_vector (Services.generate_single_embedding gemini text))) /\
  (emb_success (Services.generate_single_embedding gemini text) = false ->
   emb_vector (Services.generate_single_embedding gemini text) = []).
Proof.
  intros gemini text. unfold Services.generate_single_embedding.
  split; [|split; [|split; [|split]]].
  - intro H. rewrite (clean_text_blank text H). reflexivity.
  - intros H v Hv. rewrite (clean_text_not_blank text H), Hv. reflexivity.
  - intros H e He. rewrite (clean_text_not_blank text H), He. reflexivity.
  - destruct (negb (Py.truthy (Py.strip (Services.clean_text text))));
      [discriminate|].
    destruct (gemini (Services.clean_text text)); [reflexivity | discriminate].
  - destruct (negb (Py.truthy (Py.strip (Services.clean_text text))));
      [reflexivity|].
    destruct (gemini (Services.clean_text text)); [discriminate | reflexivity].
Qed.

Lemma generate_single_embedding_outcomes_witness :
  Py.split "project   update" <> [] /\
  Services.generate_single_embedding
    (fun t => if String.eqb t "project update" then Ok [1; 0]
              else Raise "unexpected text")
    "project   update" = mkEmbedding true [1; 0] "".
Proof.
  assert (H : Py.split "project   update" <> []) by (vm_compute; discriminate).
  split; [exact H|].
  apply (proj1 (proj2 (generate_single_embedding_outcomes
                         (fun t => if String.eqb t "project update"
                                   then Ok [1; 0]
                                   else Raise "unexpected text")
                         "project   update")) H).
  reflexivity.
Defined.

(** ** Results of the semantic stage *)

Lemma convert_hits_mirror : forall env vs i rs,
  convert_hits env i vs = Ok rs ->
  map message_id rs = map vec_message_id vs /\
  map relevance_score rs = map vec_score vs /\
  Forall (fun r => search_type r = "semantic"%string) rs.
Proof.
  intros env vs. induction vs as [|v vs IH]; intros i rs H; simpl in H.
  - injection H as <-. repeat split. constructor.
  - unfold vector_to_result in H.
    destruct (if Py.truthy (vec_date_sent v)
              then fromisoformat env (vec_date_sent v)
              else Ok (utcnow_hit env i)) as [d|e]; [|discriminate].
    cbn [bind] in H.
    destruct (convert_hits env (S i) vs) as [rs'|e] eqn:E; [|discriminate].
    cbn [bind] in H. injection H as <-.
    destruct (IH (S i) rs' E) as (H1 & H2 & H3).
    cbn [map message_id relevance_score]. rewrite H1, H2.
    repeat split. constructor; [reflexivity | exact H3].
Qed.

Lemma convert_hits_readable : forall env vs i,
  Forall (date_readable env) vs -> exists rs, convert_hits env i vs = Ok rs.
Proof.
  intros env vs. induction vs as [|v vs IH]; intros i H; simpl.
  - eexists. reflexivity.
  - inversion H as [|? ? Hv Hvs]; subst.
    destruct (IH (S i) Hvs) as [rs' E]. rewrite E.
    unfold vector_to_result.
    destruct Hv as [Hv|[d Hv]].
    + rewrite Hv. cbn. eexists. reflexivity.
    + destruct (Py.truthy (vec_date_sent v)); [rewrite Hv|];
        cbn; eexists; reflexivity.
Qed.

(** X24.  When the vector store answers with hits whose date strings are empty or
    readable, the semantic stage records one result per hit, in the order
    of the hits, with the hit's message id and score and the tag
    [semantic]; it counts them and records no error. *)
Theorem semantic_search_mirrors_hits : forall env s search hits,
  query_vector s <> [] ->
  qdrant_service env = Some search ->
  search (query_vector s) (max_results s) (3 # 10) = Ok hits ->
  Forall (date_readable env) hits ->
  map message_id (semantic_results (semantic_search env s)) =
    map vec_message_id hits /\
  map relevance_score (semantic_results (semantic_search env s)) =
    map vec_score hits /\
  Forall (fun r => search_type r = "semantic"%string)
         (semantic_results (semantic_search env s)) /\
  total_semantic_matches (semantic_search env s) = List.length hits /\
  errors (semantic_search env s) = errors s.
Proof.
  intros env s search hits Hv Hq Hs Hd.
  destruct (convert_hits_readable env hits 0 Hd) as [rs E].
  destruct (convert_hits_mirror env hits 0 rs E) as (H1 & H2 & H3).
  unfold semantic_search, semantic_search_body. rewrite Hq.
  destruct (query_vector s) as [|x v] eqn:Ev; [contradiction|].
  cbn [Py.nonempty]. rewrite Hs. cbn [bind]. rewrite E.
  cbn [semantic_results total_semantic_matches errors set_semantic_results].
  repeat split; try assumption.
  rewrite <- (length_map message_id rs), H1, length_map. reflexivity.
Qed.

Lemma semantic_search_mirrors_hits_witness :
  map message_id
    (semantic_results
       (semantic_search store_down
          (set_query_vector (initial_state "project plan" 2 5 0) [1; 0])))
  = [9%Z].
Proof.
  apply (proj1 (semantic_search_mirrors_hits store_down
                  (set_query_vector (initial_state "project plan" 2 5 0)
                                    [1; 0])
                  (fun _ _ _ =>
                     Ok [mkVector 9 "ext-9" (7 # 10) "Project plan" "plan"
                                  "eve@example.com" ""])
                  [mkVector 9 "ext-9" (7 # 10) "Project plan" "plan"
                            "eve@example.com" ""]
                  ltac:(discriminate) eq_refl eq_refl
                  ltac:(repeat constructor))).
Defined.

(** ** Which queries reach the embedding service *)

Lemma parse_body_type : forall today q f cq t,
  Parser.parse_body today q = Ok (f, cq, t) ->
  t = Parser.choose_search_type f cq.
Proof.
  intros today q f cq t H. unfold Parser.parse_body in H.
  destruct (Parser.date_patterns today) as [pats|e]; [|discriminate].
  cbn [bind] in H.
  destruct (Parser.extract_month_year
              (Parser.extract_relative_date pats (Parser.after_senders q)))
    as [acc|e]; [|discriminate].
  cbn [bind] in H.
  destruct (Parser.extract_labels (Parser.extract_flags acc)) as [f' q'].
  injection H as <- <- <-. reflexivity.
Qed.

Lemma parsed_long_query : forall env q acct maxr,
  wants_vector (state_search_type (parsed env q acct maxr)) = true ->
  cleaned_query (parsed env q acct maxr) <> ""%string ->
  (3 < String.length (cleaned_query (parsed env q acct maxr)))%nat.
Proof.
  intros env q acct maxr Hw Hq. unfold parsed, Parser.parse_query in *.
  destruct (Parser.parse_body (utcnow env)
              (query (initial_state q acct maxr (time_start env))))
    as [[[f cq] t]|e] eqn:E.
  - cbn [state_search_type cleaned_query set_parsed] in *.
    rewrite (parse_body_type _ _ _ _ _ E) in Hw.
    unfold Parser.choose_search_type in Hw.
    destruct (Py.truthy cq && (3 <? String.length cq)%nat) eqn:Ec;
      [|discriminate].
    apply andb_true_iff in Ec. destruct Ec as [_ Ec].
    apply Nat.ltb_lt in Ec. exact Ec.
  - exfalso. apply Hq. reflexivity.
Qed.

Lemma convert_hits_ext : forall env1 env2 vs i,
  fromisoformat env1 = fromisoformat env2 ->
  utcnow_hit env1 = utcnow_hit env2 ->
  convert_hits env1 i vs = convert_hits env2 i vs.
Proof.
  intros env1 env2 vs. induction vs as [|v vs IH]; intros i H1 H2; simpl.
  - reflexivity.
  - unfold vector_to_result. rewrite H1, H2, (IH (S i) H1 H2). reflexivity.
Qed.

Lemma semantic_search_ext : forall env1 env2 s,
  qdrant_service env1 = qdrant_service env2 ->
  fromisoformat env1 = fromisoformat env2 ->
  utcnow_hit env1 = utcnow_hit env2 ->
  semantic_search env1 s = semantic_search env2 s.
Proof.
  intros env1 env2 s H1 H2 H3. unfold semantic_search, semantic_search_body.
  rewrite H1.
  destruct (Py.nonempty (query_vector s)); [|reflexivity].
  destruct (qdrant_service env2) as [g|]; [|reflexivity].
  destruct (g (query_vector s) (max_results s) (3 # 10)) as [hits|e];
    cbn [bind]; [|reflexivity].
  rewrite (convert_hits_ext env1 env2 hits 0 H2 H3). reflexivity.
Qed.

(** X25.  The embedding service is asked about cleaned queries of more than three
    characters only: two embedding functions that agree on the texts longer
    than three characters give the same report for every query. *)
Theorem short_queries_are_not_embedded : forall env g1 g2 q acct maxr,
  (forall text, (3 < String.length text)%nat -> g1 text = g2 text) ->
  search_emails (with_embedding env g1) q acct maxr =
  search_emails (with_embedding env g2) q acct maxr.
Proof.
  intros env g1 g2 q acct maxr Hg.
  assert (Hbk : before_keyword (with_embedding env g1) q acct maxr =
                before_keyword (with_embedding env g2) q acct maxr).
  { unfold before_keyword. cbn [utcnow time_start with_embedding].
    fold (parsed env q acct maxr).
    unfold generate_query_vector. cbn [embedding_service with_embedding].
    destruct (wants_vector (state_search_type (parsed env q acct maxr)))
      eqn:Ew; [|reflexivity].
    destruct (Py.truthy (cleaned_query (parsed env q acct maxr))) eqn:Et;
      [|reflexivity].
    rewrite (Hg (cleaned_query (parsed env q acct maxr))); [reflexivity|].
    apply parsed_long_query; [exact Ew|].
    intro Hc. rewrite Hc in Et. discriminate. }
  assert (Hbs : before_semantic (with_embedding env g1) q acct maxr =
                before_semantic (with_embedding env g2) q acct maxr).
  { rewrite !before_semantic_keyword, Hbk.
    apply keyword_search_ext. reflexivity. }
  rewrite !search_emails_stages. cbv zeta. rewrite Hbs.
  rewrite (semantic_search_ext (with_embedding env g1)
             (with_embedding env g2)) by reflexivity.
  rewrite (finalize_results_ext (with_embedding env g1)
             (with_embedding env g2)) by reflexivity.
  reflexivity.
Qed.

Lemma short_queries_are_not_embedded_witness :
  search_emails
    (with_embedding store_with_one_message
       (fun text => if (3 <? String.length text)%nat
                    then Ok (mkEmbedding true [1; 0] "")
                    else Raise "not reached"))
    "hi" 2 5 =
  search_emails
    (with_embedding store_with_one_message
       (fun _ => Ok (mkEmbedding true [1; 0] "")))
    "hi" 2 5.
Proof.
  apply (short_queries_are_not_embedded store_with_one_message).
  intros text H. apply Nat.ltb_lt in H. rewrite H. reflexivity.
Defined.
